(** * MikeSnake: the per-turn movement decision engine

    A shallow embedding of [src/example_snakes/MikeSnake/main.py] and the
    properties its design document states about it.

    - Python numbers are kept as the interpreter has them: unbounded [int]
      ([Z]) and binary64 [float] (Rocq's primitive floats), with the
      int-to-float promotions, the exact mixed comparisons and the
      exceptions of the arithmetic operators.
    - Python exceptions are the [Raise] branch of [result].
    - [print] is the only effect of the engine; it is threaded as the
      standard-output log of [io].
    - Sets of coordinate tuples are [gset (Z * Z)]. *)

From Stdlib Require Import ZArith List Lia Bool String.
From Stdlib Require Import PrimFloat SpecFloat FloatOps.
From stdpp Require Import base option list gmap sets.

Open Scope Z_scope.

(* ===================================================================== *)
(** * Python values *)
(* ===================================================================== *)

Module Py.

(** ** Exceptions *)

Inductive exn : Type :=
| IndexError
| ValueError
| OverflowError
| ZeroDivisionError.

Inductive result (A : Type) : Type :=
| Ok (a : A)
| Raise (e : exn).
Arguments Ok {A} a.
Arguments Raise {A} e.

Definition bind {A B : Type} (m : result A) (k : A -> result B) : result B :=
  match m with
  | Ok a => k a
  | Raise e => Raise e
  end.

(** ** Numbers: [int] or [float] *)

Inductive num : Type :=
| Int (z : Z)
| Float (f : float).

(** [float(z)] for an [int]: correctly rounded (nearest, ties to even);
    [OverflowError] when the rounded value is not finite. *)
Definition Z2SF (z : Z) : spec_float := binary_normalize prec emax z 0 false.

Definition finite (f : float) : bool :=
  match Prim2SF f with
  | S754_zero _ | S754_finite _ _ _ => true
  | S754_infinity _ | S754_nan => false
  end.

Definition float_of_Z (z : Z) : result float :=
  let f := SF2Prim (Z2SF z) in
  if finite f then Ok f else Raise OverflowError.

Definition to_float (v : num) : result float :=
  match v with
  | Int z => float_of_Z z
  | Float f => Ok f
  end.

(** The integer as an unrounded binary number (exponent 0). *)
Definition Z2SF_exact (z : Z) : spec_float :=
  match z with
  | Z0 => S754_zero false
  | Zpos p => S754_finite false p 0
  | Zneg p => S754_finite true p 0
  end.

(** [a + b], [a - b], [a * b]: exact on two ints; otherwise both operands
    are promoted to [float] and the IEEE operation is applied (which
    never raises: an overflow is [inf]). *)
Definition arith (opz : Z -> Z -> Z) (opf : float -> float -> float)
           (a b : num) : result num :=
  match a, b with
  | Int x, Int y => Ok (Int (opz x y))
  | _, _ =>
      bind (to_float a) (fun fa =>
      bind (to_float b) (fun fb =>
      Ok (Float (opf fa fb))))
  end.

Definition add : num -> num -> result num := arith Z.add PrimFloat.add.
Definition sub : num -> num -> result num := arith Z.sub PrimFloat.sub.
Definition mul : num -> num -> result num := arith Z.mul PrimFloat.mul.

(** [a / b] (true division). Two ints: the correctly rounded quotient,
    [ZeroDivisionError] on [b = 0], [OverflowError] when the quotient is
    too large for a float. Otherwise the float quotient, with
    [ZeroDivisionError] on a zero divisor. *)
Definition is_zero (f : float) : bool :=
  match Prim2SF f with
  | S754_zero _ => true
  | _ => false
  end.

Definition truediv (a b : num) : result num :=
  match a, b with
  | Int x, Int y =>
      if y =? 0 then Raise ZeroDivisionError
      else
        let q := SF2Prim (SFdiv prec emax (Z2SF_exact x) (Z2SF_exact y)) in
        if finite q then Ok (Float q) else Raise OverflowError
  | _, _ =>
      bind (to_float a) (fun fa =>
      bind (to_float b) (fun fb =>
      if is_zero fb then Raise ZeroDivisionError
      else Ok (Float (PrimFloat.div fa fb))))
  end.

Definition neg (a : num) : num :=
  match a with
  | Int x => Int (- x)
  | Float f => Float (PrimFloat.opp f)
  end.

Definition abs (a : num) : num :=
  match a with
  | Int x => Int (Z.abs x)
  | Float f => Float (PrimFloat.abs f)
  end.

(** ** Comparisons

    Python compares numbers by value, exactly, also an [int] with a
    [float]. Every finite binary64 number is an integer multiple of
    [2^-1074], so a number that is not a NaN has an exact key in the
    integers extended with the two infinities: its value times [2^1074]. *)

Inductive key : Type :=
| NegInf
| Fin (z : Z)
| PosInf.

Definition float_key (f : float) : option key :=
  match Prim2SF f with
  | S754_nan => None
  | S754_zero _ => Some (Fin 0)
  | S754_infinity s => Some (if s then NegInf else PosInf)
  | S754_finite s m e => Some (Fin (cond_Zopp s (Z.shiftl (Zpos m) (e + 1074))))
  end.

Definition num_key (v : num) : option key :=
  match v with
  | Int z => Some (Fin (Z.shiftl z 1074))
  | Float f => float_key f
  end.

Definition key_ltb (a b : key) : bool :=
  match a, b with
  | NegInf, NegInf => false
  | NegInf, _ => true
  | Fin _, NegInf => false
  | Fin x, Fin y => x <? y
  | Fin _, PosInf => true
  | PosInf, _ => false
  end.

Definition key_leb (a b : key) : bool := negb (key_ltb b a).

(** A comparison with a NaN operand is false. *)
Definition cmp (rel : key -> key -> bool) (a b : num) : bool :=
  match num_key a, num_key b with
  | Some x, Some y => rel x y
  | _, _ => false
  end.

Definition lt : num -> num -> bool := cmp key_ltb.
Definition le : num -> num -> bool := cmp key_leb.
Definition gt (a b : num) : bool := lt b a.
Definition ge (a b : num) : bool := le b a.

Definition is_nan (v : num) : bool :=
  match num_key v with
  | Some _ => false
  | None => true
  end.

(** ** [min(iterable, key=...)] and [max(iterable, key=...)]

    Both keep the first item and replace it by a later one only when that
    one is strictly smaller (greater): the first extremal item wins. *)

Fixpoint max_from {A : Type} (k : A -> num) (best : A) (l : list A) : A :=
  match l with
  | [] => best
  | x :: l' => max_from k (if gt (k x) (k best) then x else best) l'
  end.

Definition max_by {A : Type} (k : A -> num) (l : list A) : result A :=
  match l with
  | [] => Raise ValueError
  | x :: l' => Ok (max_from k x l')
  end.

Fixpoint min_from {A : Type} (k : A -> num) (best : A) (l : list A) : A :=
  match l with
  | [] => best
  | x :: l' => min_from k (if lt (k x) (k best) then x else best) l'
  end.

Definition min_by {A : Type} (k : A -> num) (l : list A) : result A :=
  match l with
  | [] => Raise ValueError
  | x :: l' => Ok (min_from k x l')
  end.

(** ** Lists *)

(** [l[0]] *)
Definition first {A : Type} (l : list A) : result A :=
  match l with
  | [] => Raise IndexError
  | x :: _ => Ok x
  end.

(** [l[:-1]] and [l[:-2]] *)
Definition but_last {A : Type} (l : list A) : list A := removelast l.
Definition but_last2 {A : Type} (l : list A) : list A := removelast (removelast l).

(** [len(l)] *)
Definition len {A : Type} (l : list A) : Z := Z.of_nat (length l).

(** A loop [for x in l: acc = body(x, acc)] whose body may raise. *)
Fixpoint for_each {A S : Type} (body : A -> S -> result S) (l : list A) (s : S) : result S :=
  match l with
  | [] => Ok s
  | x :: l' => bind (body x s) (for_each body l')
  end.

End Py.

Import Py.

#[global] Instance result_bind : MBind result := fun A B k m => Py.bind m k.
#[global] Instance result_ret : MRet result := fun A a => Ok a.

(** [print]: the standard output is the state of the [io] monad. An
    exception leaves what was printed before it. *)
Definition io (Ev A : Type) : Type := list Ev -> result A * list Ev.

Definition io_ret {Ev A : Type} (a : A) : io Ev A := fun out => (Ok a, out).

Definition io_bind {Ev A B : Type} (m : io Ev A) (k : A -> io Ev B) : io Ev B :=
  fun out =>
    match m out with
    | (Ok a, out') => k a out'
    | (Raise e, out') => (Raise e, out')
    end.

Definition lift {Ev A : Type} (r : result A) : io Ev A := fun out => (r, out).

Definition print {Ev : Type} (line : Ev) : io Ev unit := fun out => (Ok tt, out ++ [line]).

(** [[f(x) for x in l]] with an [f] that may raise. *)
Fixpoint map_result {A B : Type} (f : A -> result B) (l : list A) : result (list B) :=
  match l with
  | [] => Ok []
  | x :: l' => y ← f x; ys ← map_result f l'; Ok (y :: ys)
  end.

(* ===================================================================== *)
(** * Data model: the game state the server passes to [move] *)
(* ===================================================================== *)

(** [{"x": ..., "y": ...}] *)
Record Pos : Type := mkPos { pos_x : Z; pos_y : Z }.

(** A snake: [id], [body] (head first, tail last) and [health]. *)
Record Snake : Type := mkSnake {
  snake_id : string;
  snake_body : list Pos;
  snake_health : Z
}.

Record Board : Type := mkBoard {
  width : Z;
  height : Z;
  food : list Pos;
  snakes : list Snake
}.

Record GameState : Type := mkGameState {
  turn : Z;
  board : Board;
  you : Snake
}.

(** The four move names, in the order of [possible_moves]. *)
Inductive Move : Type := Up | Down | Left | Right.

Definition possible_moves : list Move := [Up; Down; Left; Right].

(** A dict whose keys are the four moves ([move_scores], [safe_mask]). *)
Record Table (A : Type) : Type := mkTable {
  t_up : A;
  t_down : A;
  t_left : A;
  t_right : A
}.
Arguments mkTable {A}.
Arguments t_up {A}.
Arguments t_down {A}.
Arguments t_left {A}.
Arguments t_right {A}.

(** [{move: v for move in possible_moves}] *)
Definition table_of {A : Type} (v : A) : Table A := mkTable v v v v.

(** [t[move]] *)
Definition get {A : Type} (move : Move) (t : Table A) : A :=
  match move with
  | Up => t_up t
  | Down => t_down t
  | Left => t_left t
  | Right => t_right t
  end.

(** [t[move] = v] *)
Definition set {A : Type} (move : Move) (v : A) (t : Table A) : Table A :=
  match move with
  | Up => mkTable v (t_down t) (t_left t) (t_right t)
  | Down => mkTable (t_up t) v (t_left t) (t_right t)
  | Left => mkTable (t_up t) (t_down t) v (t_right t)
  | Right => mkTable (t_up t) (t_down t) (t_left t) v
  end.

(** Strategy configuration. *)
Definition LOW_HEALTH_THRESHOLD : Z := 30.
Definition CRITICAL_HEALTH_THRESHOLD : Z := 15.
Definition HUNT_REWARD_THRESHOLD : Z := 3.

(** [[s for s in snakes if s['id'] != you['id']]] *)
Definition opponents_of (game_state : GameState) : list Snake :=
  List.filter (fun s => negb (String.eqb (snake_id s) (snake_id (you game_state))))
              (snakes (board game_state)).

(* ===================================================================== *)
(** * Utility functions *)
(* ===================================================================== *)

Definition _get_next_position (position : Pos) (move : Move) : Pos :=
  let x := pos_x position in
  let y := pos_y position in
  match move with
  | Up => mkPos x (y + 1)
  | Down => mkPos x (y - 1)
  | Left => mkPos (x - 1) y
  | Right => mkPos (x + 1) y
  end.

Definition _is_in_bounds (position : Pos) (width height : Z) : bool :=
  (0 <=? pos_x position) && (pos_x position <? width)
  && ((0 <=? pos_y position) && (pos_y position <? height)).

Definition _positions_equal (pos1 pos2 : Pos) : bool :=
  (pos_x pos1 =? pos_x pos2) && (pos_y pos1 =? pos_y pos2).

Definition _is_collision_with_body (position : Pos) (body : list Pos) : bool :=
  existsb (fun segment =>
             (pos_x position =? pos_x segment) && (pos_y position =? pos_y segment))
          body.

Definition _is_collision_with_opponents
           (position : Pos) (opponents : list Snake) (exclude_tails : bool) : bool :=
  existsb (fun opponent =>
             let body := if exclude_tails then but_last (snake_body opponent)
                         else snake_body opponent in
             _is_collision_with_body position body)
          opponents.

Definition _manhattan_distance (pos1 pos2 : Pos) : Z :=
  Z.abs (pos_x pos1 - pos_x pos2) + Z.abs (pos_y pos1 - pos_y pos2).

(* ===================================================================== *)
(** * Dynamic flood fill *)
(* ===================================================================== *)

(** [(p['x'], p['y'])] *)
Definition tuple (p : Pos) : Z * Z := (pos_x p, pos_y p).

(** The [obstacles] set: every body without its last segment. *)
Definition flood_obstacles (game_state : GameState) : gset (Z * Z) :=
  let mine : gset (Z * Z) := list_to_set (map tuple (but_last (snake_body (you game_state)))) in
  foldl (fun (obstacles : gset (Z * Z)) snake =>
           if negb (String.eqb (snake_id snake) (snake_id (you game_state)))
           then obstacles ∪ list_to_set (map tuple (but_last (snake_body snake)))
           else obstacles)
        mine (snakes (board game_state)).

(** [base_max], from the board size. *)
Definition flood_base_max (board_size : Z) : Z :=
  if board_size <=? 100 then 80
  else if board_size <=? 200 then 120
  else Z.min (board_size / 2) 250.

(** The body of [for move in ["up", "down", "left", "right"]]. *)
Definition flood_visit (board_width board_height : Z) (obstacles : gset (Z * Z))
           (current : Pos) (st : gset (Z * Z) * list Pos) (move : Move)
  : gset (Z * Z) * list Pos :=
  let '(visited, queue) := st in
  let next_pos := _get_next_position current move in
  let pos_tuple := tuple next_pos in
  if bool_decide (pos_tuple ∉ visited)
     && bool_decide (pos_tuple ∉ obstacles)
     && _is_in_bounds next_pos board_width board_height
  then ({[pos_tuple]} ∪ visited, queue ++ [next_pos])
  else st.

(** [while queue and count < base_max]. [count] grows by one in every
    iteration, so the loop is written by recursion on [remaining], the
    number [base_max - count] of iterations the second conjunct of its
    condition still allows: [remaining = 0] is [not (count < base_max)]. *)
Fixpoint flood_loop (remaining : nat) (safe_space board_width board_height : Z)
         (obstacles : gset (Z * Z)) (queue : list Pos) (visited : gset (Z * Z))
         (count : Z) : Z :=
  match remaining, queue with
  | S remaining', current :: queue' =>
      let count := count + 1 in
      if safe_space <=? count then count
      else
        let '(visited', queue'') :=
          foldl (flood_visit board_width board_height obstacles current)
                (visited, queue') possible_moves in
        flood_loop remaining' safe_space board_width board_height
                   obstacles queue'' visited' count
  | _, _ => count
  end.

Definition _flood_fill_dynamic (start_pos : Pos) (game_state : GameState) : Z :=
  let board_width := width (board game_state) in
  let board_height := height (board game_state) in
  let my_body := snake_body (you game_state) in
  let my_length := len my_body in
  let obstacles := flood_obstacles game_state in
  let board_size := board_width * board_height in
  let base_max := flood_base_max board_size in
  let safe_space := my_length * 3 in
  flood_loop (Z.to_nat base_max) safe_space board_width board_height
             obstacles [start_pos] {[tuple start_pos]} 0.

(* ===================================================================== *)
(** * Evaluation layers *)
(* ===================================================================== *)

(** Every layer is called by [move] with
    [possible_moves = ["up", "down", "left", "right"]]; the parameter is
    fixed to that list here. *)

(** [move_scores[move] -= 10000; safe_mask[move] = False; continue] *)
Definition mark_unsafe (move : Move) (st : Table bool * Table num)
  : result (Table bool * Table num) :=
  let '(safe_mask, move_scores) := st in
  v ← Py.sub (get move move_scores) (Int 10000);
  Ok (set move false safe_mask, set move v move_scores).

(** [my_body[1] if len(my_body) > 1 else None] *)
Definition neck_of (my_body : list Pos) : option Pos :=
  if 1 <? len my_body then nth_error my_body 1 else None.

Definition basic_safety_step (my_head : Pos) (my_body : list Pos) (opponents : list Snake)
           (board_width board_height : Z) (move : Move) (st : Table bool * Table num)
  : result (Table bool * Table num) :=
  let my_neck := neck_of my_body in
  let next_pos := _get_next_position my_head move in
  if match my_neck with
     | Some neck => (pos_x next_pos =? pos_x neck) && (pos_y next_pos =? pos_y neck)
     | None => false
     end
  then mark_unsafe move st
  else if negb (_is_in_bounds next_pos board_width board_height)
  then mark_unsafe move st
  else if _is_collision_with_body next_pos (but_last my_body)
  then mark_unsafe move st
  else if _is_collision_with_opponents next_pos opponents true
  then mark_unsafe move st
  else Ok st.

(** Layer 1: basic safety. Returns [safe_mask] and the updated
    [move_scores] (the dict the caller passed, mutated in place). *)
Definition _evaluate_basic_safety (my_head : Pos) (my_body : list Pos) (opponents : list Snake)
           (board_width board_height : Z) (move_scores : Table num)
  : result (Table bool * Table num) :=
  for_each (basic_safety_step my_head my_body opponents board_width board_height)
           possible_moves (table_of true, move_scores).

(** The loop every later layer runs:
    [for move in possible_moves: if not safe_mask[move]: continue; ...],
    whose body replaces [move_scores[move]] by [update move move_scores[move]]. *)
Definition on_safe_moves (safe_mask : Table bool) (update : Move -> num -> result num)
           (move_scores : Table num) : result (Table num) :=
  for_each (fun move scores =>
              if negb (get move safe_mask) then Ok scores
              else v ← update move (get move scores); Ok (set move v scores))
           possible_moves move_scores.

(** Layer 2: space. *)
Definition _evaluate_space_availability (my_head : Pos) (my_length : Z)
           (move_scores : Table num) (safe_mask : Table bool) (game_state : GameState)
  : result (Table num) :=
  on_safe_moves safe_mask
    (fun move score =>
       let next_pos := _get_next_position my_head move in
       let available_space := _flood_fill_dynamic next_pos game_state in
       score ← Py.add score (Int (available_space * 10));
       if available_space <? my_length then
         let penalty := (my_length - available_space) * 50 in
         score ← Py.sub score (Int penalty);
         if available_space <? my_length / 2 then Py.sub score (Int 200)
         else Ok score
       else Ok score)
    move_scores.

(** ** Dynamic aggressive threshold *)

(** [sum(len(s['body']) for s in opponents)] *)
Definition sum_lengths (opponents : list Snake) : Z :=
  foldl Z.add 0 (map (fun s => len (snake_body s)) opponents).

(** [max(len(s['body']) for s in opponents)] *)
Definition max_length (opponents : list Snake) : result Z :=
  match opponents with
  | [] => Raise ValueError
  | s :: others =>
      Ok (foldl Z.max (len (snake_body s)) (map (fun s => len (snake_body s)) others))
  end.

(** [sum(...) / len(opponents)] *)
Definition average_length (opponents : list Snake) : result num :=
  Py.truediv (Int (sum_lengths opponents)) (Int (len opponents)).

Definition _calculate_dynamic_aggressive_threshold (game_state : GameState) : result Z :=
  let my_length := len (snake_body (you game_state)) in
  let opponents := opponents_of game_state in
  if bool_decide (opponents = []) then Ok 6
  else
    avg_opponent_length ← average_length opponents;
    max_opponent_length ← max_length opponents;
    if Py.gt avg_opponent_length (Int (my_length + 3)) then Ok 10
    else if my_length + 4 <? max_opponent_length then Ok 11
    else if Py.lt avg_opponent_length (Int (my_length - 2)) then Ok 6
    else if 4 <=? len opponents then Ok 9
    else if len opponents <=? 2 then Ok 7
    else Ok 8.

(** ** Emergency strategy *)

Record FoodOption : Type := mkFoodOption {
  food_target : Pos;
  food_distance : Z;
  food_score : num
}.

Record HuntOption : Type := mkHuntOption {
  hunt_target : Pos;
  hunt_distance : Z;
  hunt_score : num;
  hunt_third_party_risk : num;
  hunt_path_safe : bool
}.

(** What the engine prints. *)
Inductive Mode : Type := CRITICAL | AGGRESSIVE | SURVIVAL.

Inductive Line : Type :=
| MoveNoSafeMoves (turn : Z) (next_move : Move)
| MoveLine (turn : Z) (next_move : Move) (mode : Mode) (threshold : Z)
| EmergencyHunting (score risk : num)
| EmergencyFoodHuntTooRisky
| EmergencyHuntingNoFood
| EmergencyFood.

Definition _apply_hunting_strategy (my_head : Pos) (hunt_option : HuntOption)
           (move_scores : Table num) (safe_mask : Table bool) : result (Table num) :=
  let target := hunt_target hunt_option in
  on_safe_moves safe_mask
    (fun move score =>
       let next_pos := _get_next_position my_head move in
       let distance := _manhattan_distance next_pos target in
       q ← Py.truediv (hunt_score hunt_option) (Int (distance + 1));
       Py.add score q)
    move_scores.

Definition _apply_food_seeking (my_head : Pos) (target_food : Pos)
           (move_scores : Table num) (safe_mask : Table bool) (weight : Z)
  : result (Table num) :=
  on_safe_moves safe_mask
    (fun move score =>
       let next_pos := _get_next_position my_head move in
       let distance := _manhattan_distance next_pos target_food in
       q ← Py.truediv (Int weight) (Int (distance + 1));
       Py.add score q)
    move_scores.

(** The food option: [best_food_option] after the [if food:] block. *)
Definition emergency_food_option (my_head : Pos) (my_health : Z) (food : list Pos)
  : result (option FoodOption) :=
  match food with
  | [] => Ok None
  | _ :: _ =>
      closest_food ← Py.min_by (fun f => Int (_manhattan_distance my_head f)) food;
      let food_distance := _manhattan_distance my_head closest_food in
      if food_distance <? my_health then
        score ← Py.truediv (Int 500) (Int (food_distance + 1));
        Ok (Some (mkFoodOption closest_food food_distance score))
      else Ok None
  end.

(** The inner loop [for other_opponent in opponents]. *)
Definition third_party_threat_of (my_length : Z) (opponent : Snake) (opponent_head : Pos)
           (opponents : list Snake) : result num :=
  for_each (fun other_opponent third_party_threat =>
              if String.eqb (snake_id other_opponent) (snake_id opponent)
              then Ok third_party_threat
              else
                let other_length := len (snake_body other_opponent) in
                other_head ← Py.first (snake_body other_opponent);
                if my_length <=? other_length then
                  let distance_to_other := _manhattan_distance opponent_head other_head in
                  if distance_to_other <=? 5 then
                    q ← Py.truediv (Int 200) (Int (distance_to_other + 1));
                    Py.add third_party_threat q
                  else Ok third_party_threat
                else Ok third_party_threat)
           opponents (Int 0).

(** [temp_game_state]: a copy of the game state whose ['you'] has moved
    its head onto [new_head]. *)
Definition with_head_at (new_head : Pos) (game_state : GameState) : GameState :=
  mkGameState (turn game_state) (board game_state)
              (mkSnake (snake_id (you game_state))
                       (new_head :: but_last (snake_body (you game_state)))
                       (snake_health (you game_state))).

(** The body of [for opponent in opponents], on [best_hunt_option]. *)
Definition hunt_step (my_head : Pos) (my_length my_health : Z) (opponents : list Snake)
           (game_state : GameState) (opponent : Snake) (best_hunt_option : option HuntOption)
  : result (option HuntOption) :=
  let opponent_length := len (snake_body opponent) in
  opponent_head ← Py.first (snake_body opponent);
  if my_length <=? opponent_length then Ok best_hunt_option
  else
    let distance_to_opponent := _manhattan_distance my_head opponent_head in
    if my_health - 5 <=? distance_to_opponent then Ok best_hunt_option
    else
      let potential_food_gain := opponent_length in
      third_party_threat ← third_party_threat_of my_length opponent opponent_head opponents;
      let temp_game_state := with_head_at opponent_head game_state in
      let chase_space := _flood_fill_dynamic opponent_head temp_game_state in
      let chase_path_safe := my_length <=? chase_space in
      s ← Py.sub (Int (potential_food_gain * 50 - distance_to_opponent * 10))
                 third_party_threat;
      s ← Py.sub s (Int (if chase_path_safe then 0 else 150));
      score ← Py.sub s (Int 100);
      if Py.gt score (Int 50) && (HUNT_REWARD_THRESHOLD <=? potential_food_gain) then
        if match best_hunt_option with
           | None => true
           | Some best => Py.gt score (hunt_score best)
           end
        then Ok (Some (mkHuntOption opponent_head distance_to_opponent score
                                    third_party_threat chase_path_safe))
        else Ok best_hunt_option
      else Ok best_hunt_option.

#[global] Instance io_mbind {Ev : Type} : MBind (io Ev) := fun A B k m => io_bind m k.
#[global] Instance io_mret {Ev : Type} : MRet (io Ev) := fun A a => io_ret a.

Definition _evaluate_emergency_strategy_enhanced
           (my_head : Pos) (my_length my_health : Z) (food : list Pos)
           (opponents : list Snake) (move_scores : Table num) (safe_mask : Table bool)
           (game_state : GameState) : io Line (Table num) :=
  best_food_option ← lift (emergency_food_option my_head my_health food);
  best_hunt_option ←
    lift (for_each (hunt_step my_head my_length my_health opponents game_state)
                   opponents None);
  match best_hunt_option, best_food_option with
  | Some best_hunt, Some best_food =>
      doubled ← lift (Py.mul (food_score best_food) (Float 2));
      if Py.gt (hunt_score best_hunt) doubled
         && hunt_path_safe best_hunt
         && Py.lt (hunt_third_party_risk best_hunt) (Int 100)
      then
        scores ← lift (_apply_hunting_strategy my_head best_hunt move_scores safe_mask);
        _ ← print (EmergencyHunting (hunt_score best_hunt) (hunt_third_party_risk best_hunt));
        io_ret scores
      else
        scores ← lift (_apply_food_seeking my_head (food_target best_food)
                                           move_scores safe_mask 500);
        _ ← print EmergencyFoodHuntTooRisky;
        io_ret scores
  | Some best_hunt, None =>
      scores ← lift (_apply_hunting_strategy my_head best_hunt move_scores safe_mask);
      _ ← print EmergencyHuntingNoFood;
      io_ret scores
  | None, Some best_food =>
      scores ← lift (_apply_food_seeking my_head (food_target best_food)
                                         move_scores safe_mask 500);
      _ ← print EmergencyFood;
      io_ret scores
  | None, None => io_ret move_scores
  end.

(** ** Smart food choice *)

Definition _estimate_space_after_reaching (food_pos : Pos) (game_state : GameState) : Z :=
  _flood_fill_dynamic food_pos (with_head_at food_pos game_state).

Definition _count_threats_near (food_pos : Pos) (opponents : list Snake)
           (my_length : Z) (my_head : Pos) : result num :=
  let my_distance := _manhattan_distance my_head food_pos in
  for_each (fun opponent threat_count =>
              opp_head ← Py.first (snake_body opponent);
              let opp_distance := _manhattan_distance opp_head food_pos in
              let opp_length := len (snake_body opponent) in
              if (opp_distance <=? my_distance) && (my_length <=? opp_length) then
                q ← Py.truediv (Float 10) (Int (opp_distance + 1));
                Py.add threat_count q
              else Ok threat_count)
           opponents (Float 0).

Definition _evaluate_food_seeking_smart (my_head : Pos) (food : list Pos)
           (move_scores : Table num) (safe_mask : Table bool)
           (is_critical need_food : bool) (game_state : GameState) : result (Table num) :=
  let my_length := len (snake_body (you game_state)) in
  let opponents := opponents_of game_state in
  food_evaluations ←
    map_result (fun f =>
                  let distance := _manhattan_distance my_head f in
                  distance_score ← Py.truediv (Float 100) (Int (distance + 1));
                  let space := _estimate_space_after_reaching f game_state in
                  space_score ← Py.mul (Int space) (Float 2);
                  threat ← _count_threats_near f opponents my_length my_head;
                  let threat_score := Py.neg threat in
                  s ← Py.add distance_score space_score;
                  total_score ← Py.add s threat_score;
                  Ok (f, total_score))
               food;
  best ← Py.max_by snd food_evaluations;
  let best_food := fst best in
  let food_weight := if is_critical then 200 else if need_food then 100 else 30 in
  on_safe_moves safe_mask
    (fun move score =>
       let next_pos := _get_next_position my_head move in
       let distance_to_best := _manhattan_distance next_pos best_food in
       q ← Py.truediv (Int food_weight) (Int (distance_to_best + 1));
       Py.add score q)
    move_scores.

(** ** Aggressive strategy *)

Definition _evaluate_aggressive_strategy (my_head : Pos) (my_length : Z)
           (opponents : list Snake) (move_scores : Table num) (safe_mask : Table bool)
  : result (Table num) :=
  for_each (fun opponent scores =>
              opponent_head ← Py.first (snake_body opponent);
              let opponent_length := len (snake_body opponent) in
              if opponent_length <? my_length then
                on_safe_moves safe_mask
                  (fun move score =>
                     let next_pos := _get_next_position my_head move in
                     let distance := _manhattan_distance next_pos opponent_head in
                     q ← Py.truediv (Int 50) (Int (distance + 1));
                     Py.add score q)
                  scores
              else if my_length <=? opponent_length then
                on_safe_moves safe_mask
                  (fun move score =>
                     let next_pos := _get_next_position my_head move in
                     let distance := _manhattan_distance next_pos opponent_head in
                     if distance <=? 2 then
                       q ← Py.truediv (Int 100) (Int (distance + 1));
                       Py.sub score q
                     else Ok score)
                  scores
              else Ok scores)
           opponents move_scores.

(** ** Head-to-head defence, two-step prediction *)

Definition _predict_opponent_next_moves (opponent : Snake) (board_width board_height : Z)
           (depth : Z) : result (list Pos) :=
  opponent_head ← Py.first (snake_body opponent);
  let opponent_body := snake_body opponent in
  let first_step_positions :=
    List.filter (fun pos1 =>
                   _is_in_bounds pos1 board_width board_height
                   && negb (_is_collision_with_body pos1 (but_last opponent_body)))
                (map (_get_next_position opponent_head) possible_moves) in
  let second_step_positions :=
    if 2 <=? depth then
      flat_map (fun pos1 =>
                  List.filter (fun pos2 =>
                                 _is_in_bounds pos2 board_width board_height
                                 && negb (_is_collision_with_body
                                            pos2 (pos1 :: but_last2 opponent_body)))
                              (map (_get_next_position pos1) possible_moves))
               first_step_positions
    else [] in
  Ok (first_step_positions ++ second_step_positions).

Definition _evaluate_head_to_head_defense_enhanced (my_head : Pos) (my_length : Z)
           (opponents : list Snake) (board_width board_height : Z)
           (move_scores : Table num) (safe_mask : Table bool) : result (Table num) :=
  for_each (fun opponent scores =>
              opponent_head ← Py.first (snake_body opponent);
              let opponent_length := len (snake_body opponent) in
              if my_length <=? opponent_length then
                predicted_positions ←
                  _predict_opponent_next_moves opponent board_width board_height 2;
                on_safe_moves safe_mask
                  (fun move score =>
                     let next_pos := _get_next_position my_head move in
                     if existsb (_positions_equal next_pos) predicted_positions then
                       let distance := _manhattan_distance next_pos opponent_head in
                       let penalty :=
                         if distance <=? 1 then 400 + (opponent_length - my_length) * 50
                         else 200 + (opponent_length - my_length) * 30 in
                       Py.sub score (Int penalty)
                     else Ok score)
                  scores
              else Ok scores)
           opponents move_scores.

(** ** Position preference *)

Definition _evaluate_position_preference (my_head : Pos) (board_width board_height : Z)
           (move_scores : Table num) (safe_mask : Table bool) : result (Table num) :=
  center_x ← Py.truediv (Int board_width) (Int 2);
  center_y ← Py.truediv (Int board_height) (Int 2);
  on_safe_moves safe_mask
    (fun move score =>
       let next_pos := _get_next_position my_head move in
       dx ← Py.sub (Int (pos_x next_pos)) center_x;
       dy ← Py.sub (Int (pos_y next_pos)) center_y;
       distance_to_center ← Py.add (Py.abs dx) (Py.abs dy);
       d ← Py.add distance_to_center (Int 1);
       q ← Py.truediv (Int 5) d;
       Py.add score q)
    move_scores.

(* ===================================================================== *)
(** * The move decision *)
(* ===================================================================== *)

(** What [move] holds when every layer has run. *)
Record Scored : Type := mkScored {
  safe_moves_mask : Table bool;
  final_scores : Table num;
  is_critical : bool;
  is_aggressive : bool;
  dynamic_threshold : Z
}.

(** [move], up to and including the position preference layer. *)
Definition evaluate_layers (game_state : GameState) : io Line Scored :=
  my_head ← lift (Py.first (snake_body (you game_state)));
  let my_body := snake_body (you game_state) in
  let my_length := len my_body in
  let my_health := snake_health (you game_state) in
  let board_width := width (board game_state) in
  let board_height := height (board game_state) in
  let food := food (board game_state) in
  let opponents := opponents_of game_state in
  let move_scores := table_of (Int 0) in
  '(safe_moves_mask, move_scores) ←
    lift (_evaluate_basic_safety my_head my_body opponents
                                 board_width board_height move_scores);
  move_scores ←
    lift (_evaluate_space_availability my_head my_length move_scores
                                       safe_moves_mask game_state);
  dynamic_threshold ← lift (_calculate_dynamic_aggressive_threshold game_state);
  let is_aggressive :=
    (dynamic_threshold <=? my_length) && (LOW_HEALTH_THRESHOLD <? my_health) in
  let is_critical := my_health <? CRITICAL_HEALTH_THRESHOLD in
  let need_food := my_health <? LOW_HEALTH_THRESHOLD in
  move_scores ←
    (if is_critical && negb (bool_decide (opponents = [])) then
       _evaluate_emergency_strategy_enhanced
         my_head my_length my_health food opponents move_scores safe_moves_mask game_state
     else if negb (bool_decide (food = [])) && (need_food || negb is_aggressive) then
       lift (_evaluate_food_seeking_smart my_head food move_scores safe_moves_mask
                                          is_critical need_food game_state)
     else io_ret move_scores);
  move_scores ←
    (if is_aggressive && negb (bool_decide (opponents = [])) then
       lift (_evaluate_aggressive_strategy my_head my_length opponents
                                           move_scores safe_moves_mask)
     else io_ret move_scores);
  move_scores ←
    (if negb (bool_decide (opponents = [])) then
       lift (_evaluate_head_to_head_defense_enhanced
               my_head my_length opponents board_width board_height
               move_scores safe_moves_mask)
     else io_ret move_scores);
  move_scores ←
    lift (_evaluate_position_preference my_head board_width board_height
                                        move_scores safe_moves_mask);
  io_ret (mkScored safe_moves_mask move_scores is_critical is_aggressive dynamic_threshold).

(** [[m for m in possible_moves if safe_moves_mask[m] and move_scores[m] > -9000]] *)
Definition safe_moves_of (safe_moves_mask : Table bool) (move_scores : Table num)
  : list Move :=
  List.filter (fun m => get m safe_moves_mask && Py.gt (get m move_scores) (Int (-9000)))
              possible_moves.

(** The choice of [next_move]: the last lines of [move]. *)
Definition choose_move (safe_moves_mask : Table bool) (move_scores : Table num)
  : result Move :=
  let safe_moves := safe_moves_of safe_moves_mask move_scores in
  match safe_moves with
  | [] => Py.max_by (fun m => get m move_scores) possible_moves
  | _ :: _ => Py.max_by (fun m => get m move_scores) safe_moves
  end.

Definition move (game_state : GameState) : io Line Move :=
  scored ← evaluate_layers game_state;
  let safe_moves := safe_moves_of (safe_moves_mask scored) (final_scores scored) in
  next_move ← lift (choose_move (safe_moves_mask scored) (final_scores scored));
  _ ← print (match safe_moves with
             | [] => MoveNoSafeMoves (turn game_state) next_move
             | _ :: _ =>
                 let mode := if is_critical scored then CRITICAL
                             else if is_aggressive scored then AGGRESSIVE
                             else SURVIVAL in
                 MoveLine (turn game_state) next_move mode (dynamic_threshold scored)
             end);
  io_ret next_move.

(* ===================================================================== *)
(** * Sample game states *)
(* ===================================================================== *)

(** An 11 x 11 board, Self of length 3 with head (5,5) and neck (4,5), no
    opponents, no food. *)
Definition lone_snake : Snake :=
  mkSnake "me" [mkPos 5 5; mkPos 4 5; mkPos 3 5] 90.

Definition lone_state : GameState :=
  mkGameState 7 (mkBoard 11 11 [] [lone_snake]) lone_snake.

(** A 19 x 19 board on which Self has coiled itself around the corner
    (0,18): the body runs from the head (0,17) down the left column to
    (0,0), then up column 1, down column 2, and so on to the tail (10,0)
    at the foot of column 10. 18 + 10 * 19 = 208 segments, no opponents, no
    food. The corner cell is free; its only neighbours on the board are the
    head and the segment (1,18). *)
Definition column (x : Z) (ys : list nat) : list Pos :=
  map (fun y => mkPos x (Z.of_nat y)) ys.

Definition coiled_body : list Pos :=
  column 0 (rev (seq 0 18))
  ++ flat_map (fun i => column (Z.of_nat i)
                               (if Nat.odd i then seq 0 19 else rev (seq 0 19)))
              (seq 1 10).

Definition coiled_snake : Snake := mkSnake "me" coiled_body 90.

Definition coiled_state : GameState :=
  mkGameState 300 (mkBoard 19 19 [] [coiled_snake]) coiled_snake.

(** A snake lying along row [y], head at column [x0], [n] segments to the
    right of it. *)
Definition row_snake (name : string) (x0 y : Z) (n : nat) (health : Z) : Snake :=
  mkSnake name (map (fun i => mkPos (x0 + Z.of_nat i) y) (seq 0 n)) health.

(** Self of length 3 against a long and a short opponent (lengths 8 and 1),
    and against two opponents of length 7. *)
Definition short_self : Snake := row_snake "me" 0 0 3 90.

Definition uneven_field : GameState :=
  mkGameState 12
    (mkBoard 11 11 []
       [short_self; row_snake "a" 0 2 8 90; row_snake "b" 5 5 1 90])
    short_self.

Definition even_field : GameState :=
  mkGameState 12
    (mkBoard 11 11 []
       [short_self; row_snake "a" 0 4 7 90; row_snake "b" 0 6 7 90])
    short_self.

(** Self against four opponents of length 3, and against one of length 4. *)
Definition crowded_field : GameState :=
  mkGameState 12
    (mkBoard 11 11 []
       [short_self; row_snake "a" 0 2 3 90; row_snake "b" 0 4 3 90;
        row_snake "c" 0 6 3 90; row_snake "d" 0 8 3 90])
    short_self.

Definition duel_field : GameState :=
  mkGameState 12
    (mkBoard 11 11 [] [short_self; row_snake "a" 0 2 4 90])
    short_self.

(** Self starving (health 10) at (5,5), food three cells away at (5,8), one
    longer opponent far away. *)
Definition starving_snake : Snake :=
  mkSnake "me" [mkPos 5 5; mkPos 4 5; mkPos 3 5] 10.

Definition starving_state : GameState :=
  mkGameState 40
    (mkBoard 11 11 [mkPos 5 8] [starving_snake; row_snake "a" 0 0 5 90])
    starving_snake.

(** Self starving (health 14, length 5) with its head at (2,1), a shorter
    opponent of length 4 whose head (2,3) is two cells away, and food
    thirteen cells away at (10,6). *)
Definition hunter_snake : Snake :=
  mkSnake "me" [mkPos 2 1; mkPos 1 1; mkPos 0 1; mkPos 0 0; mkPos 1 0] 14.

Definition hunter_state : GameState :=
  mkGameState 41
    (mkBoard 11 11 [mkPos 10 6] [hunter_snake; row_snake "a" 2 3 4 90])
    hunter_snake.

(* ===================================================================== *)
(** * The input contract and the vocabulary of the properties *)
(* ===================================================================== *)

#[global] Instance Pos_eq_dec : EqDecision Pos.
Proof. solve_decision. Defined.

#[global] Instance Snake_eq_dec : EqDecision Snake.
Proof. solve_decision. Defined.

#[global] Instance Move_eq_dec : EqDecision Move.
Proof. solve_decision. Defined.

Definition adjacent (a b : Pos) : bool := _manhattan_distance a b =? 1.

Fixpoint chain (body : list Pos) : bool :=
  match body with
  | a :: ((b :: _) as rest) => adjacent a b && chain rest
  | _ => true
  end.

Definition snake_ok (board_width board_height : Z) (s : Snake) : bool :=
  negb (bool_decide (snake_body s = []))
  && forallb (fun p => _is_in_bounds p board_width board_height) (snake_body s)
  && chain (snake_body s)
  && (0 <=? snake_health s) && (snake_health s <=? 100).

(** A well-formed snapshot: board dimensions at least 1; every snake with a
    non-empty body of in-bounds, orthogonally adjacent segments and a
    health in 0..100; no cell occupied twice; unique identifiers; Self
    among the snakes, with at least two segments; food in bounds. *)
Definition well_formed (game_state : GameState) : bool :=
  let b := board game_state in
  (1 <=? width b) && (1 <=? height b)
  && forallb (snake_ok (width b) (height b)) (snakes b)
  && bool_decide (NoDup (map tuple (concat (map snake_body (snakes b)))))
  && bool_decide (NoDup (map snake_id (snakes b)))
  && bool_decide (you game_state ∈ snakes b)
  && (2 <=? len (snake_body (you game_state)))
  && forallb (fun p => _is_in_bounds p (width b) (height b)) (food b)
  && bool_decide (NoDup (map tuple (food b))).

(** The vocabulary of the safety filter (design document, 4.1): the
    resulting head coordinate equals the neck (the second body segment),
    lies outside the board, equals a segment of Self other than the last,
    or equals a segment of some opponent other than that opponent's last. *)
Definition inside (p : Pos) (board_width board_height : Z) : Prop :=
  0 <= pos_x p < board_width /\ 0 <= pos_y p < board_height.

Definition immediately_unsafe (my_head : Pos) (my_body : list Pos)
           (opponents : list Snake) (board_width board_height : Z) (m : Move) : Prop :=
  let next_pos := _get_next_position my_head m in
  nth_error my_body 1 = Some next_pos
  \/ ~ inside next_pos board_width board_height
  \/ In next_pos (removelast my_body)
  \/ exists opponent, In opponent opponents /\ In next_pos (removelast (snake_body opponent)).

(** The four tests of [basic_safety_step], as one boolean. *)
Definition blocked (my_head : Pos) (my_body : list Pos) (opponents : list Snake)
           (board_width board_height : Z) (m : Move) : bool :=
  let next_pos := _get_next_position my_head m in
  match neck_of my_body with
  | Some neck => (pos_x next_pos =? pos_x neck) && (pos_y next_pos =? pos_y neck)
  | None => false
  end
  || negb (_is_in_bounds next_pos board_width board_height)
  || _is_collision_with_body next_pos (but_last my_body)
  || _is_collision_with_opponents next_pos opponents true.

(** [m] is the arg-max of [score] over [pool], the first one in the order
    of [pool] among ties: every earlier item scores strictly less, no
    later item scores more. *)
Definition first_argmax (score : Move -> num) (pool : list Move) (m : Move) : Prop :=
  exists before after,
    pool = before ++ m :: after
    /\ (forall x, In x before -> Py.lt (score x) (score m) = true)
    /\ (forall x, In x after -> Py.le (score x) (score m) = true).

(** A decision table: the value of the first rule whose condition holds,
    [default] when none does. *)
Fixpoint first_match {A : Type} (rules : list (bool * A)) (default : A) : A :=
  match rules with
  | [] => default
  | (condition, value) :: rest => if condition then value else first_match rest default
  end.

(** The rules of the dynamic threshold controller (design document, 4.4),
    after the no-opponent case. *)
Definition threshold_rules (my_length : Z) (avg : num) (longest count : Z)
  : list (bool * Z) :=
  [ (Py.gt avg (Int (my_length + 3)), 10);
    (my_length + 4 <? longest, 11);
    (Py.lt avg (Int (my_length - 2)), 6);
    (4 <=? count, 9);
    (count <=? 2, 7) ].

(** The arbitration of the emergency strategy (design document, 4.5):
    hunt wins over food only if its score exceeds twice the food score, its
    chase path is safe and its third-party risk is below 100. *)
Definition hunt_wins (best_hunt : HuntOption) (best_food : FoodOption) : bool :=
  match Py.mul (food_score best_food) (Float 2) with
  | Ok doubled =>
      Py.gt (hunt_score best_hunt) doubled
      && hunt_path_safe best_hunt
      && Py.lt (hunt_third_party_risk best_hunt) (Int 100)
  | Raise _ => false
  end.

(** [scores'] is [scores] with [amount / (distance + 1)] added on every
    mask-safe move, [distance] being the Manhattan distance from the
    move's resulting coordinate to [target]; the other moves are untouched. *)
Definition projected (my_head : Pos) (safe_mask : Table bool) (amount : num) (target : Pos)
           (scores scores' : Table num) : Prop :=
  forall m,
    if get m safe_mask then
      exists q,
        Py.truediv amount
                   (Int (_manhattan_distance (_get_next_position my_head m) target + 1))
        = Ok q
        /\ Py.add (get m scores) q = Ok (get m scores')
    else get m scores' = get m scores.

(** The tables of [starving_state] when the emergency strategy starts. *)
Definition starving_mask : Table bool := mkTable true true false true.
Definition starving_scores : Table num :=
  mkTable (Int 90) (Int 90) (Int (-10000)) (Int 90).


(** The tables of [hunter_state] when the emergency strategy starts, and
    when it has run. *)
Definition hunter_mask : Table bool := mkTable true true false true.
Definition hunter_scores : Table num :=
  mkTable (Int 150) (Int 150) (Int (-10000)) (Int 150).
Definition hunter_scores_after : Table num :=
  mkTable (Float 190) (Float 170) (Int (-10000)) (Float 170).

(** What [move] holds on [lone_state] when every layer has run (the score
    of down is 90 + 5/3). *)
Definition lone_scored : Scored :=
  mkScored (mkTable true true false true)
           (mkTable (Float 92.5) (Float 0x1.6eaaaaaaaaaabp+6) (Int (-10000)) (Float 92.5))
           false false 6.

(** The frame of the layers after the safety filter: the score of every
    move whose mask is false is the same in [scores'] as in [scores]. *)
Definition frame (safe_mask : Table bool) (scores scores' : Table num) : Prop :=
  forall m, get m safe_mask = false -> get m scores' = get m scores.

(** A computation that only appends to the standard output, whatever it
    holds. *)
Definition appends {A : Type} (c : io Line A) : Prop :=
  exists r lines, forall out, c out = (r, out ++ lines).

(** [longest] is the greatest body length among [opponents]. *)
Definition longest_of (opponents : list Snake) (longest : Z) : Prop :=
  (forall o, In o opponents -> len (snake_body o) <= longest)
  /\ exists o, In o opponents /\ len (snake_body o) = longest.

(** [total] is the number of body segments of [opponents], all together. *)
Inductive total_of : list Snake -> Z -> Prop :=
| total_of_none : total_of [] 0
| total_of_more (o : Snake) (others : list Snake) (total : Z) :
    total_of others total ->
    total_of (o :: others) (len (snake_body o) + total).

(** The cells the loop takes out of the queue, in order. *)
Fixpoint flood_trace (remaining : nat) (safe_space board_width board_height : Z)
         (obstacles : gset (Z * Z)) (queue : list Pos) (visited : gset (Z * Z))
         (count : Z) : list Pos :=
  match remaining, queue with
  | S remaining', current :: queue' =>
      let count := count + 1 in
      if safe_space <=? count then [current]
      else
        let '(visited', queue'') :=
          foldl (flood_visit board_width board_height obstacles current)
                (visited, queue') possible_moves in
        current :: flood_trace remaining' safe_space board_width board_height
                               obstacles queue'' visited' count
  | _, _ => []
  end.

(** [cells] is a traversal from [start]: no cell twice, and every cell is
    [start] or a non-obstacle cell of the board one move away from a cell
    earlier in the list. *)
Definition traversal (start : Pos) (board_width board_height : Z)
           (obstacles : gset (Z * Z)) (cells : list Pos) : Prop :=
  NoDup cells
  /\ forall before p after,
      cells = before ++ p :: after ->
      p = start
      \/ (inside p board_width board_height
          /\ (tuple p ∉ obstacles)
          /\ exists c m, In c before /\ p = _get_next_position c m).

(** [p] is the start, or a free cell one move from a cell of [earlier]. *)
Definition reached (start : Pos) (w h : Z) (obstacles : gset (Z * Z))
           (earlier : list Pos) (p : Pos) : Prop :=
  p = start
  \/ (inside p w h /\ (tuple p ∉ obstacles)
      /\ exists c m, In c earlier /\ p = _get_next_position c m).

(** The cells a snake at [start] can get to: [start] itself, and every
    non-obstacle cell of the board one move from such a cell. *)
Inductive reachable (start : Pos) (board_width board_height : Z)
          (obstacles : gset (Z * Z)) : Pos -> Prop :=
| reachable_start : reachable start board_width board_height obstacles start
| reachable_step (c : Pos) (m : Move) :
    reachable start board_width board_height obstacles c ->
    inside (_get_next_position c m) board_width board_height ->
    tuple (_get_next_position c m) ∉ obstacles ->
    reachable start board_width board_height obstacles (_get_next_position c m).

(* ===================================================================== *)
(** * Further functions and vocabulary *)
(* ===================================================================== *)

Definition _get_possible_next_positions (position : Pos) (width height : Z) : list Pos :=
  List.filter (fun next_pos => _is_in_bounds next_pos width height)
              (map (_get_next_position position) possible_moves).

(** What the space layer adds to the score of a safe move with
    [available_space] cells ahead, for a Self of [my_length] segments. *)
Definition space_bonus (my_length available_space : Z) : Z :=
  available_space * 10
  - (if available_space <? my_length
     then (my_length - available_space) * 50
          + (if available_space <? my_length / 2 then 200 else 0)
     else 0).

(** Every score of the table is an [int]. *)
Definition all_int (scores : Table num) : Prop :=
  forall m, exists z, get m scores = Int z.

(** Self boxed in at the corner (0,0) of an 11 x 11 board: the neck is to
    the right, its own body above, the walls left and below. *)
Definition trapped_snake : Snake :=
  mkSnake "me" [mkPos 0 0; mkPos 1 0; mkPos 1 1; mkPos 0 1; mkPos 0 2] 90.

Definition trapped_state : GameState :=
  mkGameState 55 (mkBoard 11 11 [] [trapped_snake]) trapped_snake.

(** A snapshot that breaks the contract: an opponent without a body. *)
Definition bodiless_state : GameState :=
  mkGameState 3 (mkBoard 11 11 [] [lone_snake; mkSnake "ghost" [] 90]) lone_snake.

(** What [move] holds on [trapped_state] when every layer has run. *)
Definition trapped_scored : Scored :=
  mkScored (table_of false) (table_of (Int (-10000))) false false 6.

(** What the hunting loop of the emergency strategy records about the
    opponent it keeps: [hunt_option] was built from [opponent]. *)
Definition hunt_option_of (my_head : Pos) (my_length my_health : Z) (opponents : list Snake)
           (game_state : GameState) (opponent : Snake) (hunt_option : HuntOption) : Prop :=
  let target := hunt_target hunt_option in
  Py.first (snake_body opponent) = Ok target
  /\ hunt_distance hunt_option = _manhattan_distance my_head target
  /\ third_party_threat_of my_length opponent target opponents
     = Ok (hunt_third_party_risk hunt_option)
  /\ hunt_path_safe hunt_option
     = (my_length <=? _flood_fill_dynamic target (with_head_at target game_state)).

(** The lines the emergency strategy prints. *)
Definition is_emergency_line (line : Line) : bool :=
  match line with
  | EmergencyHunting _ _ | EmergencyFoodHuntTooRisky
  | EmergencyHuntingNoFood | EmergencyFood => true
  | MoveNoSafeMoves _ _ | MoveLine _ _ _ _ => false
  end.

(** The mode [move] prints, from the threshold of the turn. *)
Definition mode_of (game_state : GameState) (threshold : Z) : Mode :=
  if snake_health (you game_state) <? 15 then CRITICAL
  else if (threshold <=? len (snake_body (you game_state)))
          && (30 <? snake_health (you game_state))
       then AGGRESSIVE
       else SURVIVAL.

(** Self with health 3 at (5,5): the food at (5,8) is out of reach and the
    only opponent is longer. *)
Definition fading_snake : Snake :=
  mkSnake "me" [mkPos 5 5; mkPos 4 5; mkPos 3 5] 3.

Definition fading_state : GameState :=
  mkGameState 77
    (mkBoard 11 11 [mkPos 5 8] [fading_snake; row_snake "a" 0 0 5 90])
    fading_snake.

(** The snake [s] with another health value. *)
Definition with_health (health : Snake -> Z) (s : Snake) : Snake :=
  mkSnake (snake_id s) (snake_body s) (health s).

(** The game state with other health values for the snakes of the board;
    ['you'], which holds the health [move] reads for Self, is kept. *)
Definition with_board_health (health : Snake -> Z) (game_state : GameState) : GameState :=
  mkGameState (turn game_state)
    (mkBoard (width (board game_state)) (height (board game_state))
             (food (board game_state))
             (map (with_health health) (snakes (board game_state))))
    (you game_state).

(** The same coil one column shorter: 18 + 9 * 19 = 189 segments, the tail
    (9,18) at the top of column 9. *)
Definition shorter_coil_body : list Pos :=
  column 0 (rev (seq 0 18))
  ++ flat_map (fun i => column (Z.of_nat i)
                               (if Nat.odd i then seq 0 19 else rev (seq 0 19)))
              (seq 1 9).

Definition shorter_coil_snake : Snake := mkSnake "me" shorter_coil_body 90.

Definition shorter_coil_state : GameState :=
  mkGameState 280 (mkBoard 19 19 [] [shorter_coil_snake]) shorter_coil_snake.

(* ===================================================================== *)
(** * The process around [move] *)
(* ===================================================================== *)

(** [move] is called by a server that keeps the module loaded between
    turns. What could carry state from one call to the next is modelled
    here: the module-level names, the game-state dicts (objects that
    [move] receives by reference, copies and creates), and the standard
    output. *)

(** The module-level names (lines 27 to 30 of the module). *)
Record Globals : Type := mkGlobals {
  global_AGGRESSIVE_LENGTH_THRESHOLD : Z;
  global_LOW_HEALTH_THRESHOLD : Z;
  global_CRITICAL_HEALTH_THRESHOLD : Z;
  global_HUNT_REWARD_THRESHOLD : Z
}.

Definition module_globals : Globals :=
  mkGlobals 8 LOW_HEALTH_THRESHOLD CRITICAL_HEALTH_THRESHOLD HUNT_REWARD_THRESHOLD.

(** A reference to a game-state dict. *)
Definition Ref : Type := nat.

(** The dicts allocated so far are those below [next_ref]. *)
Record Process : Type := mkProcess {
  globals : Globals;
  objects : Ref -> GameState;
  next_ref : Ref;
  stdout : list Line
}.

Definition store (ref : Ref) (d : GameState) (objects : Ref -> GameState)
  : Ref -> GameState :=
  fun r => if Nat.eqb r ref then d else objects r.

(** Computations of the process: they may raise, read and write the
    process state. *)
Definition proc (A : Type) : Type := Process -> result A * Process.

Definition proc_ret {A : Type} (a : A) : proc A := fun p => (Ok a, p).

Definition proc_bind {A B : Type} (m : proc A) (k : A -> proc B) : proc B :=
  fun p =>
    match m p with
    | (Ok a, p') => k a p'
    | (Raise e, p') => (Raise e, p')
    end.

#[global] Instance proc_mbind : MBind proc := fun A B k m => proc_bind m k.
#[global] Instance proc_mret : MRet proc := fun A a => proc_ret a.

(** A computation that touches nothing of the process. *)
Definition pure {A : Type} (r : result A) : proc A := fun p => (r, p).

(** [print(...)] *)
Definition say (line : Line) : proc unit :=
  fun p => (Ok tt, mkProcess (globals p) (objects p) (next_ref p) (stdout p ++ [line])).

(** Reading a module-level name. *)
Definition read_global (name : Globals -> Z) : proc Z :=
  fun p => (Ok (name (globals p)), p).

(** Reading the dict behind a reference. *)
Definition load (ref : Ref) : proc GameState :=
  fun p => (Ok (objects p ref), p).

(** A dict display [{...}]: a new object. *)
Definition dict_new (d : GameState) : proc Ref :=
  fun p => (Ok (next_ref p),
            mkProcess (globals p) (store (next_ref p) d (objects p))
                      (S (next_ref p)) (stdout p)).

(** [d.copy()]: a new object with the items of [d]. *)
Definition dict_copy (ref : Ref) : proc Ref :=
  fun p => dict_new (objects p ref) p.

(** [d['you'] = snake] *)
Definition set_you (ref : Ref) (snake : Snake) : proc unit :=
  fun p =>
    let d := objects p ref in
    (Ok tt,
     mkProcess (globals p)
               (store ref (mkGameState (turn d) (board d) snake) (objects p))
               (next_ref p) (stdout p)).

(** [for x in l: acc = body(x, acc)] in the process. *)
Fixpoint proc_for_each {A S : Type} (body : A -> S -> proc S) (l : list A) (s : S) : proc S :=
  match l with
  | [] => proc_ret s
  | x :: l' => proc_bind (body x s) (proc_for_each body l')
  end.

(** [[f(x) for x in l]] in the process. *)
Fixpoint proc_map {A B : Type} (f : A -> proc B) (l : list A) : proc (list B) :=
  match l with
  | [] => proc_ret []
  | x :: l' => proc_bind (f x) (fun y => proc_bind (proc_map f l') (fun ys => proc_ret (y :: ys)))
  end.

(** The functions of the module that receive the game state, on a
    reference to it; the others work on values they are handed and are
    the ones above. *)
Module Process.

Definition _flood_fill_dynamic (start_pos : Pos) (game_state : Ref) : proc Z :=
  d ← load game_state;
  proc_ret (_flood_fill_dynamic start_pos d).

Definition _evaluate_space_availability (my_head : Pos) (my_length : Z)
           (move_scores : Table num) (safe_mask : Table bool) (game_state : Ref)
  : proc (Table num) :=
  proc_for_each
    (fun move scores =>
       if negb (get move safe_mask) then proc_ret scores
       else
         let next_pos := _get_next_position my_head move in
         available_space ← _flood_fill_dynamic next_pos game_state;
         v ← pure (score ← Py.add (get move scores) (Int (available_space * 10));
                   if available_space <? my_length then
                     let penalty := (my_length - available_space) * 50 in
                     score ← Py.sub score (Int penalty);
                     if available_space <? my_length / 2 then Py.sub score (Int 200)
                     else Ok score
                   else Ok score);
         proc_ret (set move v scores))
    possible_moves move_scores.

Definition _calculate_dynamic_aggressive_threshold (game_state : Ref) : proc Z :=
  d ← load game_state;
  pure (_calculate_dynamic_aggressive_threshold d).

(** The body of [for opponent in opponents] of the emergency strategy. *)
Definition hunt_step (my_head : Pos) (my_length my_health : Z) (opponents : list Snake)
           (game_state : Ref) (opponent : Snake) (best_hunt_option : option HuntOption)
  : proc (option HuntOption) :=
  let opponent_length := len (snake_body opponent) in
  opponent_head ← pure (Py.first (snake_body opponent));
  if my_length <=? opponent_length then proc_ret best_hunt_option
  else
    let distance_to_opponent := _manhattan_distance my_head opponent_head in
    if my_health - 5 <=? distance_to_opponent then proc_ret best_hunt_option
    else
      let potential_food_gain := opponent_length in
      third_party_threat ←
        pure (third_party_threat_of my_length opponent opponent_head opponents);
      temp_game_state ← dict_copy game_state;
      d ← load game_state;
      _ ← set_you temp_game_state
                  (mkSnake (snake_id (you d))
                           (opponent_head :: but_last (snake_body (you d)))
                           (snake_health (you d)));
      chase_space ← _flood_fill_dynamic opponent_head temp_game_state;
      let chase_path_safe := my_length <=? chase_space in
      s ← pure (Py.sub (Int (potential_food_gain * 50 - distance_to_opponent * 10))
                       third_party_threat);
      s ← pure (Py.sub s (Int (if chase_path_safe then 0 else 150)));
      score ← pure (Py.sub s (Int 100));
      hunt_reward_threshold ← read_global global_HUNT_REWARD_THRESHOLD;
      if Py.gt score (Int 50) && (hunt_reward_threshold <=? potential_food_gain) then
        if match best_hunt_option with
           | None => true
           | Some best => Py.gt score (hunt_score best)
           end
        then proc_ret (Some (mkHuntOption opponent_head distance_to_opponent score
                                          third_party_threat chase_path_safe))
        else proc_ret best_hunt_option
      else proc_ret best_hunt_option.

Definition _evaluate_emergency_strategy_enhanced
           (my_head : Pos) (my_length my_health : Z) (food : list Pos)
           (opponents : list Snake) (move_scores : Table num) (safe_mask : Table bool)
           (game_state : Ref) : proc (Table num) :=
  best_food_option ← pure (emergency_food_option my_head my_health food);
  best_hunt_option ←
    proc_for_each (hunt_step my_head my_length my_health opponents game_state)
                  opponents None;
  match best_hunt_option, best_food_option with
  | Some best_hunt, Some best_food =>
      doubled ← pure (Py.mul (food_score best_food) (Float 2));
      if Py.gt (hunt_score best_hunt) doubled
         && hunt_path_safe best_hunt
         && Py.lt (hunt_third_party_risk best_hunt) (Int 100)
      then
        scores ← pure (_apply_hunting_strategy my_head best_hunt move_scores safe_mask);
        _ ← say (EmergencyHunting (hunt_score best_hunt) (hunt_third_party_risk best_hunt));
        proc_ret scores
      else
        scores ← pure (_apply_food_seeking my_head (food_target best_food)
                                           move_scores safe_mask 500);
        _ ← say EmergencyFoodHuntTooRisky;
        proc_ret scores
  | Some best_hunt, None =>
      scores ← pure (_apply_hunting_strategy my_head best_hunt move_scores safe_mask);
      _ ← say EmergencyHuntingNoFood;
      proc_ret scores
  | None, Some best_food =>
      scores ← pure (_apply_food_seeking my_head (food_target best_food)
                                         move_scores safe_mask 500);
      _ ← say EmergencyFood;
      proc_ret scores
  | None, None => proc_ret move_scores
  end.

(** [temp_state = {'board': ..., 'you': {...}}] is a new dict; the record
    keeps the turn, a key the new dict lacks and the flood fill does not
    read. *)
Definition _estimate_space_after_reaching (food_pos : Pos) (game_state : Ref) : proc Z :=
  d ← load game_state;
  temp_state ← dict_new (mkGameState (turn d) (board d)
                           (mkSnake (snake_id (you d))
                                    (food_pos :: but_last (snake_body (you d)))
                                    (snake_health (you d))));
  _flood_fill_dynamic food_pos temp_state.

Definition _evaluate_food_seeking_smart (my_head : Pos) (food : list Pos)
           (move_scores : Table num) (safe_mask : Table bool)
           (is_critical need_food : bool) (game_state : Ref) : proc (Table num) :=
  d ← load game_state;
  let my_length := len (snake_body (you d)) in
  let opponents := opponents_of d in
  food_evaluations ←
    proc_map (fun f =>
                let distance := _manhattan_distance my_head f in
                distance_score ← pure (Py.truediv (Float 100) (Int (distance + 1)));
                space ← _estimate_space_after_reaching f game_state;
                pure (space_score ← Py.mul (Int space) (Float 2);
                      threat ← _count_threats_near f opponents my_length my_head;
                      let threat_score := Py.neg threat in
                      s ← Py.add distance_score space_score;
                      total_score ← Py.add s threat_score;
                      Ok (f, total_score)))
             food;
  pure (best ← Py.max_by snd food_evaluations;
        let best_food := fst best in
        let food_weight := if is_critical then 200 else if need_food then 100 else 30 in
        on_safe_moves safe_mask
          (fun move score =>
             let next_pos := _get_next_position my_head move in
             let distance_to_best := _manhattan_distance next_pos best_food in
             q ← Py.truediv (Int food_weight) (Int (distance_to_best + 1));
             Py.add score q)
          move_scores).

(** [move], up to and including the position preference layer. *)
Definition evaluate_layers (game_state : Ref) : proc Scored :=
  d ← load game_state;
  my_head ← pure (Py.first (snake_body (you d)));
  let my_body := snake_body (you d) in
  let my_length := len my_body in
  let my_health := snake_health (you d) in
  let board_width := width (board d) in
  let board_height := height (board d) in
  let food := food (board d) in
  let opponents := opponents_of d in
  let move_scores := table_of (Int 0) in
  '(safe_moves_mask, move_scores) ←
    pure (_evaluate_basic_safety my_head my_body opponents
                                 board_width board_height move_scores);
  move_scores ←
    _evaluate_space_availability my_head my_length move_scores safe_moves_mask game_state;
  dynamic_threshold ← _calculate_dynamic_aggressive_threshold game_state;
  low_health_threshold ← read_global global_LOW_HEALTH_THRESHOLD;
  critical_health_threshold ← read_global global_CRITICAL_HEALTH_THRESHOLD;
  let is_aggressive :=
    (dynamic_threshold <=? my_length) && (low_health_threshold <? my_health) in
  let is_critical := my_health <? critical_health_threshold in
  let need_food := my_health <? low_health_threshold in
  move_scores ←
    (if is_critical && negb (bool_decide (opponents = [])) then
       _evaluate_emergency_strategy_enhanced
         my_head my_length my_health food opponents move_scores safe_moves_mask game_state
     else if negb (bool_decide (food = [])) && (need_food || negb is_aggressive) then
       _evaluate_food_seeking_smart my_head food move_scores safe_moves_mask
                                    is_critical need_food game_state
     else proc_ret move_scores);
  move_scores ←
    (if is_aggressive && negb (bool_decide (opponents = [])) then
       pure (_evaluate_aggressive_strategy my_head my_length opponents
                                           move_scores safe_moves_mask)
     else proc_ret move_scores);
  move_scores ←
    (if negb (bool_decide (opponents = [])) then
       pure (_evaluate_head_to_head_defense_enhanced
               my_head my_length opponents board_width board_height
               move_scores safe_moves_mask)
     else proc_ret move_scores);
  move_scores ←
    pure (_evaluate_position_preference my_head board_width board_height
                                        move_scores safe_moves_mask);
  proc_ret (mkScored safe_moves_mask move_scores is_critical is_aggressive dynamic_threshold).

Definition move (game_state : Ref) : proc Move :=
  scored ← evaluate_layers game_state;
  let safe_moves := safe_moves_of (safe_moves_mask scored) (final_scores scored) in
  next_move ← pure (choose_move (safe_moves_mask scored) (final_scores scored));
  d ← load game_state;
  _ ← say (match safe_moves with
           | [] => MoveNoSafeMoves (turn d) next_move
           | _ :: _ =>
               let mode := if is_critical scored then CRITICAL
                           else if is_aggressive scored then AGGRESSIVE
                           else SURVIVAL in
               MoveLine (turn d) next_move mode (dynamic_threshold scored)
           end);
  proc_ret next_move.

End Process.

(** The vocabulary of statelessness: [p] has the module's globals and
    holds the dict [d] behind [ref]; [p'] keeps the globals of [p] and
    every dict that [p] holds. *)
Definition holds (ref : Ref) (d : GameState) (p : Process) : Prop :=
  globals p = module_globals /\ (ref < next_ref p)%nat /\ objects p ref = d.

Definition preserves (p p' : Process) : Prop :=
  globals p' = globals p
  /\ (next_ref p <= next_ref p')%nat
  /\ forall r, (r < next_ref p)%nat -> objects p' r = objects p r.

(** A process that has just loaded the module and received
    [hunter_state], a critical turn in which the hunt is evaluated. *)
Definition fresh_process : Process :=
  mkProcess module_globals (fun _ => hunter_state) 1%nat [].

(** The process-level computation [c] follows [m], a computation on the
    dict [d] alone: from every process that holds [d] behind [ref] it
    returns what [m] returns and prints what [m] prints, and it preserves
    the process. *)
Definition follows {A : Type} (ref : Ref) (d : GameState) (c : proc A) (m : io Line A)
  : Prop :=
  forall p, holds ref d p ->
            exists p', c p = (fst (m (stdout p)), p')
                       /\ stdout p' = snd (m (stdout p))
                       /\ preserves p p'.

(* ===================================================================== *)
(** * Proofs *)
(* ===================================================================== *)

(** ** The exception monad *)

Lemma bind_Ok {A B : Type} (m : result A) (k : A -> result B) (b : B) :
  m ≫= k = Ok b <-> exists a, m = Ok a /\ k a = Ok b.
Proof.
  destruct m as [a|e]; cbn; split.
  - intros H. exists a. auto.
  - intros (a' & Ha & Hk). congruence.
  - discriminate.
  - intros (a' & Ha & _). discriminate.
Qed.

Ltac inv_bind H :=
  let a := fresh "a" in
  let Ha := fresh "Ha" in
  apply bind_Ok in H as (a & Ha & H).

Lemma for_each_moves {S : Type} (body : Move -> S -> result S) (s s' : S) :
  for_each body possible_moves s = Ok s' <->
  exists s1 s2 s3,
    body Up s = Ok s1 /\ body Down s1 = Ok s2
    /\ body Left s2 = Ok s3 /\ body Right s3 = Ok s'.
Proof.
  unfold possible_moves. cbn [for_each]. split.
  - intros H.
    destruct (body Up s) as [s1|] eqn:E1; cbn in H; [|discriminate].
    destruct (body Down s1) as [s2|] eqn:E2; cbn in H; [|discriminate].
    destruct (body Left s2) as [s3|] eqn:E3; cbn in H; [|discriminate].
    destruct (body Right s3) as [s4|] eqn:E4; cbn in H; [|discriminate].
    exists s1, s2, s3. repeat split; congruence.
  - intros (s1 & s2 & s3 & E1 & E2 & E3 & E4).
    rewrite E1; cbn. rewrite E2; cbn. rewrite E3; cbn. rewrite E4; cbn. reflexivity.
Qed.

(** A relation that every iteration respects is respected by the loop. *)
Lemma for_each_preserves {A S : Type} (R : S -> S -> Prop)
      (body : A -> S -> result S) (l : list A) :
  (forall s, R s s) ->
  (forall s1 s2 s3, R s1 s2 -> R s2 s3 -> R s1 s3) ->
  (forall x s s', In x l -> body x s = Ok s' -> R s s') ->
  forall s s', for_each body l s = Ok s' -> R s s'.
Proof.
  intros Hrefl Htrans. induction l as [|x l IH]; intros Hbody s s' H.
  - cbn in H. injection H as <-. apply Hrefl.
  - cbn in H. destruct (body x s) as [s1|] eqn:E; cbn in H; [|discriminate].
    apply Htrans with s1.
    + apply (Hbody x); [left; reflexivity | exact E].
    + apply IH; [|exact H]. intros y t t' Hy. apply Hbody. right. exact Hy.
Qed.

(** ** Tables *)

Lemma get_set_same {A : Type} (m : Move) (v : A) (t : Table A) :
  get m (set m v t) = v.
Proof. destruct m; reflexivity. Qed.

Lemma get_set_other {A : Type} (m m' : Move) (v : A) (t : Table A) :
  m <> m' -> get m' (set m v t) = get m' t.
Proof. destruct m, m'; intros H; try reflexivity; contradiction. Qed.

Lemma get_table_of {A : Type} (m : Move) (v : A) : get m (table_of v) = v.
Proof. destruct m; reflexivity. Qed.

(** ** Subtracting the unsafe-move penalty never raises *)

Lemma float_of_Z_10000 : float_of_Z 10000 = Ok 10000%float.
Proof. vm_compute. reflexivity. Qed.

Lemma sub_10000_total (v : num) : exists v', Py.sub v (Int 10000) = Ok v'.
Proof.
  destruct v as [z|f].
  - eexists. reflexivity.
  - unfold Py.sub, arith. cbn [to_float Py.bind].
    rewrite float_of_Z_10000. cbn. eexists. reflexivity.
Qed.

Lemma sub_10000_from_zero : Py.sub (Int 0) (Int 10000) = Ok (Int (-10000)).
Proof. reflexivity. Qed.

(** ** The safety filter *)

Lemma for_each_ext {A S : Type} (f g : A -> S -> result S) (l : list A) :
  (forall x s, f x s = g x s) -> forall s, for_each f l s = for_each g l s.
Proof.
  intros H. induction l as [|x l IH]; intros s; cbn; [reflexivity|].
  rewrite H. destruct (g x s); cbn; [apply IH | reflexivity].
Qed.

Lemma mark_pass (b : Move -> bool) (sc : Table num) :
  exists mask sc',
    for_each (fun m st => if b m then mark_unsafe m st else Ok st)
             possible_moves (table_of true, sc) = Ok (mask, sc')
    /\ forall m,
        get m mask = negb (b m)
        /\ (if b m then Py.sub (get m sc) (Int 10000) = Ok (get m sc')
            else get m sc' = get m sc).
Proof.
  destruct sc as [a0 a1 a2 a3].
  destruct (sub_10000_total a0) as [v0 H0].
  destruct (sub_10000_total a1) as [v1 H1].
  destruct (sub_10000_total a2) as [v2 H2].
  destruct (sub_10000_total a3) as [v3 H3].
  unfold possible_moves, mark_unsafe, table_of. cbn [for_each get set t_up t_down t_left t_right].
  destruct (b Up) eqn:Bu, (b Down) eqn:Bd, (b Left) eqn:Bl, (b Right) eqn:Br;
    cbn [Py.bind get set t_up t_down t_left t_right mbind result_bind];
    rewrite ?H0; cbn [Py.bind get set t_up t_down t_left t_right mbind result_bind];
    rewrite ?H1; cbn [Py.bind get set t_up t_down t_left t_right mbind result_bind];
    rewrite ?H2; cbn [Py.bind get set t_up t_down t_left t_right mbind result_bind];
    rewrite ?H3; cbn [Py.bind get set t_up t_down t_left t_right mbind result_bind];
    (eexists; eexists; split; [reflexivity|]);
    intros m; destruct m; cbn [get t_up t_down t_left t_right];
    rewrite ?Bu, ?Bd, ?Bl, ?Br; cbn [negb]; split; (reflexivity || assumption).
Qed.

Lemma pos_eqb_eq (p q : Pos) :
  (pos_x p =? pos_x q) && (pos_y p =? pos_y q) = true <-> p = q.
Proof.
  destruct p as [a b], q as [c d]; cbn. rewrite andb_true_iff, !Z.eqb_eq.
  split; [intros [-> ->]; reflexivity | intros H; injection H; auto].
Qed.

Lemma in_bounds_inside (p : Pos) (w h : Z) :
  _is_in_bounds p w h = true <-> inside p w h.
Proof.
  unfold _is_in_bounds, inside.
  rewrite !andb_true_iff, !Z.leb_le, !Z.ltb_lt. tauto.
Qed.

Lemma collision_with_body_In (p : Pos) (body : list Pos) :
  _is_collision_with_body p body = true <-> In p body.
Proof.
  unfold _is_collision_with_body. rewrite existsb_exists. split.
  - intros (q & Hq & E). apply pos_eqb_eq in E. subst q. exact Hq.
  - intros H. exists p. split; [exact H | apply pos_eqb_eq; reflexivity].
Qed.

Lemma collision_with_opponents_In (p : Pos) (opponents : list Snake) :
  _is_collision_with_opponents p opponents true = true <->
  exists opponent, In opponent opponents /\ In p (removelast (snake_body opponent)).
Proof.
  unfold _is_collision_with_opponents, but_last. rewrite existsb_exists.
  split; intros (o & Ho & H); exists o; (split; [exact Ho|]);
    apply collision_with_body_In; exact H.
Qed.

Lemma neck_of_nth (body : list Pos) : neck_of body = nth_error body 1.
Proof.
  unfold neck_of, len. destruct body as [|a [|b rest]]; cbn [length nth_error]; try reflexivity.
  replace (1 <? Z.of_nat (Datatypes.S (Datatypes.S (length rest)))) with true; [reflexivity|].
  symmetry. apply Z.ltb_lt. lia.
Qed.

Lemma blocked_iff (my_head : Pos) (my_body : list Pos) (opponents : list Snake)
      (w h : Z) (m : Move) :
  blocked my_head my_body opponents w h m = true <->
  immediately_unsafe my_head my_body opponents w h m.
Proof.
  unfold blocked, immediately_unsafe. cbv zeta.
  rewrite !orb_true_iff, negb_true_iff, neck_of_nth.
  rewrite collision_with_body_In, collision_with_opponents_In.
  unfold but_last.
  assert (Hb : _is_in_bounds (_get_next_position my_head m) w h = false <->
               ~ inside (_get_next_position my_head m) w h).
  { rewrite <- in_bounds_inside. destruct (_is_in_bounds _ _ _); split; intros; congruence. }
  rewrite Hb.
  assert (Hn : match nth_error my_body 1 with
               | Some neck =>
                   (pos_x (_get_next_position my_head m) =? pos_x neck)
                   && (pos_y (_get_next_position my_head m) =? pos_y neck)
               | None => false
               end = true <-> nth_error my_body 1 = Some (_get_next_position my_head m)).
  { destruct (nth_error my_body 1) as [neck|].
    - rewrite pos_eqb_eq. split; [intros ->; reflexivity | intros E; injection E; auto].
    - split; discriminate. }
  rewrite Hn. tauto.
Qed.

Lemma basic_safety_step_blocked (my_head : Pos) (my_body : list Pos) (opponents : list Snake)
      (w h : Z) (m : Move) (st : Table bool * Table num) :
  basic_safety_step my_head my_body opponents w h m st =
  if blocked my_head my_body opponents w h m then mark_unsafe m st else Ok st.
Proof.
  unfold basic_safety_step, blocked. cbv zeta.
  destruct (match neck_of my_body with Some _ => _ | None => _ end); [reflexivity|].
  destruct (_is_in_bounds _ _ _); cbn; [|reflexivity].
  destruct (_is_collision_with_body _ _); cbn; [reflexivity|].
  destruct (_is_collision_with_opponents _ _ _); reflexivity.
Qed.

Lemma basic_safety_run (my_head : Pos) (my_body : list Pos) (opponents : list Snake)
      (w h : Z) (move_scores : Table num) :
  exists safe_mask scores',
    _evaluate_basic_safety my_head my_body opponents w h move_scores = Ok (safe_mask, scores')
    /\ forall m,
        get m safe_mask = negb (blocked my_head my_body opponents w h m)
        /\ (if blocked my_head my_body opponents w h m
            then Py.sub (get m move_scores) (Int 10000) = Ok (get m scores')
            else get m scores' = get m move_scores).
Proof.
  destruct (mark_pass (blocked my_head my_body opponents w h) move_scores)
    as (mask & sc' & Hrun & Hm).
  exists mask, sc'. split; [|exact Hm].
  unfold _evaluate_basic_safety. rewrite <- Hrun.
  apply for_each_ext. intros m st. apply basic_safety_step_blocked.
Qed.

(** C3: the safety filter marks a move unsafe (mask false, score minus
    10000) exactly when its resulting head coordinate equals the neck, lies
    outside the board, equals a segment of Self other than the tail, or
    equals a segment of an opponent other than that opponent's tail;
    otherwise the mask stays true and the score is unchanged. *)
Theorem basic_safety_filter (my_head : Pos) (my_body : list Pos) (opponents : list Snake)
        (board_width board_height : Z) (move_scores : Table num) :
  exists safe_mask scores',
    _evaluate_basic_safety my_head my_body opponents board_width board_height move_scores
    = Ok (safe_mask, scores')
    /\ forall m,
        (immediately_unsafe my_head my_body opponents board_width board_height m
         <-> get m safe_mask = false)
        /\ (immediately_unsafe my_head my_body opponents board_width board_height m ->
            Py.sub (get m move_scores) (Int 10000) = Ok (get m scores'))
        /\ (~ immediately_unsafe my_head my_body opponents board_width board_height m ->
            get m safe_mask = true /\ get m scores' = get m move_scores).
Proof.
  destruct (basic_safety_run my_head my_body opponents board_width board_height move_scores)
    as (mask & sc' & Hrun & Hm).
  exists mask, sc'. split; [exact Hrun|].
  intros m. destruct (Hm m) as [Hmask Hscore].
  pose proof (blocked_iff my_head my_body opponents board_width board_height m) as Hb.
  destruct (blocked my_head my_body opponents board_width board_height m); cbn in Hmask.
  - assert (Hu : immediately_unsafe my_head my_body opponents board_width board_height m)
      by (apply Hb; reflexivity).
    split; [tauto|]. split; [intros _; exact Hscore | intros Hn; contradiction].
  - assert (Hu : ~ immediately_unsafe my_head my_body opponents board_width board_height m).
    { intros Hu. apply Hb in Hu. discriminate. }
    split; [split; [intros; contradiction | intros E; congruence]|].
    split; [intros; contradiction | intros _; split; assumption].
Qed.

Lemma on_safe_moves_spec (safe_mask : Table bool) (update : Move -> num -> result num)
      (scores scores' : Table num) :
  on_safe_moves safe_mask update scores = Ok scores' ->
  forall m,
    if get m safe_mask then update m (get m scores) = Ok (get m scores')
    else get m scores' = get m scores.
Proof.
  unfold on_safe_moves. intros H.
  apply for_each_moves in H as (s1 & s2 & s3 & E1 & E2 & E3 & E4).
  destruct scores as [a0 a1 a2 a3], safe_mask as [b0 b1 b2 b3].
  cbn [get set t_up t_down t_left t_right] in *.
  destruct b0, b1, b2, b3; cbn [negb] in *;
    repeat match goal with
      | H : Ok _ = Ok _ |- _ => injection H as <-
      | H : _ ≫= _ = Ok _ |- _ =>
          let v := fresh "v" in let Hv := fresh "Hv" in
          apply bind_Ok in H as (v & Hv & H)
      end;
    cbn [get set t_up t_down t_left t_right] in *;
    intros m; destruct m; cbn [get set t_up t_down t_left t_right];
    first [assumption | reflexivity].
Qed.

Lemma on_safe_moves_frame (safe_mask : Table bool) (update : Move -> num -> result num)
      (scores scores' : Table num) (m : Move) :
  on_safe_moves safe_mask update scores = Ok scores' ->
  get m safe_mask = false -> get m scores' = get m scores.
Proof.
  intros H Hm. pose proof (on_safe_moves_spec _ _ _ _ H m) as Hs.
  rewrite Hm in Hs. exact Hs.
Qed.

(** ** The output monad *)

Lemma io_bind_Ok {Ev A B : Type} (m : io Ev A) (k : A -> io Ev B) (out : list Ev) (b : B) :
  fst ((m ≫= k) out) = Ok b <->
  exists a out', m out = (Ok a, out') /\ fst (k a out') = Ok b.
Proof.
  unfold mbind, io_mbind, io_bind. destruct (m out) as [[a|e] out'] eqn:E; split.
  - intros H. exists a, out'. split; [reflexivity | exact H].
  - intros (a' & o & Ha & Hk). injection Ha as <- <-. exact Hk.
  - cbn. discriminate.
  - intros (a' & o & Ha & _). discriminate.
Qed.

Lemma io_lift_Ok {Ev A : Type} (r : result A) (out out' : list Ev) (a : A) :
  lift r out = (Ok a, out') <-> r = Ok a /\ out' = out.
Proof.
  unfold lift. split.
  - intros H. injection H as -> ->. auto.
  - intros [-> ->]. reflexivity.
Qed.

(** Inverts one [x ← lift r; k] step of a successful run. *)
Ltac inv_io H :=
  let a := fresh "a" in
  let o := fresh "o" in
  let Ha := fresh "Ha" in
  apply io_bind_Ok in H as (a & o & Ha & H);
  first [ apply io_lift_Ok in Ha as [Ha ->] | idtac ].

(** ** Frame: no layer after the safety filter touches an unsafe move *)

Lemma frame_refl (safe_mask : Table bool) (scores : Table num) :
  frame safe_mask scores scores.
Proof. intros m _. reflexivity. Qed.

Lemma frame_trans (safe_mask : Table bool) (s1 s2 s3 : Table num) :
  frame safe_mask s1 s2 -> frame safe_mask s2 s3 -> frame safe_mask s1 s3.
Proof. intros H12 H23 m Hm. rewrite (H23 m Hm). apply H12. exact Hm. Qed.

Lemma on_safe_moves_framed (safe_mask : Table bool) (update : Move -> num -> result num)
      (scores scores' : Table num) :
  on_safe_moves safe_mask update scores = Ok scores' -> frame safe_mask scores scores'.
Proof. intros H m Hm. eapply on_safe_moves_frame; eauto. Qed.

Lemma space_frame my_head my_length scores safe_mask game_state scores' :
  _evaluate_space_availability my_head my_length scores safe_mask game_state = Ok scores' ->
  frame safe_mask scores scores'.
Proof. apply on_safe_moves_framed. Qed.

Lemma hunting_frame my_head hunt_option scores safe_mask scores' :
  _apply_hunting_strategy my_head hunt_option scores safe_mask = Ok scores' ->
  frame safe_mask scores scores'.
Proof. apply on_safe_moves_framed. Qed.

Lemma food_seeking_frame my_head target scores safe_mask weight scores' :
  _apply_food_seeking my_head target scores safe_mask weight = Ok scores' ->
  frame safe_mask scores scores'.
Proof. apply on_safe_moves_framed. Qed.

Lemma food_smart_frame my_head food scores safe_mask is_critical need_food game_state scores' :
  _evaluate_food_seeking_smart my_head food scores safe_mask is_critical need_food game_state
  = Ok scores' ->
  frame safe_mask scores scores'.
Proof.
  unfold _evaluate_food_seeking_smart. intros H.
  inv_bind H. inv_bind H. eapply on_safe_moves_framed. exact H.
Qed.

Lemma aggressive_frame my_head my_length opponents scores safe_mask scores' :
  _evaluate_aggressive_strategy my_head my_length opponents scores safe_mask = Ok scores' ->
  frame safe_mask scores scores'.
Proof.
  unfold _evaluate_aggressive_strategy.
  apply for_each_preserves.
  - apply frame_refl.
  - apply frame_trans.
  - intros o s s' _ H. inv_bind H.
    destruct (_ <? _).
    + eapply on_safe_moves_framed. exact H.
    + destruct (_ <=? _).
      * eapply on_safe_moves_framed. exact H.
      * injection H as <-. apply frame_refl.
Qed.

Lemma head_to_head_frame my_head my_length opponents w h scores safe_mask scores' :
  _evaluate_head_to_head_defense_enhanced my_head my_length opponents w h scores safe_mask
  = Ok scores' ->
  frame safe_mask scores scores'.
Proof.
  unfold _evaluate_head_to_head_defense_enhanced.
  apply for_each_preserves.
  - apply frame_refl.
  - apply frame_trans.
  - intros o s s' _ H. inv_bind H.
    destruct (_ <=? _).
    + inv_bind H. eapply on_safe_moves_framed. exact H.
    + injection H as <-. apply frame_refl.
Qed.

Lemma position_frame my_head w h scores safe_mask scores' :
  _evaluate_position_preference my_head w h scores safe_mask = Ok scores' ->
  frame safe_mask scores scores'.
Proof.
  unfold _evaluate_position_preference. intros H.
  inv_bind H. inv_bind H. eapply on_safe_moves_framed. exact H.
Qed.

Lemma emergency_frame my_head my_length my_health food opponents scores safe_mask
      game_state out scores' :
  fst (_evaluate_emergency_strategy_enhanced my_head my_length my_health food opponents
         scores safe_mask game_state out) = Ok scores' ->
  frame safe_mask scores scores'.
Proof.
  unfold _evaluate_emergency_strategy_enhanced. intros H.
  inv_io H. inv_io H.
  destruct a0 as [best_hunt|], a as [best_food|].
  - inv_io H. destruct (_ && _).
    + inv_io H. cbn in H. injection H as <-. eapply hunting_frame. exact Ha2.
    + inv_io H. cbn in H. injection H as <-. eapply food_seeking_frame. exact Ha2.
  - inv_io H. cbn in H. injection H as <-. eapply hunting_frame. exact Ha1.
  - inv_io H. cbn in H. injection H as <-. eapply food_seeking_frame. exact Ha1.
  - cbn in H. injection H as <-. apply frame_refl.
Qed.

(** ** The layers of one turn *)

Ltac case_if_in H :=
  match type of H with
  | context [if ?c then _ else _] => destruct c
  end.

Lemma evaluate_layers_inv (game_state : GameState) (out : list Line) (scored : Scored) :
  fst (evaluate_layers game_state out) = Ok scored ->
  exists my_head scores1,
    Py.first (snake_body (you game_state)) = Ok my_head
    /\ _evaluate_basic_safety my_head (snake_body (you game_state))
         (opponents_of game_state) (width (board game_state)) (height (board game_state))
         (table_of (Int 0))
       = Ok (safe_moves_mask scored, scores1)
    /\ frame (safe_moves_mask scored) scores1 (final_scores scored).
Proof.
  unfold evaluate_layers. intros H.
  inv_io H. rename a into my_head.
  inv_io H. destruct a as [mask scores1].
  inv_io H. rename a into scores2.
  inv_io H. rename a into threshold.
  apply io_bind_Ok in H as (scores3 & o3 & H3 & H).
  apply io_bind_Ok in H as (scores4 & o4 & H4 & H).
  apply io_bind_Ok in H as (scores5 & o5 & H5 & H).
  inv_io H. rename a into scores6.
  cbn in H. injection H as <-. cbn [safe_moves_mask final_scores].
  exists my_head, scores1. split; [exact Ha|]. split; [exact Ha0|].
  assert (F2 : frame mask scores1 scores2) by (eapply space_frame; exact Ha1).
  assert (F3 : frame mask scores2 scores3).
  { case_if_in H3.
    - eapply emergency_frame. rewrite H3. reflexivity.
    - case_if_in H3.
      + apply io_lift_Ok in H3 as [H3 _]. eapply food_smart_frame. exact H3.
      + cbn in H3. injection H3 as <- _. apply frame_refl. }
  assert (F4 : frame mask scores3 scores4).
  { case_if_in H4.
    - apply io_lift_Ok in H4 as [H4 _]. eapply aggressive_frame. exact H4.
    - cbn in H4. injection H4 as <- _. apply frame_refl. }
  assert (F5 : frame mask scores4 scores5).
  { case_if_in H5.
    - apply io_lift_Ok in H5 as [H5 _]. eapply head_to_head_frame. exact H5.
    - cbn in H5. injection H5 as <- _. apply frame_refl. }
  assert (F6 : frame mask scores5 scores6) by (eapply position_frame; exact Ha3).
  eauto using frame_trans.
Qed.

Lemma move_result (game_state : GameState) (out : list Line) (scored : Scored) :
  fst (evaluate_layers game_state out) = Ok scored ->
  fst (move game_state out) = choose_move (safe_moves_mask scored) (final_scores scored).
Proof.
  unfold move, mbind, io_mbind, io_bind. intros H.
  destruct (evaluate_layers game_state out) as [[s|e] o]; cbn in H; [|discriminate].
  injection H as ->. unfold lift.
  destruct (choose_move _ _); reflexivity.
Qed.

Lemma unsafe_score_after_filter my_head my_body opponents w h safe_mask scores1 m :
  _evaluate_basic_safety my_head my_body opponents w h (table_of (Int 0))
  = Ok (safe_mask, scores1) ->
  get m safe_mask = false -> get m scores1 = Int (-10000).
Proof.
  intros H Hm.
  destruct (basic_safety_run my_head my_body opponents w h (table_of (Int 0)))
    as (mask' & sc' & Hrun & Hspec).
  rewrite H in Hrun. injection Hrun as <- <-.
  destruct (Hspec m) as (Hmask & Hscore).
  rewrite Hm in Hmask. destruct (blocked my_head my_body opponents w h m); [|discriminate].
  rewrite get_table_of, sub_10000_from_zero in Hscore. congruence.
Qed.

Lemma neck_move_masked my_head neck rest opponents w h scores safe_mask scores1 m :
  _evaluate_basic_safety my_head (my_head :: neck :: rest) opponents w h scores
  = Ok (safe_mask, scores1) ->
  _get_next_position my_head m = neck -> get m safe_mask = false.
Proof.
  intros H Hneck.
  destruct (basic_safety_run my_head (my_head :: neck :: rest) opponents w h scores)
    as (mask' & sc' & Hrun & Hspec).
  rewrite H in Hrun. injection Hrun as <- <-.
  destruct (Hspec m) as (Hmask & _). rewrite Hmask.
  assert (Hb : blocked my_head (my_head :: neck :: rest) opponents w h m = true).
  { apply blocked_iff. left. cbn. rewrite Hneck. reflexivity. }
  rewrite Hb. reflexivity.
Qed.

(** C10: no layer after the safety filter (space evaluation, emergency
    strategy, food seeking, aggressive strategy, head-to-head defence,
    position preference) changes the score of a move whose mask is false,
    and such a move ends the turn with the score -10000 exactly. *)
Theorem unsafe_moves_keep_their_penalty
        (game_state : GameState) (out : list Line) (scored : Scored) (m : Move) :
  fst (evaluate_layers game_state out) = Ok scored ->
  get m (safe_moves_mask scored) = false ->
  let safe_mask := safe_moves_mask scored in
  (forall my_head my_length scores g scores',
      _evaluate_space_availability my_head my_length scores safe_mask g = Ok scores' ->
      get m scores' = get m scores)
  /\ (forall my_head my_length my_health food opponents scores g out' scores',
         fst (_evaluate_emergency_strategy_enhanced my_head my_length my_health food
                opponents scores safe_mask g out') = Ok scores' ->
         get m scores' = get m scores)
  /\ (forall my_head food scores critical need_food g scores',
         _evaluate_food_seeking_smart my_head food scores safe_mask critical need_food g
         = Ok scores' ->
         get m scores' = get m scores)
  /\ (forall my_head my_length opponents scores scores',
         _evaluate_aggressive_strategy my_head my_length opponents scores safe_mask
         = Ok scores' ->
         get m scores' = get m scores)
  /\ (forall my_head my_length opponents w h scores scores',
         _evaluate_head_to_head_defense_enhanced my_head my_length opponents w h
           scores safe_mask = Ok scores' ->
         get m scores' = get m scores)
  /\ (forall my_head w h scores scores',
         _evaluate_position_preference my_head w h scores safe_mask = Ok scores' ->
         get m scores' = get m scores)
  /\ get m (final_scores scored) = Int (-10000).
Proof.
  intros Hrun Hm safe_mask.
  repeat split.
  - intros. eapply space_frame; eauto.
  - intros. eapply emergency_frame; eauto.
  - intros. eapply food_smart_frame; eauto.
  - intros. eapply aggressive_frame; eauto.
  - intros. eapply head_to_head_frame; eauto.
  - intros. eapply position_frame; eauto.
  - apply evaluate_layers_inv in Hrun as (my_head & scores1 & _ & Hsafe & Hframe).
    rewrite (Hframe m Hm). eapply unsafe_score_after_filter; eauto.
Qed.

(** ** The choice of the move *)

Lemma max_from_In {A : Type} (k : A -> num) (l : list A) (best : A) :
  In (max_from k best l) (best :: l).
Proof.
  revert best. induction l as [|x l IH]; intros best; cbn [max_from].
  - left. reflexivity.
  - destruct (IH (if Py.gt (k x) (k best) then x else best)) as [E|H].
    + destruct (Py.gt (k x) (k best)); rewrite <- E; [right; left | left]; reflexivity.
    + right. right. exact H.
Qed.

Lemma safe_moves_of_In (safe_mask : Table bool) (scores : Table num) (m : Move) :
  In m (safe_moves_of safe_mask scores) <->
  get m safe_mask = true /\ Py.gt (get m scores) (Int (-9000)) = true.
Proof.
  unfold safe_moves_of. rewrite filter_In, andb_true_iff.
  split; [tauto|]. intros H. split; [|exact H].
  unfold possible_moves. destruct m; cbn; tauto.
Qed.

Lemma choose_move_among_safe (safe_mask : Table bool) (scores : Table num) (m' : Move) :
  In m' (safe_moves_of safe_mask scores) ->
  exists m, choose_move safe_mask scores = Ok m /\ In m (safe_moves_of safe_mask scores).
Proof.
  unfold choose_move. intros H.
  destruct (safe_moves_of safe_mask scores) as [|x l] eqn:E; [destruct H|].
  exists (max_from (fun m => get m scores) x l). split; [reflexivity|].
  apply max_from_In.
Qed.

(** ** The order of Python numbers *)

Lemma key_ltb_trans (a b c : key) :
  key_ltb a b = true -> key_ltb b c = true -> key_ltb a c = true.
Proof.
  destruct a, b, c; cbn; try congruence; rewrite ?Z.ltb_lt; lia.
Qed.

Lemma key_leb_ltb_trans (a b c : key) :
  key_leb a b = true -> key_ltb b c = true -> key_ltb a c = true.
Proof.
  unfold key_leb. rewrite negb_true_iff.
  destruct a, b, c; cbn; try congruence; rewrite ?Z.ltb_lt, ?Z.ltb_ge; lia.
Qed.

Lemma key_ltb_leb_trans (a b c : key) :
  key_ltb a b = true -> key_leb b c = true -> key_ltb a c = true.
Proof.
  unfold key_leb. rewrite negb_true_iff.
  destruct a, b, c; cbn; try congruence; rewrite ?Z.ltb_lt, ?Z.ltb_ge; lia.
Qed.

Lemma key_leb_trans (a b c : key) :
  key_leb a b = true -> key_leb b c = true -> key_leb a c = true.
Proof.
  unfold key_leb. rewrite !negb_true_iff.
  destruct a, b, c; cbn; try congruence; rewrite ?Z.ltb_ge; lia.
Qed.

Lemma not_nan_key (v : num) : is_nan v = false -> exists k, num_key v = Some k.
Proof. unfold is_nan. destruct (num_key v) as [k|]; [eauto | discriminate]. Qed.

Lemma lt_keys (a b : num) :
  Py.lt a b = true <->
  exists ka kb, num_key a = Some ka /\ num_key b = Some kb /\ key_ltb ka kb = true.
Proof.
  unfold Py.lt, cmp. destruct (num_key a) as [ka|], (num_key b) as [kb|]; split;
    try discriminate; try (intros (x & y & Hx & Hy & _); discriminate).
  - intros H. eauto.
  - intros (x & y & Hx & Hy & H). congruence.
Qed.

Lemma le_keys (a b : num) :
  Py.le a b = true <->
  exists ka kb, num_key a = Some ka /\ num_key b = Some kb /\ key_leb ka kb = true.
Proof.
  unfold Py.le, cmp. destruct (num_key a) as [ka|], (num_key b) as [kb|]; split;
    try discriminate; try (intros (x & y & Hx & Hy & _); discriminate).
  - intros H. eauto.
  - intros (x & y & Hx & Hy & H). congruence.
Qed.

Lemma lt_trans (a b c : num) : Py.lt a b = true -> Py.lt b c = true -> Py.lt a c = true.
Proof.
  rewrite !lt_keys. intros (ka & kb & Ha & Hb & H1) (kb' & kc & Hb' & Hc & H2).
  exists ka, kc. repeat split; auto. eapply key_ltb_trans; eauto. congruence.
Qed.

Lemma le_lt_trans (a b c : num) : Py.le a b = true -> Py.lt b c = true -> Py.lt a c = true.
Proof.
  rewrite le_keys, !lt_keys. intros (ka & kb & Ha & Hb & H1) (kb' & kc & Hb' & Hc & H2).
  exists ka, kc. repeat split; auto. eapply key_leb_ltb_trans; eauto. congruence.
Qed.

Lemma lt_le_trans (a b c : num) : Py.lt a b = true -> Py.le b c = true -> Py.lt a c = true.
Proof.
  rewrite le_keys, !lt_keys. intros (ka & kb & Ha & Hb & H1) (kb' & kc & Hb' & Hc & H2).
  exists ka, kc. repeat split; auto. eapply key_ltb_leb_trans; eauto. congruence.
Qed.

Lemma not_lt_le (a b : num) :
  is_nan a = false -> is_nan b = false -> Py.lt a b = false -> Py.le b a = true.
Proof.
  intros Ha Hb. apply not_nan_key in Ha as [ka Ha]. apply not_nan_key in Hb as [kb Hb].
  unfold Py.lt, Py.le, cmp, key_leb. rewrite Ha, Hb. intros ->. reflexivity.
Qed.

Lemma le_refl (a : num) : is_nan a = false -> Py.le a a = true.
Proof.
  intros Ha. apply not_nan_key in Ha as [ka Ha].
  unfold Py.le, cmp, key_leb. rewrite Ha.
  destruct ka; cbn; try reflexivity. rewrite Z.ltb_irrefl. reflexivity.
Qed.

(** [max] returns the first maximal item. *)
Lemma max_from_first {A : Type} (k : A -> num) :
  (forall x, is_nan (k x) = false) ->
  forall (l before mid : list A) (best : A),
    (forall x, In x before -> Py.lt (k x) (k best) = true) ->
    (forall x, In x mid -> Py.le (k x) (k best) = true) ->
    exists before' after',
      before ++ best :: mid ++ l = before' ++ max_from k best l :: after'
      /\ (forall x, In x before' -> Py.lt (k x) (k (max_from k best l)) = true)
      /\ (forall x, In x after' -> Py.le (k x) (k (max_from k best l)) = true).
Proof.
  intros Hnan. induction l as [|x l IH]; intros before mid best Hb Hm; cbn [max_from].
  - exists before, mid. rewrite app_nil_r. auto.
  - destruct (Py.gt (k x) (k best)) eqn:E.
    + unfold Py.gt in E.
      destruct (IH (before ++ best :: mid) [] x) as (b' & a' & Heq & Hlt & Hle).
      * intros y Hy. apply in_app_or in Hy as [Hy|[<-|Hy]].
        -- eapply lt_trans; [apply Hb; exact Hy | exact E].
        -- exact E.
        -- eapply le_lt_trans; [apply Hm; exact Hy | exact E].
      * intros y [].
      * exists b', a'. split; [|auto].
        rewrite <- Heq. cbn. rewrite <- !app_assoc. reflexivity.
    + unfold Py.gt in E.
      destruct (IH before (mid ++ [x]) best) as (b' & a' & Heq & Hlt & Hle).
      * exact Hb.
      * intros y Hy. apply in_app_or in Hy as [Hy|[<-|[]]].
        -- apply Hm. exact Hy.
        -- apply not_lt_le; auto.
      * exists b', a'. split; [|auto].
        rewrite <- Heq. rewrite <- !app_assoc. reflexivity.
Qed.

Lemma max_by_first_argmax (score : Move -> num) (pool : list Move) :
  (forall x, is_nan (score x) = false) ->
  pool <> [] ->
  exists m, Py.max_by score pool = Ok m /\ first_argmax score pool m.
Proof.
  intros Hnan Hpool. destruct pool as [|x l]; [contradiction|].
  exists (max_from score x l). split; [reflexivity|].
  destruct (max_from_first score Hnan l [] [] x) as (b & a & Heq & Hlt & Hle).
  - intros y [].
  - intros y [].
  - exists b, a. cbn in Heq. auto.
Qed.

Lemma filter_sublist {A : Type} (f : A -> bool) (l : list A) :
  sublist (List.filter f l) l.
Proof.
  induction l as [|x l IH]; cbn.
  - constructor.
  - destruct (f x); [apply sublist_skip | apply sublist_cons]; exact IH.
Qed.

(** C2: the decision aggregator. The candidates are the moves with mask
    true and accumulated score above -9000, in the enumeration order up,
    down, left, right; [move] returns the first arg-max of the score table
    over all four moves when there is no candidate, and the first arg-max
    over the candidates otherwise. *)
Theorem decision_aggregator (game_state : GameState) (out : list Line) (scored : Scored) :
  fst (evaluate_layers game_state out) = Ok scored ->
  (forall m, is_nan (get m (final_scores scored)) = false) ->
  let score := fun m => get m (final_scores scored) in
  let candidates := safe_moves_of (safe_moves_mask scored) (final_scores scored) in
  (forall m, In m candidates <->
             get m (safe_moves_mask scored) = true /\ Py.gt (score m) (Int (-9000)) = true)
  /\ sublist candidates [Up; Down; Left; Right]
  /\ exists m,
      fst (move game_state out) = Ok m
      /\ (candidates = [] -> first_argmax score [Up; Down; Left; Right] m)
      /\ (candidates <> [] -> first_argmax score candidates m).
Proof.
  intros Hrun Hnan score candidates.
  split; [intros m; apply safe_moves_of_In|].
  split; [apply filter_sublist|].
  rewrite (move_result _ _ _ Hrun). unfold choose_move. fold candidates.
  destruct candidates as [|c cs] eqn:E.
  - destruct (max_by_first_argmax score possible_moves Hnan) as (m & Hm & Harg);
      [discriminate|].
    exists m. split; [exact Hm|]. split; [intros _; exact Harg | intros H; contradiction].
  - destruct (max_by_first_argmax score (c :: cs) Hnan) as (m & Hm & Harg);
      [discriminate|].
    exists m. split; [exact Hm|]. split; [discriminate | intros _; exact Harg].
Qed.

(** ** Determinism: the result does not depend on the output so far *)

Lemma appends_lift {A : Type} (r : result A) : appends (lift r).
Proof. exists r, []. intros out. unfold lift. rewrite app_nil_r. reflexivity. Qed.

Lemma appends_ret {A : Type} (a : A) : appends (io_ret a : io Line A).
Proof. exists (Ok a), []. intros out. unfold io_ret. rewrite app_nil_r. reflexivity. Qed.

Lemma appends_print (line : Line) : appends (print line).
Proof. exists (Ok tt), [line]. intros out. reflexivity. Qed.

Lemma appends_bind {A B : Type} (m : io Line A) (k : A -> io Line B) :
  appends m -> (forall a, appends (k a)) -> appends (m ≫= k).
Proof.
  intros (r & l1 & Hm) Hk. unfold mbind, io_mbind, io_bind.
  destruct r as [a|e].
  - destruct (Hk a) as (r2 & l2 & Hk2). exists r2, (l1 ++ l2).
    intros out. rewrite Hm, Hk2, app_assoc. reflexivity.
  - exists (Raise e), l1. intros out. rewrite Hm. reflexivity.
Qed.

Ltac appends_steps :=
  repeat first
    [ apply appends_lift
    | apply appends_ret
    | apply appends_print
    | apply appends_bind; [|intros ?]
    | match goal with
      | |- appends (if ?c then _ else _) => destruct c
      | |- appends (match ?x with Some _ => _ | None => _ end) => destruct x
      | |- appends (let '(_, _) := ?p in _) => destruct p
      | |- appends (match ?p with (_, _) => _ end) => destruct p
      end ].

Lemma emergency_appends my_head my_length my_health food opponents scores safe_mask g :
  appends (_evaluate_emergency_strategy_enhanced my_head my_length my_health food
             opponents scores safe_mask g).
Proof. unfold _evaluate_emergency_strategy_enhanced. appends_steps. Qed.

Lemma evaluate_layers_appends (game_state : GameState) : appends (evaluate_layers game_state).
Proof.
  unfold evaluate_layers. appends_steps; apply emergency_appends.
Qed.

Lemma move_appends (game_state : GameState) : appends (move game_state).
Proof.
  unfold move. apply appends_bind; [apply evaluate_layers_appends|]. intros scored.
  appends_steps.
Qed.

(** ** The dynamic threshold *)

Lemma foldl_max_spec (l : list Z) (a : Z) :
  (a <= foldl Z.max a l)
  /\ (forall x, In x l -> x <= foldl Z.max a l)
  /\ (foldl Z.max a l = a \/ In (foldl Z.max a l) l).
Proof.
  revert a. induction l as [|x l IH]; intros a; cbn.
  - split; [lia|]. split; [intros x []|]. left. reflexivity.
  - destruct (IH (Z.max a x)) as (H1 & H2 & H3). split; [lia|]. split.
    + intros y [<-|Hy]; [lia | apply H2; exact Hy].
    + destruct H3 as [H3|H3]; [|right; right; exact H3].
      rewrite H3. destruct (Z.max_spec a x) as [[_ ->]|[_ ->]]; [right; left|left]; reflexivity.
Qed.

Lemma max_length_spec (opponents : list Snake) :
  opponents <> [] -> exists longest, max_length opponents = Ok longest /\ longest_of opponents longest.
Proof.
  destruct opponents as [|s others]; [contradiction|]. intros _.
  eexists. split; [reflexivity|].
  destruct (foldl_max_spec (map (fun s => len (snake_body s)) others) (len (snake_body s)))
    as (H1 & H2 & H3).
  split.
  - intros o [<-|Ho]; [exact H1|]. apply H2. apply in_map_iff. exists o. auto.
  - destruct H3 as [H3|H3].
    + exists s. split; [left; reflexivity|]. symmetry. exact H3.
    + apply in_map_iff in H3 as (o & Ho & Hin). exists o. split; [right; exact Hin | exact Ho].
Qed.

Lemma threshold_unfold (game_state : GameState) (avg : num) (longest : Z) :
  opponents_of game_state <> [] ->
  average_length (opponents_of game_state) = Ok avg ->
  max_length (opponents_of game_state) = Ok longest ->
  _calculate_dynamic_aggressive_threshold game_state
  = Ok (first_match (threshold_rules (len (snake_body (you game_state))) avg longest
                                     (len (opponents_of game_state))) 8).
Proof.
  intros Hne Havg Hmax. unfold _calculate_dynamic_aggressive_threshold.
  rewrite bool_decide_eq_false_2 by exact Hne.
  rewrite Havg, Hmax. cbn [mbind result_bind Py.bind].
  unfold threshold_rules. cbn [first_match].
  repeat match goal with |- context [if ?c then _ else _] => destruct c end; reflexivity.
Qed.

Lemma foldl_add_from (l : list Z) (a : Z) : foldl Z.add a l = a + foldl Z.add 0 l.
Proof.
  revert a. induction l as [|x l IH]; intros a; cbn [foldl]; [lia|].
  rewrite (IH (a + x)), (IH (0 + x)). lia.
Qed.

Lemma sum_lengths_cons (o : Snake) (others : list Snake) :
  sum_lengths (o :: others) = len (snake_body o) + sum_lengths others.
Proof.
  unfold sum_lengths. cbn [map foldl]. rewrite foldl_add_from. lia.
Qed.

Lemma total_of_sum_lengths (opponents : list Snake) (total : Z) :
  total_of opponents total <-> sum_lengths opponents = total.
Proof.
  split.
  - induction 1 as [|o others total _ IH]; [reflexivity|].
    rewrite sum_lengths_cons, IH. reflexivity.
  - intros <-. induction opponents as [|o others IH]; [constructor|].
    rewrite sum_lengths_cons. constructor. exact IH.
Qed.

Lemma longest_of_unique (opponents : list Snake) (a b : Z) :
  longest_of opponents a -> longest_of opponents b -> a = b.
Proof.
  intros [Ha (oa & Hoa & Ea)] [Hb (ob & Hob & Eb)].
  specialize (Ha ob Hob). specialize (Hb oa Hoa). lia.
Qed.

(** C7: the dynamic aggression threshold is 6 without opponents; otherwise,
    with [total] the number of body segments of all opponents together,
    [longest] the greatest opponent length and the average the quotient
    [total / count] as Python computes it, it is given by the rules
    average > length + 3 -> 10, longest > length + 4 -> 11, average <
    length - 2 -> 6, count >= 4 -> 9, count <= 2 -> 7, else 8, the first
    rule that holds deciding. *)
Theorem dynamic_threshold_table (game_state : GameState) :
  let my_length := len (snake_body (you game_state)) in
  let opponents := opponents_of game_state in
  (opponents = [] -> _calculate_dynamic_aggressive_threshold game_state = Ok 6)
  /\ (opponents <> [] ->
      (exists total longest, total_of opponents total /\ longest_of opponents longest)
      /\ forall total longest avg,
          total_of opponents total ->
          longest_of opponents longest ->
          Py.truediv (Int total) (Int (len opponents)) = Ok avg ->
          _calculate_dynamic_aggressive_threshold game_state
          = Ok (first_match
                  [ (Py.gt avg (Int (my_length + 3)), 10);
                    (my_length + 4 <? longest, 11);
                    (Py.lt avg (Int (my_length - 2)), 6);
                    (4 <=? len opponents, 9);
                    (len opponents <=? 2, 7) ]
                  8)).
Proof.
  intros my_length opponents. split.
  - intros H. unfold _calculate_dynamic_aggressive_threshold. fold opponents.
    rewrite H. reflexivity.
  - intros Hne. destruct (max_length_spec opponents Hne) as (longest' & Hmax & Hlongest').
    split.
    + exists (sum_lengths opponents), longest'. split; [|exact Hlongest'].
      apply total_of_sum_lengths. reflexivity.
    + intros total longest avg Htotal Hlongest Havg.
      apply total_of_sum_lengths in Htotal.
      rewrite (longest_of_unique _ _ _ Hlongest Hlongest').
      apply (threshold_unfold game_state avg longest' Hne); [|exact Hmax].
      unfold average_length. fold opponents. rewrite Htotal. exact Havg.
Qed.


Lemma first_match_threshold_range (my_length : Z) (avg : num) (longest count : Z) :
  6 <= first_match (threshold_rules my_length avg longest count) 8 <= 11.
Proof.
  unfold threshold_rules. cbn [first_match].
  repeat match goal with |- context [if ?c then _ else _] => destruct c end; lia.
Qed.




(** ** The emergency strategy *)

Lemma hunting_projected my_head hunt_option scores safe_mask scores' :
  _apply_hunting_strategy my_head hunt_option scores safe_mask = Ok scores' ->
  projected my_head safe_mask (hunt_score hunt_option) (hunt_target hunt_option)
            scores scores'.
Proof.
  unfold _apply_hunting_strategy. intros H m.
  pose proof (on_safe_moves_spec _ _ _ _ H m) as Hm. cbv beta zeta in Hm.
  destruct (get m safe_mask); [|exact Hm].
  apply bind_Ok in Hm as (q & Hq & Hadd). exists q. auto.
Qed.

Lemma food_seeking_projected my_head target scores safe_mask weight scores' :
  _apply_food_seeking my_head target scores safe_mask weight = Ok scores' ->
  projected my_head safe_mask (Int weight) target scores scores'.
Proof.
  unfold _apply_food_seeking. intros H m.
  pose proof (on_safe_moves_spec _ _ _ _ H m) as Hm. cbv beta zeta in Hm.
  destruct (get m safe_mask); [|exact Hm].
  apply bind_Ok in Hm as (q & Hq & Hadd). exists q. auto.
Qed.

(** C9, as amended: in the emergency strategy, with both options hunt is
    chosen exactly when its score exceeds twice the food score, its chase
    path is safe and its third-party risk is below 100, food otherwise; a
    single option is chosen; a chosen hunt adds hunt_score / (distance + 1)
    to every mask-safe move, a chosen food adds 500 / (distance + 1), and
    the other moves are untouched. *)
Theorem emergency_arbitration
        (my_head : Pos) (my_length my_health : Z) (food : list Pos) (opponents : list Snake)
        (scores : Table num) (safe_mask : Table bool) (game_state : GameState)
        (out : list Line) (best_food : option FoodOption) (best_hunt : option HuntOption)
        (scores' : Table num) :
  emergency_food_option my_head my_health food = Ok best_food ->
  for_each (hunt_step my_head my_length my_health opponents game_state) opponents None
  = Ok best_hunt ->
  fst (_evaluate_emergency_strategy_enhanced my_head my_length my_health food opponents
         scores safe_mask game_state out) = Ok scores' ->
  match best_hunt, best_food with
  | Some h, Some f =>
      if hunt_wins h f
      then projected my_head safe_mask (hunt_score h) (hunt_target h) scores scores'
      else projected my_head safe_mask (Int 500) (food_target f) scores scores'
  | Some h, None => projected my_head safe_mask (hunt_score h) (hunt_target h) scores scores'
  | None, Some f => projected my_head safe_mask (Int 500) (food_target f) scores scores'
  | None, None => scores' = scores
  end.
Proof.
  intros Hfood Hhunt H. unfold _evaluate_emergency_strategy_enhanced in H.
  inv_io H. inv_io H. rewrite Hfood in Ha. rewrite Hhunt in Ha0.
  injection Ha as <-. injection Ha0 as <-.
  destruct best_hunt as [h|], best_food as [f|].
  - inv_io H. unfold hunt_wins. rewrite Ha.
    destruct (_ && _).
    + inv_io H. cbn in H. injection H as <-. apply hunting_projected. exact Ha0.
    + inv_io H. cbn in H. injection H as <-. apply food_seeking_projected. exact Ha0.
  - inv_io H. cbn in H. injection H as <-. apply hunting_projected. exact Ha.
  - inv_io H. cbn in H. injection H as <-. apply food_seeking_projected. exact Ha.
  - cbn in H. injection H as <-. reflexivity.
Qed.

(** ** Flood fill *)

Lemma flood_loop_counts (remaining : nat) (safe_space w h : Z) (obstacles : gset (Z * Z))
      (queue : list Pos) (visited : gset (Z * Z)) (count : Z) :
  flood_loop remaining safe_space w h obstacles queue visited count
  = count + Z.of_nat (length (flood_trace remaining safe_space w h obstacles queue visited count)).
Proof.
  revert queue visited count.
  induction remaining as [|r IH]; intros queue visited count; cbn [flood_loop flood_trace].
  - destruct queue; cbn; lia.
  - destruct queue as [|current queue']; [cbn; lia|].
    cbv zeta. destruct (safe_space <=? count + 1); [cbn; lia|].
    destruct (foldl _ _ _) as [visited' queue''].
    rewrite IH. cbn [length]. lia.
Qed.

Lemma flood_trace_length (remaining : nat) (safe_space w h : Z) (obstacles : gset (Z * Z))
      (queue : list Pos) (visited : gset (Z * Z)) (count : Z) :
  (length (flood_trace remaining safe_space w h obstacles queue visited count) <= remaining)%nat.
Proof.
  revert queue visited count.
  induction remaining as [|r IH]; intros queue visited count; cbn [flood_trace].
  - destruct queue; cbn; lia.
  - destruct queue as [|current queue']; [cbn; lia|].
    cbv zeta. destruct (safe_space <=? count + 1); [cbn; lia|].
    destruct (foldl _ _ _) as [visited' queue''].
    cbn [length]. specialize (IH queue'' visited' (count + 1)). lia.
Qed.

Lemma flood_loop_early_exit (remaining : nat) (safe_space w h : Z) (obstacles : gset (Z * Z))
      (queue : list Pos) (visited : gset (Z * Z)) (count : Z) :
  flood_loop remaining safe_space w h obstacles queue visited count
  <= Z.max (count + 1) safe_space.
Proof.
  revert queue visited count.
  induction remaining as [|r IH]; intros queue visited count; cbn [flood_loop].
  - destruct queue; lia.
  - destruct queue as [|current queue']; [lia|].
    cbv zeta. destruct (safe_space <=? count + 1) eqn:E; [lia|].
    apply Z.leb_gt in E.
    destruct (foldl _ _ _) as [visited' queue''].
    specialize (IH queue'' visited' (count + 1)). lia.
Qed.

Lemma flood_base_max_range (board_size : Z) :
  80 <= flood_base_max board_size <= 250.
Proof.
  unfold flood_base_max.
  destruct (board_size <=? 100) eqn:E1; [lia|].
  destruct (board_size <=? 200) eqn:E2; [lia|].
  apply Z.leb_gt in E2.
  assert (100 <= board_size / 2) by (apply Z.div_le_lower_bound; lia).
  lia.
Qed.

Lemma elem_of_map_tuple (t : Z * Z) (l : list Pos) :
  t ∈ map tuple l <-> exists p, t = tuple p /\ p ∈ l.
Proof.
  rewrite list_elem_of_In, in_map_iff. split.
  - intros (p & Hp & Hin). exists p. split; [congruence | apply list_elem_of_In; exact Hin].
  - intros (p & Hp & Hin). exists p. split; [congruence | apply list_elem_of_In; exact Hin].
Qed.

(** One pass of the inner loop over the moves. *)
Lemma flood_visit_moves (w h : Z) (obstacles : gset (Z * Z)) (current : Pos)
      (moves : list Move) (visited : gset (Z * Z)) (queue : list Pos)
      (visited' : gset (Z * Z)) (queue' : list Pos) :
  foldl (flood_visit w h obstacles current) (visited, queue) moves = (visited', queue') ->
  exists new,
    queue' = queue ++ new
    /\ visited' = list_to_set (map tuple new) ∪ visited
    /\ NoDup (map tuple new)
    /\ forall p, p ∈ new ->
         (tuple p ∉ visited) /\ inside p w h /\ (tuple p ∉ obstacles)
         /\ exists m, p = _get_next_position current m.
Proof.
  revert visited queue. induction moves as [|m moves IH]; intros visited queue H.
  - cbn in H. injection H as <- <-. exists []. rewrite app_nil_r. cbn.
    split; [reflexivity|]. split; [set_solver|]. split; [constructor|].
    intros p Hp. inversion Hp.
  - cbn [foldl] in H. unfold flood_visit at 2 in H.
    destruct (bool_decide (tuple (_get_next_position current m) ∉ visited)
              && bool_decide (tuple (_get_next_position current m) ∉ obstacles)
              && _is_in_bounds (_get_next_position current m) w h) eqn:E.
    + apply andb_true_iff in E as [E Eb]. apply andb_true_iff in E as [Ev Eo].
      apply bool_decide_eq_true in Ev. apply bool_decide_eq_true in Eo.
      apply in_bounds_inside in Eb.
      apply IH in H as (new & Hq & Hv & Hnd & Hnew).
      exists (_get_next_position current m :: new).
      split; [rewrite Hq, <- app_assoc; reflexivity|].
      split; [rewrite Hv; cbn; set_solver|].
      split.
      * cbn. constructor; [|exact Hnd].
        intros Hin. apply elem_of_map_tuple in Hin as (p & Hp & Hin).
        destruct (Hnew p Hin) as (Hnv & _). apply Hnv. rewrite <- Hp. set_solver.
      * intros p Hp. apply elem_of_cons in Hp as [->|Hp].
        -- split; [exact Ev|]. split; [exact Eb|]. split; [exact Eo|].
           exists m. reflexivity.
        -- destruct (Hnew p Hp) as (Hnv & Hin & Hno & Hm).
           split; [set_solver|]. split; [exact Hin|]. split; [exact Hno | exact Hm].
    + apply IH in H. exact H.
Qed.

Lemma reached_more (start : Pos) (w h : Z) (obstacles : gset (Z * Z))
      (earlier extra : list Pos) (p : Pos) :
  reached start w h obstacles earlier p ->
  reached start w h obstacles (earlier ++ extra) p.
Proof.
  intros [->|(Hi & Ho & c & m & Hc & Hp)]; [left; reflexivity|].
  right. split; [exact Hi|]. split; [exact Ho|]. exists c, m. split; [|exact Hp].
  apply in_or_app. left. exact Hc.
Qed.

Lemma flood_trace_reached (start : Pos) (w h : Z) (obstacles : gset (Z * Z))
      (safe_space : Z) (remaining : nat) :
  forall (queue : list Pos) (visited : gset (Z * Z)) (count : Z) (done : list Pos),
    (forall p, p ∈ queue -> reached start w h obstacles done p) ->
    forall before p after,
      flood_trace remaining safe_space w h obstacles queue visited count
      = before ++ p :: after ->
      reached start w h obstacles (done ++ before) p.
Proof.
  induction remaining as [|r IH]; intros queue visited count done Hq before p after Ht;
    cbn [flood_trace] in Ht.
  - destruct queue; destruct before; discriminate.
  - destruct queue as [|current queue']; [destruct before; discriminate|].
    cbv zeta in Ht.
    assert (Hcur : reached start w h obstacles done current) by (apply Hq; left).
    destruct (safe_space <=? count + 1).
    + destruct before as [|b before].
      * injection Ht as <- _. rewrite app_nil_r. exact Hcur.
      * injection Ht as _ Ht. destruct before; discriminate.
    + destruct (foldl _ _ _) as [visited' queue''] eqn:E.
      apply flood_visit_moves in E as (new & -> & _ & _ & Hnew).
      destruct before as [|b before].
      * injection Ht as <- _. rewrite app_nil_r. exact Hcur.
      * injection Ht as <- Ht.
        replace (done ++ current :: before) with ((done ++ [current]) ++ before)
          by (rewrite <- app_assoc; reflexivity).
        eapply IH; [|exact Ht].
        intros x Hx. apply elem_of_app in Hx as [Hx|Hx].
        -- apply reached_more. apply Hq. right. exact Hx.
        -- destruct (Hnew x Hx) as (_ & Hi & Ho & m & Hm).
           right. split; [exact Hi|]. split; [exact Ho|].
           exists current, m. split; [|exact Hm].
           apply in_or_app. right. left. reflexivity.
Qed.

Lemma flood_trace_NoDup (w h : Z) (obstacles : gset (Z * Z)) (safe_space : Z)
      (remaining : nat) :
  forall (queue : list Pos) (visited : gset (Z * Z)) (count : Z) (done : list Pos),
    NoDup (map tuple (done ++ queue)) ->
    (forall p, p ∈ done ++ queue -> tuple p ∈ visited) ->
    NoDup (map tuple
             (done ++ flood_trace remaining safe_space w h obstacles queue visited count)).
Proof.
  induction remaining as [|r IH]; intros queue visited count done Hnd Hv; cbn [flood_trace].
  - rewrite map_app in Hnd. apply NoDup_app in Hnd as (Hd & _ & _).
    destruct queue; rewrite app_nil_r; exact Hd.
  - destruct queue as [|current queue'].
    { rewrite app_nil_r in *. exact Hnd. }
    cbv zeta. destruct (safe_space <=? count + 1).
    + rewrite map_app in *. cbn [map] in *.
      apply NoDup_app in Hnd as (Hd & Hdq & Hq).
      apply NoDup_app. split; [exact Hd|]. split.
      * intros x Hx Hin. apply (Hdq x Hx). apply elem_of_cons.
        apply list_elem_of_singleton in Hin. left. exact Hin.
      * apply NoDup_singleton.
    + destruct (foldl _ _ _) as [visited' queue''] eqn:E.
      apply flood_visit_moves in E as (new & -> & -> & Hnew_nd & Hnew).
      replace (done ++ current :: flood_trace r safe_space w h obstacles (queue' ++ new)
                 (list_to_set (map tuple new) ∪ visited) (count + 1))
        with ((done ++ [current]) ++ flood_trace r safe_space w h obstacles (queue' ++ new)
                 (list_to_set (map tuple new) ∪ visited) (count + 1))
        by (rewrite <- app_assoc; reflexivity).
      apply IH.
      * replace ((done ++ [current]) ++ queue' ++ new) with ((done ++ current :: queue') ++ new)
          by (rewrite <- !app_assoc; reflexivity).
        rewrite map_app. apply NoDup_app. split; [exact Hnd|]. split; [|exact Hnew_nd].
        intros t Ht Hin.
        apply elem_of_map_tuple in Ht as (p & -> & Hp).
        apply elem_of_map_tuple in Hin as (p' & Heq & Hp').
        destruct (Hnew p' Hp') as (Hnv & _). apply Hnv. rewrite <- Heq. apply Hv. exact Hp.
      * intros p Hp.
        replace ((done ++ [current]) ++ queue' ++ new) with ((done ++ current :: queue') ++ new)
          in Hp by (rewrite <- !app_assoc; reflexivity).
        apply elem_of_app in Hp as [Hp|Hp].
        -- apply elem_of_union_r. apply Hv. exact Hp.
        -- apply elem_of_union_l. apply elem_of_list_to_set.
           apply elem_of_map_tuple. exists p. auto.
Qed.

Lemma tuple_inj (p q : Pos) : tuple p = tuple q -> p = q.
Proof. destruct p, q; cbn. intros H. injection H as -> ->. reflexivity. Qed.

Lemma flood_visit_moves_cover (w h : Z) (obstacles : gset (Z * Z)) (current : Pos)
      (moves : list Move) (visited : gset (Z * Z)) (queue : list Pos)
      (visited' : gset (Z * Z)) (queue' : list Pos) :
  foldl (flood_visit w h obstacles current) (visited, queue) moves = (visited', queue') ->
  visited ⊆ visited'
  /\ forall m, In m moves ->
       inside (_get_next_position current m) w h ->
       tuple (_get_next_position current m) ∉ obstacles ->
       tuple (_get_next_position current m) ∈ visited'.
Proof.
  revert visited queue. induction moves as [|m moves IH]; intros visited queue H.
  - cbn in H. injection H as <- <-. split; [reflexivity|]. intros m [].
  - cbn [foldl] in H. unfold flood_visit at 2 in H.
    destruct (bool_decide (tuple (_get_next_position current m) ∉ visited)) eqn:Ev;
      cbn [andb] in H.
    + destruct (bool_decide (tuple (_get_next_position current m) ∉ obstacles)) eqn:Eo;
        cbn [andb] in H.
      * destruct (_is_in_bounds (_get_next_position current m) w h) eqn:Eb.
        -- apply IH in H as (Hsub & Hcov). split.
           ++ intros t Ht. apply Hsub. apply elem_of_union_r. exact Ht.
           ++ intros m' [<-|Hm'] Hi Ho; [|apply Hcov; assumption].
              apply Hsub. apply elem_of_union_l. apply elem_of_singleton. reflexivity.
        -- apply IH in H as (Hsub & Hcov). split; [exact Hsub|].
           intros m' [<-|Hm'] Hi Ho; [|apply Hcov; assumption].
           apply in_bounds_inside in Hi. congruence.
      * apply IH in H as (Hsub & Hcov). split; [exact Hsub|].
        intros m' [<-|Hm'] Hi Ho; [|apply Hcov; assumption].
        apply bool_decide_eq_false in Eo. exfalso. apply Eo. exact Ho.
    + apply IH in H as (Hsub & Hcov). split; [exact Hsub|].
      intros m' [<-|Hm'] Hi Ho; [|apply Hcov; assumption].
      apply bool_decide_eq_false in Ev. apply Hsub.
      destruct (decide (tuple (_get_next_position current m) ∈ visited)) as [Hin|Hn];
        [exact Hin | contradiction].
Qed.

Lemma all_moves (m : Move) : In m possible_moves.
Proof. unfold possible_moves. destruct m; cbn; tauto. Qed.

(** When the loop stops before the cap and before the early exit, its queue
    is empty: the cells taken out are closed under free neighbours. *)
Lemma flood_trace_closed (w h : Z) (obstacles : gset (Z * Z)) (safe_space : Z)
      (remaining : nat) :
  forall (queue : list Pos) (visited : gset (Z * Z)) (count : Z) (done : list Pos),
    (forall t, t ∈ visited -> exists p, In p (done ++ queue) /\ tuple p = t) ->
    (forall d m, In d done ->
                 inside (_get_next_position d m) w h ->
                 tuple (_get_next_position d m) ∉ obstacles ->
                 tuple (_get_next_position d m) ∈ visited) ->
    let trace := flood_trace remaining safe_space w h obstacles queue visited count in
    count + Z.of_nat (length trace) < safe_space ->
    (length trace < remaining)%nat ->
    forall d m, In d (done ++ trace) ->
                inside (_get_next_position d m) w h ->
                tuple (_get_next_position d m) ∉ obstacles ->
                In (_get_next_position d m) (done ++ trace).
Proof.
  induction remaining as [|r IH]; intros queue visited count done Hv Hn;
    cbn [flood_trace].
  - intros _ Hlen. destruct queue; cbn in Hlen; lia.
  - destruct queue as [|current queue'].
    + intros _ _ d m Hd Hi Ho. rewrite app_nil_r in *.
      destruct (Hv _ (Hn d m Hd Hi Ho)) as (p & Hp & Heq).
      apply tuple_inj in Heq. subst p. exact Hp.
    + cbv zeta. destruct (safe_space <=? count + 1) eqn:E.
      * intros Hss _. apply Z.leb_le in E. cbn [length] in Hss. lia.
      * destruct (foldl _ _ _) as [visited' queue''] eqn:F.
        pose proof (flood_visit_moves _ _ _ _ _ _ _ _ _ F) as (new & -> & -> & _ & _).
        pose proof (flood_visit_moves_cover _ _ _ _ _ _ _ _ _ F) as (Hsub & Hcov).
        intros Hss Hlen d m Hd Hi Ho. cbn [length] in Hss, Hlen.
        replace (done ++ current :: flood_trace r safe_space w h obstacles (queue' ++ new)
                   (list_to_set (map tuple new) ∪ visited) (count + 1))
          with ((done ++ [current]) ++ flood_trace r safe_space w h obstacles (queue' ++ new)
                   (list_to_set (map tuple new) ∪ visited) (count + 1)) in *
          by (rewrite <- app_assoc; reflexivity).
        apply (IH (queue' ++ new) (list_to_set (map tuple new) ∪ visited) (count + 1)
                  (done ++ [current])); try assumption; try lia.
        -- intros t Ht. apply elem_of_union in Ht as [Ht|Ht].
           ++ apply elem_of_list_to_set, elem_of_map_tuple in Ht as (p & -> & Hp).
              exists p. split; [|reflexivity].
              apply in_or_app. right. apply in_or_app. right.
              apply list_elem_of_In. exact Hp.
           ++ destruct (Hv t Ht) as (p & Hp & Heq). exists p. split; [|exact Heq].
              rewrite <- app_assoc. cbn [app].
              apply in_app_or in Hp as [Hp|[Hp|Hp]].
              ** apply in_or_app. left. exact Hp.
              ** apply in_or_app. right. left. exact Hp.
              ** apply in_or_app. right. right. apply in_or_app. left. exact Hp.
        -- intros d' m' Hd' Hi' Ho'. apply in_app_or in Hd' as [Hd'|[<-|[]]].
           ++ apply Hsub. apply Hn; assumption.
           ++ apply Hcov; [apply all_moves | exact Hi' | exact Ho'].
Qed.

Lemma elem_of_tuples (p : Pos) (l : list Pos) :
  tuple p ∈ (list_to_set (map tuple l) : gset (Z * Z)) <-> In p l.
Proof.
  rewrite elem_of_list_to_set, elem_of_map_tuple. split.
  - intros (q & Hq & Hin). apply tuple_inj in Hq. subst q. apply list_elem_of_In. exact Hin.
  - intros H. exists p. split; [reflexivity | apply list_elem_of_In; exact H].
Qed.

Lemma flood_obstacles_fold (my_id : string) (p : Pos) (l : list Snake)
      (acc : gset (Z * Z)) :
  tuple p ∈ foldl (fun (obstacles : gset (Z * Z)) snake =>
                     if negb (String.eqb (snake_id snake) my_id)
                     then obstacles ∪ list_to_set (map tuple (but_last (snake_body snake)))
                     else obstacles)
                  acc l
  <-> tuple p ∈ acc
      \/ exists s, In s (List.filter (fun s => negb (String.eqb (snake_id s) my_id)) l)
                   /\ In p (removelast (snake_body s)).
Proof.
  revert acc. induction l as [|s l IH]; intros acc; cbn [foldl List.filter].
  - split; [auto|]. intros [H|(s & [] & _)]. exact H.
  - rewrite IH. destruct (negb (String.eqb (snake_id s) my_id)).
    + rewrite elem_of_union, elem_of_tuples. unfold but_last. split.
      * intros [[H|H]|(s' & Hs' & H)]; [auto| |].
        -- right. exists s. split; [left; reflexivity | exact H].
        -- right. exists s'. split; [right; exact Hs' | exact H].
      * intros [H|(s' & [<-|Hs'] & H)]; [auto|auto|].
        right. exists s'. auto.
    + reflexivity.
Qed.

Lemma flood_obstacles_spec (game_state : GameState) (p : Pos) :
  tuple p ∈ flood_obstacles game_state
  <-> In p (removelast (snake_body (you game_state)))
      \/ exists s, In s (opponents_of game_state) /\ In p (removelast (snake_body s)).
Proof.
  unfold flood_obstacles, opponents_of. cbv zeta.
  rewrite flood_obstacles_fold, elem_of_tuples. unfold but_last. reflexivity.
Qed.

Lemma flood_trace_nonempty (remaining : nat) (safe_space w h : Z)
      (obstacles : gset (Z * Z)) (current : Pos) (queue : list Pos)
      (visited : gset (Z * Z)) (count : Z) :
  (1 <= length (flood_trace (S remaining) safe_space w h obstacles
                            (current :: queue) visited count))%nat.
Proof.
  cbn [flood_trace]. cbv zeta. destruct (safe_space <=? count + 1); [cbn; lia|].
  destruct (foldl _ _ _). cbn. lia.
Qed.

Lemma flood_trace_head (remaining : nat) (safe_space w h : Z)
      (obstacles : gset (Z * Z)) (current : Pos) (queue : list Pos)
      (visited : gset (Z * Z)) (count : Z) :
  In current (flood_trace (S remaining) safe_space w h obstacles
                          (current :: queue) visited count).
Proof.
  cbn [flood_trace]. cbv zeta. destruct (safe_space <=? count + 1); [left; reflexivity|].
  destruct (foldl _ _ _). left. reflexivity.
Qed.

(** C6: the flood fill returns the number of cells its breadth-first
    traversal takes out of the queue: distinct cells, each the start or a
    cell of the board that is not an obstacle (a body segment other than a
    tail) and is one move from an earlier cell. The count is at least 1, at
    most the iteration cap (80 up to 100 cells of board, 120 up to 200,
    half the board size above, never more than 250) and at most three
    times the length of Self; when it stays below both bounds, every cell
    reachable from the start has been counted. *)
Theorem flood_fill_bounded_traversal (start_pos : Pos) (game_state : GameState) :
  let board_width := width (board game_state) in
  let board_height := height (board game_state) in
  let board_size := board_width * board_height in
  let my_length := len (snake_body (you game_state)) in
  let obstacles := flood_obstacles game_state in
  let cap := flood_base_max board_size in
  let count := _flood_fill_dynamic start_pos game_state in
  (forall p, tuple p ∈ obstacles <->
             In p (removelast (snake_body (you game_state)))
             \/ exists s, In s (opponents_of game_state) /\ In p (removelast (snake_body s)))
  /\ (board_size <= 100 -> cap = 80)
  /\ (100 < board_size <= 200 -> cap = 120)
  /\ (200 < board_size -> cap = Z.min (board_size / 2) 250)
  /\ cap <= 250
  /\ 1 <= count <= cap
  /\ count <= Z.max 1 (3 * my_length)
  /\ exists cells,
      Z.of_nat (length cells) = count
      /\ traversal start_pos board_width board_height obstacles cells
      /\ (count < cap -> count < 3 * my_length ->
          forall p, reachable start_pos board_width board_height obstacles p -> In p cells).
Proof.
  intros w h board_size my_length obstacles cap count.
  pose proof (flood_base_max_range board_size) as Hcap. fold cap in Hcap.
  split; [intros p; apply flood_obstacles_spec|].
  split.
  { intros H. unfold cap, flood_base_max.
    destruct (board_size <=? 100) eqn:E; [reflexivity|]. apply Z.leb_gt in E. lia. }
  split.
  { intros H. unfold cap, flood_base_max.
    destruct (board_size <=? 100) eqn:E; [apply Z.leb_le in E; lia|].
    destruct (board_size <=? 200) eqn:E2; [reflexivity|]. apply Z.leb_gt in E2. lia. }
  split.
  { intros H. unfold cap, flood_base_max.
    destruct (board_size <=? 100) eqn:E; [apply Z.leb_le in E; lia|].
    destruct (board_size <=? 200) eqn:E2; [apply Z.leb_le in E2; lia|]. reflexivity. }
  split; [lia|].
  assert (Hcount : count = Z.of_nat (length (flood_trace (Z.to_nat cap) (my_length * 3) w h
                      obstacles [start_pos] {[tuple start_pos]} 0))).
  { unfold count, _flood_fill_dynamic. cbv zeta. rewrite flood_loop_counts.
    apply Z.add_0_l. }
  split.
  { rewrite Hcount. split.
    - destruct (Z.to_nat cap) as [|r] eqn:E; [lia|].
      pose proof (flood_trace_nonempty r (my_length * 3) w h obstacles start_pos []
                    {[tuple start_pos]} 0). lia.
    - pose proof (flood_trace_length (Z.to_nat cap) (my_length * 3) w h obstacles
                    [start_pos] {[tuple start_pos]} 0). lia. }
  split.
  { unfold count, _flood_fill_dynamic, my_length. cbv zeta.
    etransitivity; [apply flood_loop_early_exit|]. lia. }
  exists (flood_trace (Z.to_nat cap) (my_length * 3) w h obstacles
            [start_pos] {[tuple start_pos]} 0).
  split; [symmetry; exact Hcount|]. split; [split|].
  - apply (NoDup_fmap_1 tuple).
    apply (flood_trace_NoDup w h obstacles (my_length * 3) (Z.to_nat cap)
             [start_pos] {[tuple start_pos]} 0 []).
    + cbn. apply NoDup_singleton.
    + intros p Hp. cbn in Hp. apply list_elem_of_singleton in Hp. subst p. set_solver.
  - intros before p after Ht.
    apply (flood_trace_reached start_pos w h obstacles (my_length * 3) (Z.to_nat cap)
             [start_pos] {[tuple start_pos]} 0 []) with (after := after).
    + intros x Hx. apply list_elem_of_singleton in Hx. left. exact Hx.
    + exact Ht.
  - intros Hcap' Hexit p Hp.
    destruct (Z.to_nat cap) as [|r] eqn:Er; [lia|].
    induction Hp as [|c m Hc IHc Hi Ho].
    + apply flood_trace_head.
    + apply (flood_trace_closed w h obstacles (my_length * 3) (S r)
               [start_pos] {[tuple start_pos]} 0 []) with (d := c).
      * intros t Ht. apply elem_of_singleton in Ht. exists start_pos.
        split; [left; reflexivity | symmetry; exact Ht].
      * intros d m' [].
      * lia.
      * lia.
      * exact IHc.
      * exact Hi.
      * exact Ho.
Qed.

(* ===================================================================== *)
(** * The properties on the sample game states *)
(* ===================================================================== *)

Example lone_state_scored : fst (evaluate_layers lone_state []) = Ok lone_scored.
Proof. vm_compute. reflexivity. Qed.

(** C1: a move whose mask is false is returned although another move has
    mask true. On [coiled_state], a well-formed snapshot, up is the only
    move with mask true; the space penalties take its accumulated score
    below the -10000 of the masked moves, no move passes the -9000 guard,
    and [move] returns down, the first of the masked moves. *)
Lemma coiled_state_picks_unsafe :
  well_formed coiled_state = true
  /\ match fst (evaluate_layers coiled_state []) with
     | Ok scored =>
         safe_moves_mask scored = mkTable true false false false
         /\ Py.lt (get Up (final_scores scored)) (Int (-10000)) = true
         /\ get Down (final_scores scored) = Int (-10000)
     | Raise _ => False
     end
  /\ move coiled_state [] = (Ok Down, [MoveNoSafeMoves 300 Down]).
Proof. vm_compute. repeat split; reflexivity. Qed.

(** C4: the move back onto the neck is returned although another move has
    mask true. On [coiled_state] the head is (0,17) and the neck (0,16); up
    has mask true, and [move] returns down, which leads onto the neck. *)
Lemma coiled_state_reverses :
  well_formed coiled_state = true
  /\ firstn 2 (snake_body (you coiled_state)) = [mkPos 0 17; mkPos 0 16]
  /\ match fst (evaluate_layers coiled_state []) with
     | Ok scored => get Up (safe_moves_mask scored) = true
     | Raise _ => False
     end
  /\ fst (move coiled_state []) = Ok Down
  /\ _get_next_position (mkPos 0 17) Down = mkPos 0 16.
Proof. vm_compute. repeat split; reflexivity. Qed.

(** On [lone_state] the candidates are up, down and right, and up is their
    first arg-max. *)
Lemma decision_aggregator_witness :
  let score := fun m => get m (final_scores lone_scored) in
  let candidates := safe_moves_of (safe_moves_mask lone_scored) (final_scores lone_scored) in
  (forall m, In m candidates <->
             get m (safe_moves_mask lone_scored) = true /\ Py.gt (score m) (Int (-9000)) = true)
  /\ sublist candidates [Up; Down; Left; Right]
  /\ exists m,
      fst (move lone_state []) = Ok m
      /\ (candidates = [] -> first_argmax score [Up; Down; Left; Right] m)
      /\ (candidates <> [] -> first_argmax score candidates m).
Proof.
  apply (decision_aggregator lone_state [] lone_scored).
  - vm_compute. reflexivity.
  - intros m. destruct m; vm_compute; reflexivity.
Defined.

(** On [lone_state] the move left leads onto the neck: its mask is false
    and its score ends at -10000. *)
Lemma unsafe_moves_keep_their_penalty_witness :
  get Left (final_scores lone_scored) = Int (-10000).
Proof.
  assert (H1 : fst (evaluate_layers lone_state []) = Ok lone_scored)
    by (vm_compute; reflexivity).
  assert (H2 : get Left (safe_moves_mask lone_scored) = false) by reflexivity.
  pose proof (unsafe_moves_keep_their_penalty lone_state [] lone_scored Left H1 H2) as H.
  cbv zeta in H. apply H.
Defined.

(** On [even_field] two opponents of 7 segments face a Self of 3: 14
    segments in all, average 7 > 3 + 3, threshold 10. *)
Lemma dynamic_threshold_table_witness :
  total_of (opponents_of even_field) 14
  /\ longest_of (opponents_of even_field) 7
  /\ Py.truediv (Int 14) (Int (len (opponents_of even_field))) = Ok (Float 7)
  /\ _calculate_dynamic_aggressive_threshold even_field = Ok 10.
Proof.
  assert (Hne : opponents_of even_field <> []) by (vm_compute; discriminate).
  assert (Htotal : total_of (opponents_of even_field) 14).
  { change (total_of [row_snake "a" 0 4 7 90; row_snake "b" 0 6 7 90] (7 + (7 + 0))).
    repeat constructor. }
  assert (Hlongest : longest_of (opponents_of even_field) 7).
  { split.
    - intros o Ho. vm_compute in Ho. destruct Ho as [<-|[<-|[]]]; vm_compute; discriminate.
    - exists (row_snake "a" 0 4 7 90). split; [vm_compute; left; reflexivity | reflexivity]. }
  assert (Havg : Py.truediv (Int 14) (Int (len (opponents_of even_field))) = Ok (Float 7))
    by (vm_compute; reflexivity).
  split; [exact Htotal|]. split; [exact Hlongest|]. split; [exact Havg|].
  etransitivity;
    [exact (proj2 (proj2 (dynamic_threshold_table even_field) Hne) 14 7 (Float 7)
              Htotal Hlongest Havg)|].
  vm_compute. reflexivity.
Defined.

(** The threshold on the sample fields. *)
Example threshold_samples :
  _calculate_dynamic_aggressive_threshold lone_state = Ok 6
  /\ _calculate_dynamic_aggressive_threshold even_field = Ok 10
  /\ _calculate_dynamic_aggressive_threshold uneven_field = Ok 11
  /\ _calculate_dynamic_aggressive_threshold crowded_field = Ok 9
  /\ _calculate_dynamic_aggressive_threshold duel_field = Ok 7.
Proof. vm_compute. repeat split; reflexivity. Qed.



(** On [hunter_state] both options exist, the hunt (score 80, safe path, no
    third-party risk) wins over the food (score 500/14), and 80 / (distance
    + 1) is added on the safe moves. *)
Lemma emergency_arbitration_witness :
  projected (mkPos 2 1) hunter_mask (Int 80) (mkPos 2 3) hunter_scores hunter_scores_after.
Proof.
  assert (H1 : emergency_food_option (mkPos 2 1) 14 [mkPos 10 6]
               = Ok (Some (mkFoodOption (mkPos 10 6) 13 (Float 0x1.1db6db6db6db7p+5))))
    by (vm_compute; reflexivity).
  assert (H2 : for_each (hunt_step (mkPos 2 1) 5 14 (opponents_of hunter_state) hunter_state)
                        (opponents_of hunter_state) None
               = Ok (Some (mkHuntOption (mkPos 2 3) 2 (Int 80) (Int 0) true)))
    by (vm_compute; reflexivity).
  assert (H3 : fst (_evaluate_emergency_strategy_enhanced (mkPos 2 1) 5 14 [mkPos 10 6]
                      (opponents_of hunter_state) hunter_scores hunter_mask hunter_state [])
               = Ok hunter_scores_after)
    by (vm_compute; reflexivity).
  exact (emergency_arbitration (mkPos 2 1) 5 14 [mkPos 10 6] (opponents_of hunter_state)
           hunter_scores hunter_mask hunter_state [] _ _ hunter_scores_after H1 H2 H3).
Defined.

(** On [starving_state] only the food option exists (distance 3, score
    125) and the safe move up ends two cells from the food: the claimed
    projection would add 125 / 3 to its score of 90, the code adds 500 / 3. *)
Lemma emergency_food_projection_uses_weight :
  well_formed starving_state = true
  /\ match fst (evaluate_layers starving_state []) with
     | Ok scored => safe_moves_mask scored = starving_mask
     | Raise _ => False
     end
  /\ _evaluate_space_availability (mkPos 5 5) 3 (mkTable (Int 0) (Int 0) (Int (-10000)) (Int 0))
                                  starving_mask starving_state
     = Ok starving_scores
  /\ emergency_food_option (mkPos 5 5) 10 [mkPos 5 8]
     = Ok (Some (mkFoodOption (mkPos 5 8) 3 (Float 125)))
  /\ for_each (hunt_step (mkPos 5 5) 3 10 (opponents_of starving_state) starving_state)
              (opponents_of starving_state) None = Ok None
  /\ _manhattan_distance (_get_next_position (mkPos 5 5) Up) (mkPos 5 8) = 2
  /\ match (q ← Py.truediv (Float 125) (Int (2 + 1)); Py.add (get Up starving_scores) q),
           fst (_evaluate_emergency_strategy_enhanced (mkPos 5 5) 3 10 [mkPos 5 8]
                  (opponents_of starving_state) starving_scores starving_mask
                  starving_state []) with
     | Ok claimed, Ok scores' =>
         Py.lt claimed (get Up scores') = true
         /\ (q ← Py.truediv (Int 500) (Int (2 + 1)); Py.add (get Up starving_scores) q)
            = Ok (get Up scores')
     | _, _ => False
     end.
Proof. vm_compute. repeat split; reflexivity. Qed.

(* ===================================================================== *)
(** * Further properties of the engine *)
(* ===================================================================== *)

(** ** Geometry *)

Lemma next_position_distance (p : Pos) (m : Move) :
  _manhattan_distance p (_get_next_position p m) = 1.
Proof. unfold _manhattan_distance. destruct p, m; cbn; lia. Qed.

Lemma manhattan_triangle (p q r : Pos) :
  _manhattan_distance p r <= _manhattan_distance p q + _manhattan_distance q r.
Proof. unfold _manhattan_distance. lia. Qed.

Lemma manhattan_sym (p q : Pos) : _manhattan_distance p q = _manhattan_distance q p.
Proof. unfold _manhattan_distance. lia. Qed.

Lemma next_position_inj (p : Pos) (m m' : Move) :
  _get_next_position p m = _get_next_position p m' -> m = m'.
Proof.
  destruct p as [x y], m, m'; cbn; intros H; try reflexivity;
    injection H; intros; lia.
Qed.

(** X1: the Manhattan distance is a metric on coordinates (non-negative,
    zero exactly on equal coordinates, symmetric, triangle inequality);
    every move leads to a cell at distance 1, the four moves lead to four
    different cells, and opposite moves undo each other. *)
Theorem manhattan_metric_and_steps :
  (forall p q, 0 <= _manhattan_distance p q)
  /\ (forall p q, _manhattan_distance p q = 0 <-> p = q)
  /\ (forall p q, _manhattan_distance p q = _manhattan_distance q p)
  /\ (forall p q r,
         _manhattan_distance p r <= _manhattan_distance p q + _manhattan_distance q r)
  /\ (forall p m, _manhattan_distance p (_get_next_position p m) = 1)
  /\ (forall p m m', _get_next_position p m = _get_next_position p m' -> m = m')
  /\ (forall p, _get_next_position (_get_next_position p Up) Down = p
                /\ _get_next_position (_get_next_position p Down) Up = p
                /\ _get_next_position (_get_next_position p Left) Right = p
                /\ _get_next_position (_get_next_position p Right) Left = p).
Proof.
  split; [intros p q; unfold _manhattan_distance; lia|].
  split.
  { intros [a b] [c d]. unfold _manhattan_distance. cbn. split.
    - intros H. f_equal; lia.
    - intros H. injection H as -> ->. lia. }
  split; [apply manhattan_sym|].
  split; [apply manhattan_triangle|].
  split; [apply next_position_distance|].
  split; [apply next_position_inj|].
  intros [x y]. cbn. repeat split; f_equal; lia.
Qed.

Lemma NoDup_map_injective {A B : Type} (f : A -> B) (l : list A) :
  (forall x y, f x = f y -> x = y) -> NoDup l -> NoDup (map f l).
Proof.
  intros Hinj. induction 1 as [|x l Hx Hl IH]; cbn; constructor; [|exact IH].
  rewrite list_elem_of_In, in_map_iff. intros (y & Hy & Hin).
  apply Hinj in Hy. subst y. apply Hx. apply list_elem_of_In. exact Hin.
Qed.

Lemma possible_moves_NoDup : NoDup possible_moves.
Proof.
  unfold possible_moves.
  repeat (constructor; [rewrite list_elem_of_In; cbn; intuition discriminate|]).
  constructor.
Qed.

(** X2: [_get_possible_next_positions] returns exactly the cells one move
    away that lie on the board, each once; on a board with more than one
    cell, a position on the board always has one. *)
Theorem possible_next_positions_spec (position : Pos) (board_width board_height : Z) :
  (forall q, In q (_get_possible_next_positions position board_width board_height) <->
             (exists m, q = _get_next_position position m)
             /\ inside q board_width board_height)
  /\ NoDup (_get_possible_next_positions position board_width board_height)
  /\ (inside position board_width board_height ->
      2 <= board_width \/ 2 <= board_height ->
      _get_possible_next_positions position board_width board_height <> []).
Proof.
  unfold _get_possible_next_positions. split; [|split].
  - intros q. rewrite filter_In, in_map_iff, in_bounds_inside. split.
    + intros [(m & Hm & _) Hi]. split; [exists m; auto | exact Hi].
    + intros [(m & Hm) Hi]. split; [|exact Hi]. exists m. split; [auto | apply all_moves].
  - apply NoDup_ListNoDup, List.NoDup_filter, NoDup_ListNoDup. apply NoDup_map_injective.
    + intros m m' H. apply (next_position_inj position). exact H.
    + apply possible_moves_NoDup.
  - intros [Hx Hy] Hsize Hnil.
    assert (Hall : forall m, _is_in_bounds (_get_next_position position m)
                                           board_width board_height = false).
    { intros m.
      destruct (_is_in_bounds (_get_next_position position m) board_width board_height) eqn:E;
        [|reflexivity].
      assert (Hin : In (_get_next_position position m)
                       (List.filter (fun next_pos => _is_in_bounds next_pos board_width board_height)
                                    (map (_get_next_position position) possible_moves))).
      { apply filter_In. split; [|exact E]. apply in_map. apply all_moves. }
      rewrite Hnil in Hin. destruct Hin. }
    pose proof (Hall Up) as Hu. pose proof (Hall Down) as Hd.
    pose proof (Hall Left) as Hl. pose proof (Hall Right) as Hr.
    unfold _is_in_bounds in Hu, Hd, Hl, Hr. destruct position as [x y]. cbn in *.
    rewrite !andb_false_iff, ?Z.leb_gt, ?Z.ltb_ge in Hu, Hd, Hl, Hr. lia.
Qed.

(** ** Opponent prediction *)

Lemma removelast_In {A : Type} (x : A) (l : list A) : In x (removelast l) -> In x l.
Proof.
  induction l as [|a l IH]; cbn; [auto|].
  destruct l as [|b l]; [intros []|].
  intros [->|H]; [left; reflexivity | right; apply IH; exact H].
Qed.

Lemma flat_map_length_le {A B : Type} (g : A -> list B) (l : list A) (k : nat) :
  (forall x, (length (g x) <= k)%nat) -> (length (flat_map g l) <= k * length l)%nat.
Proof.
  intros Hg. induction l as [|x l IH]; cbn; [lia|].
  rewrite length_app. specialize (Hg x). lia.
Qed.

Lemma filter_moves_length (f : Pos -> bool) (p : Pos) :
  (length (List.filter f (map (_get_next_position p) possible_moves)) <= 4)%nat.
Proof.
  etransitivity; [apply List.filter_length_le|]. cbn. lia.
Qed.

Lemma predicted_facts (opponent : Snake) (board_width board_height depth : Z)
      (opponent_head : Pos) (rest : list Pos) :
  snake_body opponent = opponent_head :: rest ->
  exists predicted,
    _predict_opponent_next_moves opponent board_width board_height depth = Ok predicted
    /\ (length predicted <= 20)%nat
    /\ (forall q, In q predicted ->
                  inside q board_width board_height
                  /\ _manhattan_distance opponent_head q <= 2
                  /\ ~ In q (removelast (removelast (snake_body opponent))))
    /\ (depth < 2 ->
        forall q, In q predicted ->
                  _manhattan_distance opponent_head q = 1
                  /\ ~ In q (removelast (snake_body opponent))).
Proof.
  unfold _predict_opponent_next_moves.
  intros Hbody. rewrite Hbody. cbn [Py.first mbind result_bind Py.bind].
  rewrite <- Hbody. eexists. split; [reflexivity|].
  set (firsts := List.filter _ (map (_get_next_position opponent_head) possible_moves)).
  assert (Hfirst : forall q, In q firsts ->
                     inside q board_width board_height
                     /\ _manhattan_distance opponent_head q = 1
                     /\ ~ In q (removelast (snake_body opponent))).
  { intros q Hq. unfold firsts in Hq. apply filter_In in Hq as [Hq Hc].
    apply in_map_iff in Hq as (m & <- & _).
    apply andb_true_iff in Hc as [Hb Hc]. apply negb_true_iff in Hc.
    split; [apply in_bounds_inside; exact Hb|].
    split; [apply next_position_distance|].
    intros Hin. apply collision_with_body_In in Hin. unfold but_last in Hc. congruence. }
  split; [|split].
  + rewrite length_app.
    assert ((length firsts <= 4)%nat) by apply filter_moves_length.
    destruct (2 <=? depth); [|cbn [length]; lia].
    assert ((length (flat_map
              (fun pos1 =>
                 List.filter
                   (fun pos2 => _is_in_bounds pos2 board_width board_height
                                && negb (_is_collision_with_body
                                           pos2 (pos1 :: but_last2 (snake_body opponent))))
                   (map (_get_next_position pos1) possible_moves)) firsts)
             <= 4 * length firsts)%nat).
    { apply flat_map_length_le. intros x. apply filter_moves_length. }
    lia.
  + intros q Hq. apply in_app_or in Hq as [Hq|Hq].
    * destruct (Hfirst q Hq) as (Hi & Hd & Hn). split; [exact Hi|]. split; [lia|].
      intros Hin. apply Hn. apply removelast_In. exact Hin.
    * destruct (2 <=? depth); [|destruct Hq].
      apply in_flat_map in Hq as (pos1 & Hp1 & Hq).
      apply filter_In in Hq as [Hq Hc].
      apply in_map_iff in Hq as (m & <- & _).
      apply andb_true_iff in Hc as [Hb Hc]. apply negb_true_iff in Hc.
      destruct (Hfirst pos1 Hp1) as (_ & Hd1 & _).
      split; [apply in_bounds_inside; exact Hb|]. split.
      -- pose proof (manhattan_triangle opponent_head pos1 (_get_next_position pos1 m)).
         pose proof (next_position_distance pos1 m). lia.
      -- intros Hin.
         assert (Hcol : _is_collision_with_body (_get_next_position pos1 m)
                          (pos1 :: but_last2 (snake_body opponent)) = true).
         { apply collision_with_body_In. right. exact Hin. }
         congruence.
  + intros Hdepth q Hq.
    assert (E : (2 <=? depth) = false) by (apply Z.leb_gt; lia).
    rewrite E, app_nil_r in Hq.
    destruct (Hfirst q Hq) as (_ & Hd & Hn). auto.
Qed.

(** X3: the opponent prediction raises [IndexError] on an empty body;
    otherwise it returns at most 20 positions, every one of them on the
    board, at most two moves from the opponent's head, and off the
    opponent's body without its last two segments. With a depth below 2
    the positions are one move from the head and off the body without its
    tail. *)
Theorem predicted_positions_spec (opponent : Snake) (board_width board_height depth : Z) :
  (snake_body opponent = [] ->
   _predict_opponent_next_moves opponent board_width board_height depth = Raise IndexError)
  /\ (forall opponent_head rest,
         snake_body opponent = opponent_head :: rest ->
         exists predicted,
           _predict_opponent_next_moves opponent board_width board_height depth = Ok predicted
           /\ (length predicted <= 20)%nat
           /\ (forall q, In q predicted ->
                         inside q board_width board_height
                         /\ _manhattan_distance opponent_head q <= 2
                         /\ ~ In q (removelast (removelast (snake_body opponent))))
           /\ (depth < 2 ->
               forall q, In q predicted ->
                         _manhattan_distance opponent_head q = 1
                         /\ ~ In q (removelast (snake_body opponent)))).
Proof.
  split.
  - intros H. unfold _predict_opponent_next_moves. rewrite H. reflexivity.
  - intros opponent_head rest Hbody. eapply predicted_facts. exact Hbody.
Qed.


(** ** Layers that only react to nearby rivals *)

Lemma set_get_same {A : Type} (m : Move) (t : Table A) : set m (get m t) t = t.
Proof. destruct t, m; reflexivity. Qed.

Lemma on_safe_moves_noop (safe_mask : Table bool) (update : Move -> num -> result num)
      (scores : Table num) :
  (forall m, get m safe_mask = true -> update m (get m scores) = Ok (get m scores)) ->
  on_safe_moves safe_mask update scores = Ok scores.
Proof.
  intros H. unfold on_safe_moves.
  assert (Hstep : forall m,
             (if negb (get m safe_mask) then Ok scores
              else v ← update m (get m scores); Ok (set m v scores)) = Ok scores).
  { intros m. destruct (get m safe_mask) eqn:E; cbn [negb]; [|reflexivity].
    rewrite (H m E). cbn. rewrite set_get_same. reflexivity. }
  apply for_each_moves. exists scores, scores, scores.
  repeat split; apply Hstep.
Qed.

Lemma for_each_noop {A S : Type} (body : A -> S -> result S) (l : list A) (s : S) :
  (forall x, In x l -> body x s = Ok s) -> for_each body l s = Ok s.
Proof.
  induction l as [|x l IH]; intros H; cbn; [reflexivity|].
  rewrite (H x) by (left; reflexivity). cbn. apply IH.
  intros y Hy. apply H. right. exact Hy.
Qed.

Lemma positions_equal_eq (p q : Pos) : _positions_equal p q = true <-> p = q.
Proof. unfold _positions_equal. apply pos_eqb_eq. Qed.

(** X4: the head-to-head defence leaves the score table as it is when
    every opponent is shorter than Self or has its head more than three
    cells (Manhattan) from Self's head: only a rival at least as long and
    within three cells can cost a move anything. *)
Theorem head_to_head_needs_close_rival
        (my_head : Pos) (my_length : Z) (opponents : list Snake)
        (board_width board_height : Z) (scores : Table num) (safe_mask : Table bool) :
  (forall o, In o opponents ->
             exists opponent_head rest,
               snake_body o = opponent_head :: rest
               /\ (len (snake_body o) < my_length
                   \/ 3 < _manhattan_distance my_head opponent_head)) ->
  _evaluate_head_to_head_defense_enhanced my_head my_length opponents
    board_width board_height scores safe_mask = Ok scores.
Proof.
  intros H. unfold _evaluate_head_to_head_defense_enhanced.
  apply for_each_noop. intros o Ho.
  destruct (H o Ho) as (opponent_head & rest & Hbody & Hfar).
  rewrite Hbody. cbn [Py.first mbind result_bind Py.bind]. rewrite <- Hbody.
  destruct (my_length <=? len (snake_body o)) eqn:E; [|reflexivity].
  apply Z.leb_le in E. destruct Hfar as [Hshort|Hfar]; [lia|].
  destruct (predicted_facts o board_width board_height 2 opponent_head rest Hbody)
    as (predicted & -> & _ & Hpred & _).
  cbn [Py.bind]. apply on_safe_moves_noop. intros m _.
  destruct (existsb (_positions_equal (_get_next_position my_head m)) predicted) eqn:Ex;
    [|reflexivity].
  apply existsb_exists in Ex as (q & Hq & Heq). apply positions_equal_eq in Heq. subst q.
  destruct (Hpred _ Hq) as (_ & Hd & _).
  pose proof (manhattan_triangle my_head (_get_next_position my_head m) opponent_head).
  pose proof (next_position_distance my_head m).
  pose proof (manhattan_sym (_get_next_position my_head m) opponent_head). lia.
Qed.

(** X5: the aggressive strategy leaves the score table as it is when every
    opponent is at least as long as Self and has its head more than three
    cells (Manhattan) from Self's head: it only rewards closing in on
    shorter opponents and only penalises rivals within two cells of a move. *)
Theorem aggressive_ignores_distant_rivals
        (my_head : Pos) (my_length : Z) (opponents : list Snake)
        (scores : Table num) (safe_mask : Table bool) :
  (forall o, In o opponents ->
             exists opponent_head rest,
               snake_body o = opponent_head :: rest
               /\ my_length <= len (snake_body o)
               /\ 3 < _manhattan_distance my_head opponent_head) ->
  _evaluate_aggressive_strategy my_head my_length opponents scores safe_mask = Ok scores.
Proof.
  intros H. unfold _evaluate_aggressive_strategy.
  apply for_each_noop. intros o Ho.
  destruct (H o Ho) as (opponent_head & rest & Hbody & Hlong & Hfar).
  rewrite Hbody. cbn [Py.first mbind result_bind Py.bind]. rewrite <- Hbody.
  destruct (len (snake_body o) <? my_length) eqn:E1; [apply Z.ltb_lt in E1; lia|].
  destruct (my_length <=? len (snake_body o)) eqn:E2; [|reflexivity].
  apply on_safe_moves_noop. intros m _.
  destruct (_manhattan_distance (_get_next_position my_head m) opponent_head <=? 2) eqn:E3;
    [|reflexivity].
  apply Z.leb_le in E3.
  pose proof (manhattan_triangle my_head (_get_next_position my_head m) opponent_head).
  pose proof (next_position_distance my_head m). lia.
Qed.

(** ** The space layer on the integer scores the safety filter leaves *)

Lemma on_safe_moves_total (safe_mask : Table bool) (update : Move -> num -> result num)
      (scores : Table num) :
  (forall m, get m safe_mask = true -> exists v, update m (get m scores) = Ok v) ->
  exists scores', on_safe_moves safe_mask update scores = Ok scores'.
Proof.
  intros H. unfold on_safe_moves, possible_moves. cbn [for_each].
  destruct scores as [a0 a1 a2 a3], safe_mask as [b0 b1 b2 b3].
  pose proof (H Up) as H0. pose proof (H Down) as H1.
  pose proof (H Left) as H2. pose proof (H Right) as H3.
  cbn [get set t_up t_down t_left t_right] in *.
  destruct b0, b1, b2, b3; cbn [negb];
    repeat match goal with
      | Hx : true = true -> exists v, _ = Ok v |- _ =>
          destruct (Hx eq_refl) as [? ?]; clear Hx
      | Hx : false = true -> _ |- _ => clear Hx
      end;
    repeat match goal with
      | E : ?u = Ok _ |- context [?u] => rewrite E
      end;
    cbn [Py.bind mbind result_bind get set t_up t_down t_left t_right];
    repeat match goal with
      | E : ?u = Ok _ |- context [?u] =>
          rewrite E; cbn [Py.bind mbind result_bind get set t_up t_down t_left t_right]
      end;
    eexists; reflexivity.
Qed.

Lemma space_update_int (my_length space z : Z) :
  (score ← Py.add (Int z) (Int (space * 10));
   if space <? my_length then
     score ← Py.sub score (Int ((my_length - space) * 50));
     if space <? my_length / 2 then Py.sub score (Int 200) else Ok score
   else Ok score)
  = Ok (Int (z + space_bonus my_length space)).
Proof.
  unfold space_bonus. cbn [Py.add Py.sub arith mbind result_bind Py.bind].
  destruct (space <? my_length); cbn [Py.add Py.sub arith mbind result_bind Py.bind].
  - destruct (space <? my_length / 2); cbn [Py.sub arith]; do 2 f_equal; lia.
  - do 2 f_equal. lia.
Qed.

Lemma space_bonus_monotone (my_length s s' : Z) :
  s <= s' -> space_bonus my_length s <= space_bonus my_length s'.
Proof.
  unfold space_bonus. generalize (my_length / 2). intros half H.
  destruct (s <? my_length) eqn:E1, (s' <? my_length) eqn:E2,
           (s <? half) eqn:E3, (s' <? half) eqn:E4;
    rewrite ?Z.ltb_lt, ?Z.ltb_ge in *; lia.
Qed.

(** X6: on a table of integer scores (what the safety filter leaves), the
    space layer never raises and keeps the scores integers: a safe move
    gains 10 per reachable cell, minus 50 per cell missing to Self's length,
    minus 200 more when the space is below half that length; an unsafe move
    keeps its score. The gain never decreases with more space and never
    exceeds 10 times the space. *)
Theorem space_layer_on_int_scores
        (my_head : Pos) (my_length : Z) (scores : Table num) (safe_mask : Table bool)
        (game_state : GameState) :
  all_int scores ->
  exists scores',
    _evaluate_space_availability my_head my_length scores safe_mask game_state = Ok scores'
    /\ all_int scores'
    /\ (forall m z,
           get m scores = Int z ->
           get m scores'
           = Int (if get m safe_mask
                  then z + space_bonus my_length
                             (_flood_fill_dynamic (_get_next_position my_head m) game_state)
                  else z))
    /\ (forall s s', s <= s' -> space_bonus my_length s <= space_bonus my_length s')
    /\ (forall s, space_bonus my_length s <= s * 10).
Proof.
  intros Hint. unfold _evaluate_space_availability.
  assert (Hupd : forall m z,
             get m scores = Int z ->
             (fun move score =>
                let next_pos := _get_next_position my_head move in
                let available_space := _flood_fill_dynamic next_pos game_state in
                score ← Py.add score (Int (available_space * 10));
                if available_space <? my_length then
                  let penalty := (my_length - available_space) * 50 in
                  score ← Py.sub score (Int penalty);
                  if available_space <? my_length / 2 then Py.sub score (Int 200)
                  else Ok score
                else Ok score) m (get m scores)
             = Ok (Int (z + space_bonus my_length
                              (_flood_fill_dynamic (_get_next_position my_head m) game_state)))).
  { intros m z Hz. cbv beta zeta. rewrite Hz. apply space_update_int. }
  match goal with
  | |- exists s, on_safe_moves _ ?u _ = _ /\ _ =>
      destruct (on_safe_moves_total safe_mask u scores) as [scores' Hrun]
  end.
  { intros m _. destruct (Hint m) as [z Hz]. eexists. apply (Hupd m z Hz). }
  exists scores'. split; [exact Hrun|].
  pose proof (on_safe_moves_spec _ _ _ _ Hrun) as Hspec.
  assert (Hval : forall m z,
             get m scores = Int z ->
             get m scores'
             = Int (if get m safe_mask
                    then z + space_bonus my_length
                               (_flood_fill_dynamic (_get_next_position my_head m) game_state)
                    else z)).
  { intros m z Hz. specialize (Hspec m). destruct (get m safe_mask).
    - assert (E : Ok (get m scores')
                  = Ok (Int (z + space_bonus my_length
                                   (_flood_fill_dynamic (_get_next_position my_head m)
                                                        game_state)))).
      { rewrite <- Hspec. apply (Hupd m z Hz). }
      injection E as ->. reflexivity.
    - congruence. }
  split; [|split; [exact Hval|split]].
  - intros m. destruct (Hint m) as [z Hz]. rewrite (Hval m z Hz). eexists. reflexivity.
  - apply space_bonus_monotone.
  - intros s. unfold space_bonus.
    destruct (s <? my_length) eqn:E; [|lia]. apply Z.ltb_lt in E.
    destruct (s <? my_length / 2); lia.
Qed.

(** ** The dynamic threshold and the mode of the turn *)

Lemma threshold_range (game_state : GameState) (t : Z) :
  _calculate_dynamic_aggressive_threshold game_state = Ok t -> 6 <= t <= 11.
Proof.
  unfold _calculate_dynamic_aggressive_threshold.
  destruct (bool_decide (opponents_of game_state = [])).
  - intros H. injection H as <-. lia.
  - intros H. apply bind_Ok in H as (avg & _ & H). apply bind_Ok in H as (longest & _ & H).
    repeat match type of H with
           | (if ?c then _ else _) = _ => destruct c
           end; injection H as <-; lia.
Qed.

Lemma evaluate_layers_flags (game_state : GameState) (out : list Line) (scored : Scored) :
  fst (evaluate_layers game_state out) = Ok scored ->
  _calculate_dynamic_aggressive_threshold game_state = Ok (dynamic_threshold scored)
  /\ is_aggressive scored
     = (dynamic_threshold scored <=? len (snake_body (you game_state)))
       && (LOW_HEALTH_THRESHOLD <? snake_health (you game_state))
  /\ is_critical scored = (snake_health (you game_state) <? CRITICAL_HEALTH_THRESHOLD).
Proof.
  unfold evaluate_layers. intros H.
  inv_io H. inv_io H. destruct a0 as [mask scores1].
  inv_io H. inv_io H. rename a1 into threshold.
  apply io_bind_Ok in H as (scores3 & o3 & _ & H).
  apply io_bind_Ok in H as (scores4 & o4 & _ & H).
  apply io_bind_Ok in H as (scores5 & o5 & _ & H).
  inv_io H. cbn in H. injection H as <-. cbn [dynamic_threshold is_aggressive is_critical].
  auto.
Qed.

(** X7: in every turn the dynamic threshold lies between 6 and 11; the turn
    is aggressive exactly when Self is at least as long as the threshold
    and its health is above 30, critical exactly when its health is below
    15; so an aggressive turn is never critical and needs a Self of at
    least 6 segments. *)
Theorem turn_mode_gating (game_state : GameState) (out : list Line) (scored : Scored) :
  fst (evaluate_layers game_state out) = Ok scored ->
  6 <= dynamic_threshold scored <= 11
  /\ (is_aggressive scored = true <->
      dynamic_threshold scored <= len (snake_body (you game_state))
      /\ 30 < snake_health (you game_state))
  /\ (is_critical scored = true <-> snake_health (you game_state) < 15)
  /\ (is_aggressive scored = true ->
      is_critical scored = false /\ 6 <= len (snake_body (you game_state))).
Proof.
  intros H. apply evaluate_layers_flags in H as (Ht & Ha & Hc).
  apply threshold_range in Ht.
  unfold LOW_HEALTH_THRESHOLD in Ha. unfold CRITICAL_HEALTH_THRESHOLD in Hc.
  split; [exact Ht|]. split; [|split].
  - rewrite Ha, andb_true_iff, Z.leb_le, Z.ltb_lt. reflexivity.
  - rewrite Hc, Z.ltb_lt. reflexivity.
  - rewrite Ha, Hc, andb_true_iff, Z.leb_le, Z.ltb_lt. intros [H1 H2].
    split; [apply Z.ltb_ge; lia | lia].
Qed.

(** ** What the returned move avoids *)

Lemma safe_mask_not_blocked my_head my_body opponents w h scores safe_mask scores1 m :
  _evaluate_basic_safety my_head my_body opponents w h scores = Ok (safe_mask, scores1) ->
  get m safe_mask = true ->
  ~ immediately_unsafe my_head my_body opponents w h m.
Proof.
  intros H Hm Hu.
  destruct (basic_safety_run my_head my_body opponents w h scores)
    as (mask' & sc' & Hrun & Hspec).
  rewrite H in Hrun. injection Hrun as <- <-.
  destruct (Hspec m) as (Hmask & _).
  apply blocked_iff in Hu. rewrite Hu, Hm in Hmask. discriminate.
Qed.

(** X8: whenever some move has mask true and a score above -9000, the cell
    the returned move leads to is on the board, is not the neck, and holds
    no segment of Self or of an opponent other than a tail. *)
Theorem returned_move_avoids_walls_and_bodies
        (game_state : GameState) (out : list Line) (scored : Scored)
        (my_head : Pos) (rest : list Pos) :
  snake_body (you game_state) = my_head :: rest ->
  fst (evaluate_layers game_state out) = Ok scored ->
  (exists m', get m' (safe_moves_mask scored) = true
              /\ Py.gt (get m' (final_scores scored)) (Int (-9000)) = true) ->
  exists m,
    fst (move game_state out) = Ok m
    /\ inside (_get_next_position my_head m)
              (width (board game_state)) (height (board game_state))
    /\ nth_error (snake_body (you game_state)) 1 <> Some (_get_next_position my_head m)
    /\ ~ In (_get_next_position my_head m) (removelast (snake_body (you game_state)))
    /\ (forall o, In o (opponents_of game_state) ->
                  ~ In (_get_next_position my_head m) (removelast (snake_body o))).
Proof.
  intros Hbody Hrun (m' & Hm').
  apply safe_moves_of_In in Hm'.
  destruct (choose_move_among_safe _ _ _ Hm') as (m & Hchoose & Hin).
  apply safe_moves_of_In in Hin as [Hmask _].
  exists m. rewrite (move_result _ _ _ Hrun). split; [exact Hchoose|].
  apply evaluate_layers_inv in Hrun as (head' & scores1 & Hhead & Hfilter & _).
  rewrite Hbody in Hhead. cbn in Hhead. injection Hhead as <-.
  pose proof (safe_mask_not_blocked _ _ _ _ _ _ _ _ m Hfilter Hmask) as Hclear.
  unfold immediately_unsafe in Hclear. cbv zeta in Hclear.
  split.
  { destruct (_is_in_bounds (_get_next_position my_head m)
                (width (board game_state)) (height (board game_state))) eqn:E.
    - apply in_bounds_inside. exact E.
    - exfalso. apply Hclear. right. left. intros Hi. apply in_bounds_inside in Hi. congruence. }
  split; [intros Hn; apply Hclear; left; exact Hn|].
  split; [intros Hn; apply Hclear; right; right; left; exact Hn|].
  intros o Ho Hn. apply Hclear. right. right. right. exists o. auto.
Qed.

(** ** The answer when no move is safe *)

Lemma choose_move_total (safe_mask : Table bool) (scores : Table num) :
  exists m, choose_move safe_mask scores = Ok m.
Proof.
  unfold choose_move. destruct (safe_moves_of safe_mask scores); eexists; reflexivity.
Qed.

Lemma final_score_of_unsafe (game_state : GameState) (out : list Line) (scored : Scored)
      (m : Move) :
  fst (evaluate_layers game_state out) = Ok scored ->
  get m (safe_moves_mask scored) = false ->
  get m (final_scores scored) = Int (-10000).
Proof.
  intros Hrun Hm.
  apply evaluate_layers_inv in Hrun as (my_head & scores1 & _ & Hsafe & Hframe).
  rewrite (Hframe m Hm). eapply unsafe_score_after_filter; eauto.
Qed.

(** X9: once the layers have run, [move] always returns a move (the choice
    never raises); and when the safety filter has masked all four moves,
    all four hold -10000 and the move returned is up, the first of the
    enumeration. *)
Theorem move_answers_and_falls_back_to_up
        (game_state : GameState) (out : list Line) (scored : Scored) :
  fst (evaluate_layers game_state out) = Ok scored ->
  (exists m, fst (move game_state out) = Ok m)
  /\ ((forall m, get m (safe_moves_mask scored) = false) ->
      (forall m, get m (final_scores scored) = Int (-10000))
      /\ fst (move game_state out) = Ok Up).
Proof.
  intros Hrun. rewrite (move_result _ _ _ Hrun). split; [apply choose_move_total|].
  intros Hall.
  assert (Hscores : forall m, get m (final_scores scored) = Int (-10000)).
  { intros m. eapply final_score_of_unsafe; eauto. }
  split; [exact Hscores|].
  unfold choose_move, safe_moves_of, possible_moves. cbn [List.filter].
  rewrite !Hall. cbn [andb]. cbn [Py.max_by max_from].
  rewrite !Hscores. vm_compute. reflexivity.
Qed.

(** ** Snakes without a body *)

Lemma for_each_Ok_each {A S : Type} (body : A -> S -> result S) (l : list A) (s s' : S)
      (x : A) :
  for_each body l s = Ok s' -> In x l -> exists s1 s2, body x s1 = Ok s2.
Proof.
  revert s. induction l as [|y l IH]; intros s H Hx; [destruct Hx|].
  cbn in H. destruct (body y s) as [s1|] eqn:E; cbn in H; [|discriminate].
  destruct Hx as [->|Hx]; [eauto | eapply IH; eauto].
Qed.

Lemma head_to_head_needs_bodies my_head my_length opponents w h scores safe_mask scores' o :
  _evaluate_head_to_head_defense_enhanced my_head my_length opponents w h scores safe_mask
  = Ok scores' ->
  In o opponents -> snake_body o <> [].
Proof.
  unfold _evaluate_head_to_head_defense_enhanced. intros H Ho Hempty.
  destruct (for_each_Ok_each _ _ _ _ o H Ho) as (s1 & s2 & Hbody).
  rewrite Hempty in Hbody. discriminate.
Qed.

Lemma evaluate_layers_bodies (game_state : GameState) (out : list Line) (scored : Scored) :
  fst (evaluate_layers game_state out) = Ok scored ->
  snake_body (you game_state) <> []
  /\ forall o, In o (opponents_of game_state) -> snake_body o <> [].
Proof.
  unfold evaluate_layers. intros H.
  inv_io H. inv_io H. destruct a0 as [mask scores1].
  inv_io H. inv_io H.
  apply io_bind_Ok in H as (scores3 & o3 & _ & H).
  apply io_bind_Ok in H as (scores4 & o4 & _ & H).
  apply io_bind_Ok in H as (scores5 & o5 & H5 & _).
  split.
  - intros E. rewrite E in Ha. discriminate.
  - intros o Ho.
    destruct (bool_decide (opponents_of game_state = [])) eqn:E.
    + apply bool_decide_eq_true in E. rewrite E in Ho. destruct Ho.
    + cbn [negb] in H5. apply io_lift_Ok in H5 as [H5 _].
      eapply head_to_head_needs_bodies; eauto.
Qed.

(** X10: [move] needs every snake to have a body. With an empty Self body
    it raises [IndexError] before printing anything; with an opponent
    whose body is empty it raises instead of returning a move. *)
Theorem move_needs_bodies (game_state : GameState) (out : list Line) :
  (snake_body (you game_state) = [] -> move game_state out = (Raise IndexError, out))
  /\ ((exists o, In o (opponents_of game_state) /\ snake_body o = []) ->
      exists e, fst (move game_state out) = Raise e).
Proof.
  split.
  - intros H. unfold move, evaluate_layers, mbind, io_mbind, io_bind, lift.
    rewrite H. reflexivity.
  - intros (o & Ho & Hempty).
    destruct (fst (move game_state out)) as [m|e] eqn:E; [|eauto].
    exfalso. unfold move in E.
    apply io_bind_Ok in E as (scored & o' & Hrun & _).
    assert (Hrun' : fst (evaluate_layers game_state out) = Ok scored)
      by (rewrite Hrun; reflexivity).
    destruct (evaluate_layers_bodies _ _ _ Hrun') as (_ & Hb).
    apply (Hb o Ho). exact Hempty.
Qed.

(** ** The further properties on the sample states *)

(** On [starving_state] the only opponent is longer than Self but its head
    (0,0) is ten cells from Self's head (5,5): the head-to-head defence
    changes nothing. *)
Lemma head_to_head_needs_close_rival_witness :
  _evaluate_head_to_head_defense_enhanced (mkPos 5 5) 3 (opponents_of starving_state)
    11 11 starving_scores starving_mask = Ok starving_scores.
Proof.
  apply (head_to_head_needs_close_rival (mkPos 5 5) 3 (opponents_of starving_state)
           11 11 starving_scores starving_mask).
  intros o Ho. vm_compute in Ho. destruct Ho as [<-|[]].
  eexists. eexists. split; [reflexivity|]. right. vm_compute. reflexivity.
Defined.

(** On [starving_state] the only opponent has 5 segments against Self's 3
    and is ten cells away: the aggressive strategy changes nothing. *)
Lemma aggressive_ignores_distant_rivals_witness :
  _evaluate_aggressive_strategy (mkPos 5 5) 3 (opponents_of starving_state)
    starving_scores starving_mask = Ok starving_scores.
Proof.
  apply (aggressive_ignores_distant_rivals (mkPos 5 5) 3 (opponents_of starving_state)
           starving_scores starving_mask).
  intros o Ho. vm_compute in Ho. destruct Ho as [<-|[]].
  eexists. eexists. split; [reflexivity|]. split; vm_compute; [discriminate | reflexivity].
Defined.

(** The space layer on the all-zero table of [lone_state]: it returns a
    table of integers. *)
Lemma space_layer_on_int_scores_witness :
  all_int (table_of (Int 0))
  /\ exists scores',
      _evaluate_space_availability (mkPos 5 5) 3 (table_of (Int 0))
        (mkTable true true false true) lone_state = Ok scores'
      /\ all_int scores'.
Proof.
  assert (H : all_int (table_of (Int 0))).
  { intros m. exists 0. destruct m; reflexivity. }
  split; [exact H|].
  destruct (space_layer_on_int_scores (mkPos 5 5) 3 (table_of (Int 0))
              (mkTable true true false true) lone_state H)
    as (scores' & Hrun & Hint & _).
  exists scores'. split; [exact Hrun | exact Hint].
Defined.

(** On [lone_state] (3 segments, health 90) the threshold is 6 and the
    turn is neither aggressive nor critical. *)
Lemma turn_mode_gating_witness :
  6 <= dynamic_threshold lone_scored <= 11
  /\ (is_aggressive lone_scored = true <->
      dynamic_threshold lone_scored <= len (snake_body (you lone_state))
      /\ 30 < snake_health (you lone_state))
  /\ (is_critical lone_scored = true <-> snake_health (you lone_state) < 15)
  /\ (is_aggressive lone_scored = true ->
      is_critical lone_scored = false /\ 6 <= len (snake_body (you lone_state))).
Proof.
  apply (turn_mode_gating lone_state [] lone_scored).
  vm_compute. reflexivity.
Defined.

(** On [lone_state] the move returned leads from (5,5) to a free cell of
    the board. *)
Lemma returned_move_avoids_walls_and_bodies_witness :
  exists m,
    fst (move lone_state []) = Ok m
    /\ inside (_get_next_position (mkPos 5 5) m)
              (width (board lone_state)) (height (board lone_state))
    /\ nth_error (snake_body (you lone_state)) 1 <> Some (_get_next_position (mkPos 5 5) m)
    /\ ~ In (_get_next_position (mkPos 5 5) m) (removelast (snake_body (you lone_state)))
    /\ (forall o, In o (opponents_of lone_state) ->
                  ~ In (_get_next_position (mkPos 5 5) m) (removelast (snake_body o))).
Proof.
  apply (returned_move_avoids_walls_and_bodies lone_state [] lone_scored
           (mkPos 5 5) [mkPos 4 5; mkPos 3 5]).
  - reflexivity.
  - vm_compute. reflexivity.
  - exists Up. split; vm_compute; reflexivity.
Defined.

(** On [trapped_state], a well-formed snapshot in which no move is safe,
    [move] answers up. *)
Lemma move_answers_and_falls_back_to_up_witness :
  well_formed trapped_state = true
  /\ (forall m, get m (final_scores trapped_scored) = Int (-10000))
  /\ fst (move trapped_state []) = Ok Up.
Proof.
  split; [vm_compute; reflexivity|].
  assert (H : fst (evaluate_layers trapped_state []) = Ok trapped_scored)
    by (vm_compute; reflexivity).
  destruct (move_answers_and_falls_back_to_up trapped_state [] trapped_scored H)
    as (_ & Hup).
  apply Hup. intros m. destruct m; reflexivity.
Defined.

(** On [bodiless_state], where an opponent has no body, [move] raises. *)
Lemma move_needs_bodies_witness :
  exists e, fst (move bodiless_state []) = Raise e.
Proof.
  apply (proj2 (move_needs_bodies bodiless_state [])).
  exists (mkSnake "ghost" [] 90). split; [|reflexivity].
  vm_compute. left. reflexivity.
Defined.

(** ** The options of the emergency strategy *)

Lemma lt_int (a b : Z) : Py.lt (Int a) (Int b) = (a <? b).
Proof.
  unfold Py.lt, cmp, num_key, key_ltb. rewrite !Z.shiftl_mul_pow2 by lia.
  assert (Hp : 0 < 2 ^ 1074) by (apply Z.pow_pos_nonneg; lia).
  destruct (Z.ltb_spec a b) as [H|H].
  - apply Z.ltb_lt. apply Z.mul_lt_mono_pos_r; assumption.
  - apply Z.ltb_ge. apply Z.mul_le_mono_nonneg_r; [lia | assumption].
Qed.

(** [min] over integer keys returns the first minimal item. *)
Lemma min_from_first {A : Type} (d : A -> Z) (l before mid : list A) (best : A) :
  (forall x, In x before -> d best < d x) ->
  (forall x, In x mid -> d best <= d x) ->
  exists before' after',
    before ++ best :: mid ++ l
    = before' ++ min_from (fun x => Int (d x)) best l :: after'
    /\ (forall x, In x before' -> d (min_from (fun x => Int (d x)) best l) < d x)
    /\ (forall x, In x after' -> d (min_from (fun x => Int (d x)) best l) <= d x).
Proof.
  revert before mid best. induction l as [|x l IH]; intros before mid best Hb Hm;
    cbn [min_from].
  - exists before, mid. rewrite app_nil_r. auto.
  - rewrite lt_int. destruct (Z.ltb_spec (d x) (d best)) as [E|E].
    + destruct (IH (before ++ best :: mid) [] x) as (b & a & Heq & Hlt & Hle).
      * intros y Hy. apply in_app_or in Hy as [Hy|[<-|Hy]].
        -- specialize (Hb y Hy). lia.
        -- exact E.
        -- specialize (Hm y Hy). lia.
      * intros y [].
      * exists b, a. split; [|auto]. rewrite <- Heq. cbn [app].
        rewrite <- app_assoc. cbn [app]. reflexivity.
    + destruct (IH before (mid ++ [x]) best Hb) as (b & a & Heq & Hlt & Hle).
      * intros y Hy. apply in_app_or in Hy as [Hy|[<-|[]]]; [auto | exact E].
      * exists b, a. split; [|auto]. rewrite <- Heq. rewrite <- app_assoc. reflexivity.
Qed.

(** X11: the food option of the emergency strategy. Without food there is
    none. An option targets the first food item at the least Manhattan
    distance from Self's head, that distance is below Self's health, and
    its score is 500 / (distance + 1); no option with food on the board
    means that every item is at least [my_health] cells away. *)
Theorem emergency_food_choice (my_head : Pos) (my_health : Z) (food : list Pos) :
  (food = [] -> emergency_food_option my_head my_health food = Ok None)
  /\ (forall best_food_option,
         emergency_food_option my_head my_health food = Ok (Some best_food_option) ->
         let target := food_target best_food_option in
         let distance := food_distance best_food_option in
         distance = _manhattan_distance my_head target
         /\ distance < my_health
         /\ Py.truediv (Int 500) (Int (distance + 1)) = Ok (food_score best_food_option)
         /\ exists before after,
             food = before ++ target :: after
             /\ (forall f, In f before -> distance < _manhattan_distance my_head f)
             /\ (forall f, In f after -> distance <= _manhattan_distance my_head f))
  /\ (emergency_food_option my_head my_health food = Ok None ->
      forall f, In f food -> my_health <= _manhattan_distance my_head f).
Proof.
  split; [intros ->; reflexivity|].
  destruct food as [|f0 food']; [split; [discriminate | intros _ f []]|].
  unfold emergency_food_option. cbn [Py.min_by mbind result_bind Py.bind].
  destruct (min_from_first (_manhattan_distance my_head) food' [] [] f0)
    as (before & after & Heq & Hlt & Hle); [intros x []|intros x []|].
  cbn [app] in Heq.
  set (closest := min_from (fun f => Int (_manhattan_distance my_head f)) f0 food') in *.
  destruct (Z.ltb_spec (_manhattan_distance my_head closest) my_health) as [E|E].
  - split; [|intros H; apply bind_Ok in H as (? & _ & H); discriminate].
    intros opt H. apply bind_Ok in H as (score & Hscore & H).
    injection H as <-. cbn [food_target food_distance food_score].
    split; [reflexivity|]. split; [exact E|]. split; [exact Hscore|].
    exists before, after. auto.
  - split; [discriminate|]. intros _ f Hf. rewrite Heq in Hf.
    apply in_app_or in Hf as [Hf|[<-|Hf]].
    + specialize (Hlt f Hf). lia.
    + exact E.
    + specialize (Hle f Hf). lia.
Qed.

Lemma for_each_invariant {A S : Type} (P : S -> Prop) (body : A -> S -> result S)
      (l : list A) :
  (forall x s s', In x l -> P s -> body x s = Ok s' -> P s') ->
  forall s s', P s -> for_each body l s = Ok s' -> P s'.
Proof.
  induction l as [|x l IH]; intros Hbody s s' Hs H.
  - cbn in H. injection H as <-. exact Hs.
  - cbn in H. destruct (body x s) as [s1|] eqn:E; cbn in H; [|discriminate].
    apply (IH (fun y t t' Hy => Hbody y t t' (or_intror Hy)) s1 s'); [|exact H].
    apply (Hbody x s s1); [left; reflexivity | exact Hs | exact E].
Qed.

(** X12: the hunt option of the emergency strategy, when there is one, was
    built from an opponent of the list that is strictly shorter than Self,
    has at least 3 segments, and whose head is less than [my_health - 5]
    cells from Self's head; its score is above 50. So hunting needs a Self
    of at least 4 segments with a health above 5. *)
Theorem hunt_option_is_worthwhile
        (my_head : Pos) (my_length my_health : Z) (opponents : list Snake)
        (game_state : GameState) (best_hunt_option : HuntOption) :
  for_each (hunt_step my_head my_length my_health opponents game_state) opponents None
  = Ok (Some best_hunt_option) ->
  (exists opponent,
      In opponent opponents
      /\ hunt_option_of my_head my_length my_health opponents game_state
                        opponent best_hunt_option
      /\ HUNT_REWARD_THRESHOLD <= len (snake_body opponent) < my_length
      /\ hunt_distance best_hunt_option < my_health - 5)
  /\ Py.gt (hunt_score best_hunt_option) (Int 50) = true
  /\ 4 <= my_length
  /\ 5 < my_health.
Proof.
  intros H.
  pose (P := fun best : option HuntOption =>
               match best with
               | None => True
               | Some h =>
                   (exists opponent,
                       In opponent opponents
                       /\ hunt_option_of my_head my_length my_health opponents game_state
                                         opponent h
                       /\ HUNT_REWARD_THRESHOLD <= len (snake_body opponent) < my_length
                       /\ hunt_distance h < my_health - 5)
                   /\ Py.gt (hunt_score h) (Int 50) = true
               end).
  assert (HP : P (Some best_hunt_option)).
  { apply (for_each_invariant P
             (hunt_step my_head my_length my_health opponents game_state) opponents)
      with (s := None); [|exact I|exact H].
    clear H. intros o best best' Ho Hbest Hstep. unfold hunt_step in Hstep.
    apply bind_Ok in Hstep as (opponent_head & Hhead & Hstep).
    destruct (Z.leb_spec my_length (len (snake_body o))) as [E1|E1];
      [injection Hstep as <-; exact Hbest|].
    destruct (Z.leb_spec (my_health - 5) (_manhattan_distance my_head opponent_head))
      as [E2|E2]; [injection Hstep as <-; exact Hbest|].
    apply bind_Ok in Hstep as (threat & Hthreat & Hstep).
    apply bind_Ok in Hstep as (s1 & _ & Hstep).
    apply bind_Ok in Hstep as (s2 & _ & Hstep).
    apply bind_Ok in Hstep as (score & _ & Hstep).
    destruct (Py.gt score (Int 50)) eqn:E3; cbn [andb] in Hstep;
      [|injection Hstep as <-; exact Hbest].
    destruct (Z.leb_spec HUNT_REWARD_THRESHOLD (len (snake_body o))) as [E4|E4];
      [|injection Hstep as <-; exact Hbest].
    case_if_in Hstep; injection Hstep as <-; [|exact Hbest].
    cbn [P]. split; [|exact E3].
    exists o. split; [exact Ho|]. split; [|cbn [hunt_distance]; lia].
    unfold hunt_option_of. cbn [hunt_target hunt_distance hunt_third_party_risk hunt_path_safe].
    auto. }
  cbn [P] in HP. destruct HP as [(o & Ho & Hof & Hlen & Hd) Hscore].
  split; [exists o; auto|]. split; [exact Hscore|].
  unfold HUNT_REWARD_THRESHOLD in Hlen.
  destruct Hof as (_ & Hdist & _). rewrite Hdist in Hd.
  assert (0 <= _manhattan_distance my_head (hunt_target best_hunt_option))
    by (unfold _manhattan_distance; lia).
  lia.
Qed.

(** ** The smart food choice *)

Lemma map_result_fst {A B : Type} (f : A -> result (A * B)) (l : list A) (l' : list (A * B)) :
  (forall x y, f x = Ok y -> fst y = x) ->
  map_result f l = Ok l' -> map fst l' = l.
Proof.
  intros Hf. revert l'. induction l as [|x l IH]; intros l' H; cbn in H.
  - injection H as <-. reflexivity.
  - apply bind_Ok in H as (y & Hy & H). apply bind_Ok in H as (ys & Hys & H).
    injection H as <-. cbn. rewrite (Hf x y Hy), (IH ys Hys). reflexivity.
Qed.

(** X13: the smart food choice pulls the safe moves toward one food item
    of the list: each safe move gains weight / (distance from the cell it
    leads to, to that item, + 1), with weight 200 on a critical turn, 100
    when food is needed, 30 otherwise; unsafe moves keep their score. On an
    empty food list it raises [ValueError]. *)
Theorem food_seeking_smart_target
        (my_head : Pos) (food : list Pos) (move_scores : Table num) (safe_mask : Table bool)
        (is_critical need_food : bool) (game_state : GameState) :
  (food = [] ->
   _evaluate_food_seeking_smart my_head food move_scores safe_mask is_critical need_food
     game_state = Raise ValueError)
  /\ (forall scores',
         _evaluate_food_seeking_smart my_head food move_scores safe_mask is_critical
           need_food game_state = Ok scores' ->
         exists best_food,
           In best_food food
           /\ projected my_head safe_mask
                (Int (if is_critical then 200 else if need_food then 100 else 30))
                best_food move_scores scores').
Proof.
  split; [intros ->; reflexivity|].
  intros scores' H. unfold _evaluate_food_seeking_smart in H.
  apply bind_Ok in H as (food_evaluations & Hevals & H).
  apply bind_Ok in H as (best & Hbest & H).
  exists (fst best). split.
  - apply map_result_fst in Hevals.
    2:{ intros f y Hy. repeat (apply bind_Ok in Hy as (? & _ & Hy)).
        injection Hy as <-. reflexivity. }
    rewrite <- Hevals. apply in_map.
    destruct food_evaluations as [|e es]; [discriminate|].
    cbn [Py.max_by] in Hbest. injection Hbest as <-. apply max_from_In.
  - intros m. pose proof (on_safe_moves_spec _ _ _ _ H m) as Hm. cbv beta zeta in Hm.
    destruct (get m safe_mask); [|exact Hm].
    apply bind_Ok in Hm as (q & Hq & Hadd). exists q. auto.
Qed.

(** ** Threat estimates *)

(** X14: [_count_threats_near] returns the float 0 when no opponent is a
    contender for the food item: every opponent is farther from it than
    Self, or shorter than Self. *)
Theorem no_threat_without_contender
        (food_pos : Pos) (opponents : list Snake) (my_length : Z) (my_head : Pos) :
  (forall o, In o opponents ->
             exists opp_head rest,
               snake_body o = opp_head :: rest
               /\ (_manhattan_distance my_head food_pos < _manhattan_distance opp_head food_pos
                   \/ len (snake_body o) < my_length)) ->
  _count_threats_near food_pos opponents my_length my_head = Ok (Float 0).
Proof.
  intros H. unfold _count_threats_near. apply for_each_noop. intros o Ho.
  destruct (H o Ho) as (opp_head & rest & Hbody & Hfar).
  rewrite Hbody. cbn [Py.first mbind result_bind Py.bind]. rewrite <- Hbody.
  destruct (Z.leb_spec (_manhattan_distance opp_head food_pos)
                       (_manhattan_distance my_head food_pos)) as [E1|E1];
    [|reflexivity].
  destruct (Z.leb_spec my_length (len (snake_body o))) as [E2|E2]; [|reflexivity].
  lia.
Qed.

(** X15: the third-party threat of a hunt is the integer 0 when every
    entry of the opponent list either has the target's id (it is skipped
    unread) or is shorter than Self or has its head more than 5 cells from
    the target's head. *)
Theorem no_third_party_without_rival
        (my_length : Z) (opponent : Snake) (opponent_head : Pos) (opponents : list Snake) :
  (forall other, In other opponents ->
                 snake_id other = snake_id opponent
                 \/ exists other_head rest,
                     snake_body other = other_head :: rest
                     /\ (len (snake_body other) < my_length
                         \/ 5 < _manhattan_distance opponent_head other_head)) ->
  third_party_threat_of my_length opponent opponent_head opponents = Ok (Int 0).
Proof.
  intros H. unfold third_party_threat_of. apply for_each_noop. intros other Ho.
  destruct (String.eqb_spec (snake_id other) (snake_id opponent)) as [E|E]; [reflexivity|].
  destruct (H other Ho) as [Hid|(other_head & rest & Hbody & Hfar)]; [contradiction|].
  rewrite Hbody. cbn [Py.first mbind result_bind Py.bind]. rewrite <- Hbody.
  destruct (Z.leb_spec my_length (len (snake_body other))) as [E1|E1]; [|reflexivity].
  destruct (Z.leb_spec (_manhattan_distance opponent_head other_head) 5) as [E2|E2];
    [|reflexivity].
  lia.
Qed.

(** ** What a turn prints *)

Lemma io_bind_run {Ev A B : Type} (m : io Ev A) (k : A -> io Ev B) (out out' : list Ev)
      (b : B) :
  (m ≫= k) out = (Ok b, out') ->
  exists a out1, m out = (Ok a, out1) /\ k a out1 = (Ok b, out').
Proof.
  unfold mbind, io_mbind, io_bind. destruct (m out) as [[a|e] out1]; [eauto | discriminate].
Qed.

Ltac run_io H :=
  let a := fresh "a" in
  let o := fresh "o" in
  let Ha := fresh "Ha" in
  apply io_bind_run in H as (a & o & Ha & H);
  first [ apply io_lift_Ok in Ha as [Ha ->] | idtac ].

Ltac run_print H :=
  let Hp := fresh "Hp" in
  apply io_bind_run in H as (? & ? & Hp & H);
  unfold print in Hp; injection Hp as _ <-.

Lemma emergency_output my_head my_length my_health food opponents scores safe_mask g
      (out out' : list Line) (scores' : Table num) :
  _evaluate_emergency_strategy_enhanced my_head my_length my_health food opponents
    scores safe_mask g out = (Ok scores', out') ->
  out' = out \/ exists line, out' = out ++ [line] /\ is_emergency_line line = true.
Proof.
  unfold _evaluate_emergency_strategy_enhanced. intros H.
  run_io H. run_io H.
  destruct a0 as [best_hunt|], a as [best_food|].
  - run_io H. case_if_in H; run_io H; run_print H; unfold io_ret in H;
      injection H as _ <-; right; eexists; split; reflexivity.
  - run_io H. run_print H. unfold io_ret in H. injection H as _ <-.
    right. eexists. split; reflexivity.
  - run_io H. run_print H. unfold io_ret in H. injection H as _ <-.
    right. eexists. split; reflexivity.
  - unfold io_ret in H. injection H as _ <-. left. reflexivity.
Qed.

Lemma evaluate_layers_output (game_state : GameState) (out out' : list Line)
      (scored : Scored) :
  evaluate_layers game_state out = (Ok scored, out') ->
  out' = out
  \/ exists line,
      out' = out ++ [line] /\ is_emergency_line line = true
      /\ snake_health (you game_state) < 15 /\ opponents_of game_state <> [].
Proof.
  unfold evaluate_layers. intros H.
  run_io H. run_io H. destruct a0 as [mask scores1].
  run_io H. run_io H. rename a1 into threshold.
  apply io_bind_run in H as (scores3 & o3 & H3 & H).
  apply io_bind_run in H as (scores4 & o4 & H4 & H).
  apply io_bind_run in H as (scores5 & o5 & H5 & H).
  run_io H. unfold io_ret in H. injection H as _ <-.
  assert (E5 : o5 = o4).
  { case_if_in H5; [apply io_lift_Ok in H5 as [_ ->] | injection H5 as _ <-]; reflexivity. }
  assert (E4 : o4 = o3).
  { case_if_in H4; [apply io_lift_Ok in H4 as [_ ->] | injection H4 as _ <-]; reflexivity. }
  subst o5 o4.
  unfold CRITICAL_HEALTH_THRESHOLD in H3.
  destruct (Z.ltb_spec (snake_health (you game_state)) 15) as [Ec|Ec]; cbn [andb] in H3.
  - destruct (bool_decide (opponents_of game_state = [])) eqn:Eo; cbn [negb] in H3.
    + left. case_if_in H3; [apply io_lift_Ok in H3 as [_ ->] | injection H3 as _ <-];
        reflexivity.
    + apply bool_decide_eq_false in Eo. apply emergency_output in H3 as [->|(l & -> & Hl)];
        [left; reflexivity | right; eauto].
  - left. case_if_in H3; [apply io_lift_Ok in H3 as [_ ->] | injection H3 as _ <-];
      reflexivity.
Qed.

(** X16: a turn that returns a move leaves what was printed before it and
    appends at most two lines: first an [EMERGENCY] line, only when
    Self's health is below 15 and there is an opponent, then exactly one
    [MOVE] line carrying the turn number and the move returned; that line
    says [NO SAFE MOVES] exactly when no move has mask true and a score
    above -9000, and otherwise gives the mode ([CRITICAL] below health 15,
    else [AGGRESSIVE] when Self is at least as long as the threshold and
    its health is above 30, else [SURVIVAL]) and the threshold. *)
Theorem move_prints_its_decision
        (game_state : GameState) (out out' : list Line) (m : Move) :
  move game_state out = (Ok m, out') ->
  exists scored pre,
    fst (evaluate_layers game_state out) = Ok scored
    /\ out' = out ++ pre
              ++ [match safe_moves_of (safe_moves_mask scored) (final_scores scored) with
                  | [] => MoveNoSafeMoves (turn game_state) m
                  | _ :: _ => MoveLine (turn game_state) m
                                       (mode_of game_state (dynamic_threshold scored))
                                       (dynamic_threshold scored)
                  end]
    /\ (pre = []
        \/ exists line,
            pre = [line] /\ is_emergency_line line = true
            /\ snake_health (you game_state) < 15 /\ opponents_of game_state <> []).
Proof.
  intros H. unfold move in H.
  apply io_bind_run in H as (scored & o1 & Hrun & H).
  run_io H. rename a into next_move.
  run_print H. unfold io_ret in H. injection H as <- <-.
  assert (Hfst : fst (evaluate_layers game_state out) = Ok scored)
    by (rewrite Hrun; reflexivity).
  destruct (evaluate_layers_flags _ _ _ Hfst) as (_ & Hagg & Hcrit).
  assert (Hmode : (if is_critical scored then CRITICAL
                   else if is_aggressive scored then AGGRESSIVE else SURVIVAL)
                  = mode_of game_state (dynamic_threshold scored)).
  { unfold mode_of. rewrite Hagg, Hcrit. reflexivity. }
  rewrite Hmode.
  apply evaluate_layers_output in Hrun as [->|(line & -> & Hline)].
  - exists scored, []. split; [exact Hfst|]. split; [reflexivity | left; reflexivity].
  - exists scored, [line]. split; [exact Hfst|]. split; [|right; eauto].
    rewrite <- app_assoc. reflexivity.
Qed.

(** ** The space estimate at a target cell *)

Lemma flood_fill_range (start_pos : Pos) (game_state : GameState) :
  1 <= _flood_fill_dynamic start_pos game_state
  /\ _flood_fill_dynamic start_pos game_state
     <= flood_base_max (width (board game_state) * height (board game_state))
  /\ _flood_fill_dynamic start_pos game_state
     <= Z.max 1 (3 * len (snake_body (you game_state))).
Proof.
  pose proof (flood_base_max_range (width (board game_state) * height (board game_state)))
    as Hcap.
  unfold _flood_fill_dynamic. cbv zeta.
  set (cap := flood_base_max _) in *. set (safe_space := len _ * 3).
  split; [|split].
  - rewrite flood_loop_counts.
    destruct (Z.to_nat cap) as [|r] eqn:E; [lia|].
    pose proof (flood_trace_nonempty r safe_space (width (board game_state))
                  (height (board game_state)) (flood_obstacles game_state) start_pos []
                  {[tuple start_pos]} 0). lia.
  - rewrite flood_loop_counts.
    pose proof (flood_trace_length (Z.to_nat cap) safe_space (width (board game_state))
                  (height (board game_state)) (flood_obstacles game_state)
                  [start_pos] {[tuple start_pos]} 0). lia.
  - etransitivity; [apply flood_loop_early_exit|]. unfold safe_space. lia.
Qed.

Lemma removelast_length {A : Type} (l : list A) :
  length (removelast l) = Nat.pred (length l).
Proof.
  induction l as [|x [|y l] IH]; [reflexivity | reflexivity|].
  change (removelast (x :: y :: l)) with (x :: removelast (y :: l)).
  cbn [length] in *. rewrite IH. reflexivity.
Qed.

Lemma removelast_cons_In {A : Type} (x p : A) (l : list A) :
  In p (removelast (x :: l)) <-> l <> [] /\ (p = x \/ In p (removelast l)).
Proof.
  destruct l as [|y l]; cbn [removelast].
  - split; [intros [] | intros [H _]; contradiction].
  - split.
    + intros [<-|H]; (split; [discriminate|]); [left; reflexivity | right; exact H].
    + intros [_ [->|H]]; [left; reflexivity | right; exact H].
Qed.

(** X17: [_estimate_space_after_reaching] floods from the target cell in a
    state where Self's head is on the target and its tail has moved up:
    the opponents are those of the turn; the obstacles are the opponents'
    bodies without their tails and, for a Self of at least two segments,
    the target cell itself and Self's body without its last two segments.
    The estimate is at least 1, at most the iteration cap of the board and
    at most three times Self's length. *)
Theorem space_estimate_after_reaching (food_pos : Pos) (game_state : GameState) :
  let temp_state := with_head_at food_pos game_state in
  let my_body := snake_body (you game_state) in
  let space := _estimate_space_after_reaching food_pos game_state in
  opponents_of temp_state = opponents_of game_state
  /\ len (snake_body (you temp_state)) = Z.max 1 (len my_body)
  /\ (forall p, tuple p ∈ flood_obstacles temp_state <->
                (removelast my_body <> []
                 /\ (p = food_pos \/ In p (removelast (removelast my_body))))
                \/ exists s, In s (opponents_of game_state)
                             /\ In p (removelast (snake_body s)))
  /\ 1 <= space
  /\ space <= flood_base_max (width (board game_state) * height (board game_state))
  /\ space <= Z.max 1 (3 * Z.max 1 (len my_body)).
Proof.
  intros temp_state my_body space.
  assert (Hopp : opponents_of temp_state = opponents_of game_state) by reflexivity.
  assert (Hlen : len (snake_body (you temp_state)) = Z.max 1 (len my_body)).
  { unfold temp_state, with_head_at, but_last, len, my_body. cbn [you snake_body length].
    rewrite removelast_length.
    destruct (snake_body (you game_state)) as [|x l]; [reflexivity|].
    cbn [length Nat.pred]. lia. }
  split; [exact Hopp|]. split; [exact Hlen|]. split.
  - intros p. rewrite flood_obstacles_spec, Hopp.
    unfold temp_state, with_head_at, but_last. cbn [you snake_body].
    rewrite removelast_cons_In. reflexivity.
  - destruct (flood_fill_range food_pos temp_state) as (H1 & H2 & H3).
    rewrite Hlen in H3. auto.
Qed.

(** ** A critical turn without options, and the turn number *)

Lemma min_from_In {A : Type} (k : A -> num) (l : list A) (best : A) :
  In (min_from k best l) (best :: l).
Proof.
  revert best. induction l as [|x l IH]; intros best; cbn [min_from].
  - left. reflexivity.
  - destruct (IH (if Py.lt (k x) (k best) then x else best)) as [E|H].
    + destruct (Py.lt (k x) (k best)); rewrite <- E; [right; left | left]; reflexivity.
    + right. right. exact H.
Qed.

Lemma food_option_none (my_head : Pos) (my_health : Z) (food : list Pos) :
  (forall f, In f food -> my_health <= _manhattan_distance my_head f) ->
  emergency_food_option my_head my_health food = Ok None.
Proof.
  intros H. destruct food as [|f0 food']; [reflexivity|].
  unfold emergency_food_option. cbn [Py.min_by mbind result_bind Py.bind].
  pose proof (min_from_In (fun f => Int (_manhattan_distance my_head f)) food' f0) as Hin.
  destruct (Z.ltb_spec (_manhattan_distance my_head
                          (min_from (fun f => Int (_manhattan_distance my_head f)) f0 food'))
                       my_health) as [E|E]; [|reflexivity].
  specialize (H _ Hin). lia.
Qed.

Lemma hunt_option_none (my_head : Pos) (my_length my_health : Z) (opponents l : list Snake)
      (game_state : GameState) :
  (forall o, In o l ->
             exists opponent_head rest,
               snake_body o = opponent_head :: rest
               /\ (my_length <= len (snake_body o)
                   \/ my_health - 5 <= _manhattan_distance my_head opponent_head)) ->
  for_each (hunt_step my_head my_length my_health opponents game_state) l None = Ok None.
Proof.
  intros H. apply for_each_noop. intros o Ho.
  destruct (H o Ho) as (opponent_head & rest & Hbody & Hno).
  unfold hunt_step. rewrite Hbody. cbn [Py.first mbind result_bind Py.bind].
  rewrite <- Hbody.
  destruct (Z.leb_spec my_length (len (snake_body o))) as [E1|E1]; [reflexivity|].
  destruct (Z.leb_spec (my_health - 5) (_manhattan_distance my_head opponent_head))
    as [E2|E2]; [reflexivity|].
  lia.
Qed.

(** X18: the emergency strategy changes no score and prints nothing when
    it has no option: every food item is at least [my_health] cells from
    Self's head, and every opponent is at least as long as Self or has its
    head at least [my_health - 5] cells away. *)
Theorem emergency_without_options
        (my_head : Pos) (my_length my_health : Z) (food : list Pos) (opponents : list Snake)
        (move_scores : Table num) (safe_mask : Table bool) (game_state : GameState)
        (out : list Line) :
  (forall f, In f food -> my_health <= _manhattan_distance my_head f) ->
  (forall o, In o opponents ->
             exists opponent_head rest,
               snake_body o = opponent_head :: rest
               /\ (my_length <= len (snake_body o)
                   \/ my_health - 5 <= _manhattan_distance my_head opponent_head)) ->
  _evaluate_emergency_strategy_enhanced my_head my_length my_health food opponents
    move_scores safe_mask game_state out
  = (Ok move_scores, out).
Proof.
  intros Hfood Hopp. unfold _evaluate_emergency_strategy_enhanced.
  unfold mbind, io_mbind, io_bind, lift.
  rewrite (food_option_none _ _ _ Hfood).
  rewrite (hunt_option_none _ _ _ opponents opponents game_state Hopp).
  reflexivity.
Qed.

(** X19: the move does not depend on the turn number: with another turn
    number in the game state, [move] returns the same move or raises the
    same exception. The number only shows in the line printed. *)
Theorem move_ignores_turn_number (game_state : GameState) (other_turn : Z) (out : list Line) :
  fst (move (mkGameState other_turn (board game_state) (you game_state)) out)
  = fst (move game_state out).
Proof.
  unfold move.
  change (evaluate_layers (mkGameState other_turn (board game_state) (you game_state)))
    with (evaluate_layers game_state).
  unfold mbind, io_mbind, io_bind.
  destruct (evaluate_layers game_state out) as [[scored|e] o]; [|reflexivity].
  unfold lift. destruct (choose_move _ _); reflexivity.
Qed.

(** ** The health of the snakes on the board *)

Lemma for_each_map {A B S : Type} (g : A -> B) (body : B -> S -> result S) (l : list A)
      (s : S) :
  for_each body (map g l) s = for_each (fun x => body (g x)) l s.
Proof.
  revert s. induction l as [|x l IH]; intros s; cbn; [reflexivity|].
  destruct (body (g x) s); cbn; [apply IH | reflexivity].
Qed.

Lemma foldl_map_same {A S : Type} (g : A -> A) (step : S -> A -> S) (l : list A) (acc : S) :
  (forall acc x, step acc (g x) = step acc x) ->
  foldl step acc (map g l) = foldl step acc l.
Proof.
  intros H. revert acc. induction l as [|x l IH]; intros acc; cbn; [reflexivity|].
  rewrite H. apply IH.
Qed.

Lemma on_safe_moves_ext (safe_mask : Table bool) (f g : Move -> num -> result num)
      (scores : Table num) :
  (forall m v, f m v = g m v) ->
  on_safe_moves safe_mask f scores = on_safe_moves safe_mask g scores.
Proof.
  intros H. unfold on_safe_moves. apply for_each_ext. intros m s. rewrite H. reflexivity.
Qed.

Lemma map_result_ext {A B : Type} (f g : A -> result B) (l : list A) :
  (forall x, f x = g x) -> map_result f l = map_result g l.
Proof.
  intros H. induction l as [|x l IH]; cbn; [reflexivity|]. rewrite H, IH. reflexivity.
Qed.

Lemma io_bind_ext {Ev A B : Type} (m m' : io Ev A) (k k' : A -> io Ev B) (out : list Ev) :
  m out = m' out ->
  (forall a o, k a o = k' a o) ->
  (m ≫= k) out = (m' ≫= k') out.
Proof.
  intros Hm Hk. unfold mbind, io_mbind, io_bind. rewrite Hm.
  destruct (m' out) as [[a|e] o]; [apply Hk | reflexivity].
Qed.

Section BoardHealth.

Variable health : Snake -> Z.
Variable game_state : GameState.

Let other_state : GameState := with_board_health health game_state.

Lemma opponents_of_with_health :
  opponents_of other_state = map (with_health health) (opponents_of game_state).
Proof.
  unfold opponents_of, other_state, with_board_health. cbn [snakes board you].
  induction (snakes (board game_state)) as [|s l IH]; cbn [map List.filter]; [reflexivity|].
  cbn [with_health snake_id].
  destruct (negb (String.eqb (snake_id s) (snake_id (you game_state)))); cbn [map];
    rewrite IH; reflexivity.
Qed.

Lemma flood_obstacles_with_health (g g' : GameState) :
  you g' = you g ->
  snakes (board g') = map (with_health health) (snakes (board g)) ->
  flood_obstacles g' = flood_obstacles g.
Proof.
  intros Hyou Hsnakes. unfold flood_obstacles. cbv zeta. rewrite Hyou, Hsnakes.
  apply foldl_map_same. intros acc s. reflexivity.
Qed.

Lemma flood_fill_with_health (start_pos : Pos) (g g' : GameState) :
  you g' = you g ->
  width (board g') = width (board g) ->
  height (board g') = height (board g) ->
  snakes (board g') = map (with_health health) (snakes (board g)) ->
  _flood_fill_dynamic start_pos g' = _flood_fill_dynamic start_pos g.
Proof.
  intros Hyou Hw Hh Hsnakes. unfold _flood_fill_dynamic. cbv zeta.
  rewrite (flood_obstacles_with_health g g' Hyou Hsnakes), Hyou, Hw, Hh. reflexivity.
Qed.

Lemma collision_with_health (p : Pos) (opponents : list Snake) (exclude_tails : bool) :
  _is_collision_with_opponents p (map (with_health health) opponents) exclude_tails
  = _is_collision_with_opponents p opponents exclude_tails.
Proof.
  unfold _is_collision_with_opponents.
  induction opponents as [|o l IH]; cbn [map existsb]; [reflexivity|].
  rewrite IH. reflexivity.
Qed.

Lemma basic_safety_with_health my_head my_body opponents w h scores :
  _evaluate_basic_safety my_head my_body (map (with_health health) opponents) w h scores
  = _evaluate_basic_safety my_head my_body opponents w h scores.
Proof.
  unfold _evaluate_basic_safety. apply for_each_ext. intros m st.
  unfold basic_safety_step. rewrite collision_with_health. reflexivity.
Qed.

Lemma space_with_health my_head my_length scores safe_mask :
  _evaluate_space_availability my_head my_length scores safe_mask other_state
  = _evaluate_space_availability my_head my_length scores safe_mask game_state.
Proof.
  unfold _evaluate_space_availability. apply on_safe_moves_ext. intros m v. cbv zeta.
  rewrite (flood_fill_with_health _ game_state other_state); reflexivity.
Qed.

Lemma lengths_with_health (opponents : list Snake) :
  map (fun s => len (snake_body s)) (map (with_health health) opponents)
  = map (fun s => len (snake_body s)) opponents.
Proof. rewrite map_map. reflexivity. Qed.

Lemma threshold_with_health :
  _calculate_dynamic_aggressive_threshold other_state
  = _calculate_dynamic_aggressive_threshold game_state.
Proof.
  unfold _calculate_dynamic_aggressive_threshold. cbv zeta.
  rewrite opponents_of_with_health.
  change (snake_body (you other_state)) with (snake_body (you game_state)).
  destruct (opponents_of game_state) as [|o l]; [reflexivity|].
  assert (Havg : average_length (map (with_health health) (o :: l)) = average_length (o :: l)).
  { unfold average_length, sum_lengths, len.
    rewrite lengths_with_health, length_map. reflexivity. }
  assert (Hmax : max_length (map (with_health health) (o :: l)) = max_length (o :: l)).
  { unfold max_length. cbn [map]. rewrite lengths_with_health. reflexivity. }
  assert (Hlen : len (map (with_health health) (o :: l)) = len (o :: l)).
  { unfold len. rewrite length_map. reflexivity. }
  rewrite Havg, Hmax, Hlen. reflexivity.
Qed.

Lemma third_party_with_health my_length opponent opponent_head opponents :
  third_party_threat_of my_length (with_health health opponent) opponent_head
                        (map (with_health health) opponents)
  = third_party_threat_of my_length opponent opponent_head opponents.
Proof. unfold third_party_threat_of. rewrite for_each_map. reflexivity. Qed.

Lemma hunt_with_health my_head my_length my_health opponents :
  for_each (hunt_step my_head my_length my_health (map (with_health health) opponents)
                      other_state)
           (map (with_health health) opponents) None
  = for_each (hunt_step my_head my_length my_health opponents game_state) opponents None.
Proof.
  rewrite for_each_map. apply for_each_ext. intros o best. unfold hunt_step.
  cbn [with_health snake_body]. cbv zeta.
  destruct (Py.first (snake_body o)) as [opponent_head|e]; [|reflexivity].
  cbn [mbind result_bind Py.bind].
  change (mkSnake (snake_id o) (snake_body o) (health o)) with (with_health health o).
  rewrite third_party_with_health.
  rewrite (flood_fill_with_health opponent_head (with_head_at opponent_head game_state)
             (with_head_at opponent_head other_state)); reflexivity.
Qed.

Lemma emergency_with_health my_head my_length my_health food opponents scores safe_mask out :
  _evaluate_emergency_strategy_enhanced my_head my_length my_health food
    (map (with_health health) opponents) scores safe_mask other_state out
  = _evaluate_emergency_strategy_enhanced my_head my_length my_health food
      opponents scores safe_mask game_state out.
Proof.
  unfold _evaluate_emergency_strategy_enhanced.
  apply io_bind_ext; [reflexivity|]. intros best_food o.
  apply io_bind_ext; [|reflexivity]. unfold lift. rewrite hunt_with_health. reflexivity.
Qed.

Lemma food_smart_with_health my_head food scores safe_mask is_critical need_food :
  _evaluate_food_seeking_smart my_head food scores safe_mask is_critical need_food other_state
  = _evaluate_food_seeking_smart my_head food scores safe_mask is_critical need_food
      game_state.
Proof.
  unfold _evaluate_food_seeking_smart. cbv zeta.
  rewrite opponents_of_with_health.
  change (snake_body (you other_state)) with (snake_body (you game_state)).
  erewrite map_result_ext; [reflexivity|]. intros f. cbv beta.
  destruct (Py.truediv _ _); [|reflexivity]. cbn [mbind result_bind Py.bind].
  unfold _estimate_space_after_reaching.
  rewrite (flood_fill_with_health f (with_head_at f game_state) (with_head_at f other_state))
    by reflexivity.
  unfold _count_threats_near. rewrite for_each_map. reflexivity.
Qed.

Lemma aggressive_with_health my_head my_length opponents scores safe_mask :
  _evaluate_aggressive_strategy my_head my_length (map (with_health health) opponents)
    scores safe_mask
  = _evaluate_aggressive_strategy my_head my_length opponents scores safe_mask.
Proof. unfold _evaluate_aggressive_strategy. rewrite for_each_map. reflexivity. Qed.

Lemma head_to_head_with_health my_head my_length opponents w h scores safe_mask :
  _evaluate_head_to_head_defense_enhanced my_head my_length
    (map (with_health health) opponents) w h scores safe_mask
  = _evaluate_head_to_head_defense_enhanced my_head my_length opponents w h scores safe_mask.
Proof. unfold _evaluate_head_to_head_defense_enhanced. rewrite for_each_map. reflexivity. Qed.

Lemma opponents_nil_with_health (opponents : list Snake) :
  bool_decide (map (with_health health) opponents = []) = bool_decide (opponents = []).
Proof. destruct opponents; reflexivity. Qed.

Lemma evaluate_layers_with_health (out : list Line) :
  evaluate_layers other_state out = evaluate_layers game_state out.
Proof.
  unfold evaluate_layers. cbv zeta.
  rewrite opponents_of_with_health.
  change (you other_state) with (you game_state).
  change (width (board other_state)) with (width (board game_state)).
  change (height (board other_state)) with (height (board game_state)).
  change (food (board other_state)) with (food (board game_state)).
  rewrite opponents_nil_with_health.
  apply io_bind_ext; [reflexivity|]. intros my_head o1.
  apply io_bind_ext; [unfold lift; rewrite basic_safety_with_health; reflexivity|].
  intros [mask scores1] o2.
  apply io_bind_ext; [unfold lift; rewrite space_with_health; reflexivity|].
  intros scores2 o3.
  apply io_bind_ext; [unfold lift; rewrite threshold_with_health; reflexivity|].
  intros threshold o4.
  apply io_bind_ext.
  { repeat match goal with |- context [if ?c then _ else _] => destruct c end;
      try reflexivity.
    - apply emergency_with_health.
    - unfold lift. rewrite food_smart_with_health. reflexivity. }
  intros scores3 o5.
  apply io_bind_ext.
  { destruct (_ && _); [|reflexivity].
    unfold lift. rewrite aggressive_with_health. reflexivity. }
  intros scores4 o6.
  apply io_bind_ext.
  { destruct (negb _); [|reflexivity].
    unfold lift. rewrite head_to_head_with_health. reflexivity. }
  intros scores5 o7. reflexivity.
Qed.

End BoardHealth.

(** X20: [move] never reads the health of the snakes listed on the board:
    with any other health values there (Self's own entry included; the
    health it uses for Self is the one in ['you']), it returns the same
    result and prints the same lines. *)
Theorem move_ignores_board_health
        (health : Snake -> Z) (game_state : GameState) (out : list Line) :
  move (with_board_health health game_state) out = move game_state out.
Proof.
  unfold move. apply io_bind_ext; [apply evaluate_layers_with_health|].
  intros scored o. reflexivity.
Qed.

(** ** These properties on the sample states *)

(** From (5,5) with health 10 and food at (5,8), (5,6) and (6,5), the
    option is (5,6), the first of the two items one cell away. *)
Lemma emergency_food_choice_witness :
  emergency_food_option (mkPos 5 5) 10 [mkPos 5 8; mkPos 5 6; mkPos 6 5]
  = Ok (Some (mkFoodOption (mkPos 5 6) 1 (Float 250)))
  /\ 1 < 10
  /\ exists before after,
      [mkPos 5 8; mkPos 5 6; mkPos 6 5] = before ++ mkPos 5 6 :: after
      /\ (forall f, In f before -> 1 < _manhattan_distance (mkPos 5 5) f)
      /\ (forall f, In f after -> 1 <= _manhattan_distance (mkPos 5 5) f).
Proof.
  assert (H : emergency_food_option (mkPos 5 5) 10 [mkPos 5 8; mkPos 5 6; mkPos 6 5]
              = Ok (Some (mkFoodOption (mkPos 5 6) 1 (Float 250))))
    by (vm_compute; reflexivity).
  split; [exact H|].
  destruct (proj1 (proj2 (emergency_food_choice (mkPos 5 5) 10
                            [mkPos 5 8; mkPos 5 6; mkPos 6 5])) _ H)
    as (_ & Hlt & _ & Hfirst).
  split; [exact Hlt | exact Hfirst].
Defined.

(** On [hunter_state] Self (5 segments, health 14) keeps the opponent of 4
    segments two cells away as its hunt option, with score 80. *)
Lemma hunt_option_is_worthwhile_witness :
  for_each (hunt_step (mkPos 2 1) 5 14 (opponents_of hunter_state) hunter_state)
           (opponents_of hunter_state) None
  = Ok (Some (mkHuntOption (mkPos 2 3) 2 (Int 80) (Int 0) true))
  /\ Py.gt (Int 80) (Int 50) = true /\ 4 <= 5 /\ 5 < 14.
Proof.
  assert (H : for_each (hunt_step (mkPos 2 1) 5 14 (opponents_of hunter_state) hunter_state)
                       (opponents_of hunter_state) None
              = Ok (Some (mkHuntOption (mkPos 2 3) 2 (Int 80) (Int 0) true)))
    by (vm_compute; reflexivity).
  split; [exact H|].
  exact (proj2 (hunt_option_is_worthwhile (mkPos 2 1) 5 14 (opponents_of hunter_state)
                  hunter_state _ H)).
Defined.

(** On [starving_state] the smart food choice pulls toward the only food
    item, (5,8), with weight 200. *)
Lemma food_seeking_smart_target_witness :
  exists scores' best_food,
    _evaluate_food_seeking_smart (mkPos 5 5) [mkPos 5 8] starving_scores starving_mask
      true true starving_state = Ok scores'
    /\ In best_food [mkPos 5 8]
    /\ projected (mkPos 5 5) starving_mask (Int 200) best_food starving_scores scores'.
Proof.
  destruct (_evaluate_food_seeking_smart (mkPos 5 5) [mkPos 5 8] starving_scores
              starving_mask true true starving_state) as [scores'|e] eqn:E;
    [|vm_compute in E; discriminate].
  destruct (proj2 (food_seeking_smart_target (mkPos 5 5) [mkPos 5 8] starving_scores
                     starving_mask true true starving_state) scores' E)
    as (best_food & Hin & Hproj).
  exists scores', best_food. split; [reflexivity|]. split; [exact Hin | exact Hproj].
Defined.

(** On [starving_state] the opponent's head (0,0) is 13 cells from the
    food at (5,8), Self's head 3: no threat. *)
Lemma no_threat_without_contender_witness :
  _count_threats_near (mkPos 5 8) (opponents_of starving_state) 3 (mkPos 5 5)
  = Ok (Float 0).
Proof.
  apply (no_threat_without_contender (mkPos 5 8) (opponents_of starving_state) 3 (mkPos 5 5)).
  intros o Ho. vm_compute in Ho. destruct Ho as [<-|[]].
  eexists. eexists. split; [reflexivity|]. left. vm_compute. reflexivity.
Defined.

(** On [uneven_field], hunting the one-segment opponent at (5,5): the
    other opponent is longer than Self but its head (0,2) is 8 cells from
    the target. *)
Lemma no_third_party_without_rival_witness :
  third_party_threat_of 3 (row_snake "b" 5 5 1 90) (mkPos 5 5) (opponents_of uneven_field)
  = Ok (Int 0).
Proof.
  apply (no_third_party_without_rival 3 (row_snake "b" 5 5 1 90) (mkPos 5 5)
           (opponents_of uneven_field)).
  intros other Ho. vm_compute in Ho. destruct Ho as [<-|[<-|[]]].
  - right. eexists. eexists. split; [reflexivity|]. right. vm_compute. reflexivity.
  - left. reflexivity.
Defined.

(** On [starving_state] (health 10, one opponent) the turn prints an
    emergency line and then its decision in critical mode. *)
Lemma move_prints_its_decision_witness :
  move starving_state [] = (Ok Up, [EmergencyFood; MoveLine 40 Up CRITICAL 7])
  /\ exists scored pre,
      fst (evaluate_layers starving_state []) = Ok scored
      /\ [EmergencyFood; MoveLine 40 Up CRITICAL 7]
         = [] ++ pre
           ++ [match safe_moves_of (safe_moves_mask scored) (final_scores scored) with
               | [] => MoveNoSafeMoves (turn starving_state) Up
               | _ :: _ => MoveLine (turn starving_state) Up
                                    (mode_of starving_state (dynamic_threshold scored))
                                    (dynamic_threshold scored)
               end]
      /\ (pre = []
          \/ exists line,
              pre = [line] /\ is_emergency_line line = true
              /\ snake_health (you starving_state) < 15
              /\ opponents_of starving_state <> []).
Proof.
  assert (H : move starving_state [] = (Ok Up, [EmergencyFood; MoveLine 40 Up CRITICAL 7]))
    by (vm_compute; reflexivity).
  split; [exact H|].
  exact (move_prints_its_decision starving_state [] _ Up H).
Defined.

(** On [fading_state] (health 3) the food is 3 cells away and the opponent
    has 5 segments against 3: the emergency strategy does nothing. *)
Lemma emergency_without_options_witness :
  _evaluate_emergency_strategy_enhanced (mkPos 5 5) 3 3 [mkPos 5 8]
    (opponents_of fading_state) starving_scores starving_mask fading_state []
  = (Ok starving_scores, []).
Proof.
  apply (emergency_without_options (mkPos 5 5) 3 3 [mkPos 5 8] (opponents_of fading_state)
           starving_scores starving_mask fading_state []).
  - intros f [<-|[]]. vm_compute. discriminate.
  - intros o Ho. vm_compute in Ho. destruct Ho as [<-|[]].
    eexists. eexists. split; [reflexivity|]. left. vm_compute. discriminate.
Defined.

(* ===================================================================== *)
(** * When the choice keeps to the moves the safety filter passed *)
(* ===================================================================== *)

Lemma gt_not_nan (a c : num) : Py.gt a c = true -> is_nan a = false.
Proof.
  unfold Py.gt. rewrite lt_keys. intros (kc & ka & _ & Ha & _).
  unfold is_nan. rewrite Ha. reflexivity.
Qed.

(** A NaN that comes first stays: nothing compares greater than it. *)
Lemma max_from_nan {A : Type} (k : A -> num) (l : list A) (best : A) :
  is_nan (k best) = true -> max_from k best l = best.
Proof.
  intros Hnan. induction l as [|x l IH]; cbn [max_from]; [reflexivity|].
  assert (E : Py.gt (k x) (k best) = false).
  { unfold Py.gt, Py.lt, cmp. unfold is_nan in Hnan.
    destruct (num_key (k best)); [discriminate | reflexivity]. }
  rewrite E. exact IH.
Qed.

(** From a first item that is not a NaN, [max] ends above every bound that
    some item exceeds. *)
Lemma max_from_above {A : Type} (k : A -> num) (c : num) (l : list A) (best : A) :
  is_nan (k best) = false ->
  Py.gt (k best) c = true \/ (exists x, In x l /\ Py.gt (k x) c = true) ->
  Py.gt (k (max_from k best l)) c = true.
Proof.
  revert best. induction l as [|x l IH]; intros best Hnan H; cbn [max_from].
  - destruct H as [H|(x & [] & _)]. exact H.
  - destruct (Py.gt (k x) (k best)) eqn:E.
    + apply IH; [eapply gt_not_nan; exact E|].
      destruct H as [H|(y & [<-|Hy] & H)].
      * left. unfold Py.gt in *. eapply lt_trans; eauto.
      * left. exact H.
      * right. eauto.
    + apply IH; [exact Hnan|].
      destruct H as [H|(y & [<-|Hy] & H)].
      * left. exact H.
      * left. unfold Py.gt in *.
        eapply lt_le_trans; [exact H|].
        apply not_lt_le; [exact Hnan | eapply gt_not_nan; exact H | exact E].
      * right. eauto.
Qed.

Lemma choose_move_unmasked (safe_mask : Table bool) (scores : Table num) (m' m : Move) :
  (forall x, get x safe_mask = false -> get x scores = Int (-10000)) ->
  get m' safe_mask = true ->
  Py.gt (get m' scores) (Int (-10000)) = true ->
  choose_move safe_mask scores = Ok m ->
  get m safe_mask = true.
Proof.
  intros Hmasked Hm' Hgt Hm.
  destruct (get m safe_mask) eqn:E; [reflexivity|]. exfalso.
  pose proof (Hmasked m E) as Hscore.
  unfold choose_move in Hm.
  destruct (safe_moves_of safe_mask scores) as [|x l] eqn:Ec.
  - assert (Hmax : max_from (fun m => get m scores) Up [Down; Left; Right] = m).
    { unfold possible_moves in Hm. cbn [Py.max_by] in Hm. congruence. }
    clear Hm. rename Hmax into Hm.
    destruct (is_nan (get Up scores)) eqn:Hnan.
    + rewrite (max_from_nan (fun m => get m scores) _ Up Hnan) in Hm. subst m.
      rewrite Hscore in Hnan. discriminate.
    + assert (Habove : Py.gt (get m scores) (Int (-10000)) = true).
      { rewrite <- Hm. apply (max_from_above (fun m => get m scores)); [exact Hnan|].
        destruct m'; [left; exact Hgt | right; exists Down | right; exists Left
                      | right; exists Right];
          (split; [cbn; tauto | exact Hgt]). }
      rewrite Hscore in Habove. discriminate.
  - assert (Hmax : max_from (fun m => get m scores) x l = m).
    { cbn [Py.max_by] in Hm. congruence. }
    clear Hm. rename Hmax into Hm.
    pose proof (max_from_In (fun m => get m scores) l x) as Hin.
    rewrite Hm, <- Ec in Hin. apply safe_moves_of_In in Hin as [Hmask _]. congruence.
Qed.

(** X21: whenever a move with mask true ends the layers with a score above
    -10000, the penalty a masked move carries, [move] returns a move with
    mask true, also when no move passes the -9000 guard; with a body of
    two segments or more that move does not lead back onto the neck. *)
Theorem mask_true_move_wins_above_penalty
        (game_state : GameState) (out : list Line) (scored : Scored) :
  fst (evaluate_layers game_state out) = Ok scored ->
  (exists m', get m' (safe_moves_mask scored) = true
              /\ Py.gt (get m' (final_scores scored)) (Int (-10000)) = true) ->
  exists m,
    fst (move game_state out) = Ok m
    /\ get m (safe_moves_mask scored) = true
    /\ forall my_head neck rest,
        snake_body (you game_state) = my_head :: neck :: rest ->
        _get_next_position my_head m <> neck.
Proof.
  intros Hrun (m' & Hm' & Hgt).
  destruct (choose_move_total (safe_moves_mask scored) (final_scores scored)) as [m Hm].
  exists m. rewrite (move_result _ _ _ Hrun). split; [exact Hm|].
  assert (Hmask : get m (safe_moves_mask scored) = true).
  { apply (choose_move_unmasked _ (final_scores scored) m' m); auto.
    intros x Hx. eapply final_score_of_unsafe; eauto. }
  split; [exact Hmask|].
  intros my_head neck rest Hbody Hneck.
  apply evaluate_layers_inv in Hrun as (head' & scores1 & Hhead & Hfilter & _).
  rewrite Hbody in Hhead, Hfilter. cbn in Hhead. injection Hhead as <-.
  rewrite (neck_move_masked _ _ _ _ _ _ _ _ _ m Hfilter Hneck) in Hmask. discriminate.
Qed.

(** On [shorter_coil_state], a well-formed snapshot, up is the only move
    with mask true and ends between -10000 and -9000: no move passes the
    guard, and [move] still returns up. *)
Lemma mask_true_move_wins_above_penalty_witness :
  well_formed shorter_coil_state = true
  /\ exists scored m,
      fst (evaluate_layers shorter_coil_state []) = Ok scored
      /\ safe_moves_of (safe_moves_mask scored) (final_scores scored) = []
      /\ fst (move shorter_coil_state []) = Ok m
      /\ get m (safe_moves_mask scored) = true.
Proof.
  split; [vm_compute; reflexivity|].
  destruct (fst (evaluate_layers shorter_coil_state [])) as [scored|e] eqn:E;
    [|vm_compute in E; discriminate].
  assert (Hup : get Up (safe_moves_mask scored) = true
                /\ Py.gt (get Up (final_scores scored)) (Int (-10000)) = true
                /\ safe_moves_of (safe_moves_mask scored) (final_scores scored) = []).
  { vm_compute in E. injection E as <-. vm_compute. repeat split; reflexivity. }
  destruct Hup as (Hmask & Hgt & Hnone).
  destruct (mask_true_move_wins_above_penalty shorter_coil_state [] scored E
              (ex_intro _ Up (conj Hmask Hgt)))
    as (m & Hmove & Hm & _).
  exists scored, m. auto.
Defined.

(* ===================================================================== *)
(** * Statelessness: what a call of [move] leaves in the process *)
(* ===================================================================== *)

Lemma preserves_refl (p : Process) : preserves p p.
Proof. repeat split; auto. Qed.

Lemma preserves_trans (p1 p2 p3 : Process) :
  preserves p1 p2 -> preserves p2 p3 -> preserves p1 p3.
Proof.
  intros (G1 & N1 & O1) (G2 & N2 & O2). split; [congruence|]. split; [lia|].
  intros r Hr. rewrite O2 by lia. apply O1. exact Hr.
Qed.

Lemma holds_preserved (ref : Ref) (d : GameState) (p p' : Process) :
  holds ref d p -> preserves p p' -> holds ref d p'.
Proof.
  intros (G & N & O) (G' & N' & O'). split; [congruence|]. split; [lia|].
  rewrite O' by exact N. exact O.
Qed.

Lemma store_same (ref : Ref) (d : GameState) (objects : Ref -> GameState) :
  store ref d objects ref = d.
Proof. unfold store. rewrite Nat.eqb_refl. reflexivity. Qed.

Lemma store_other (ref r : Ref) (d : GameState) (objects : Ref -> GameState) :
  r <> ref -> store ref d objects r = objects r.
Proof. intros H. unfold store. apply Nat.eqb_neq in H. rewrite H. reflexivity. Qed.

(** A new object preserves the process. *)
Lemma preserves_fresh (p : Process) (d : GameState) (out : list Line) :
  preserves p (mkProcess (globals p) (store (next_ref p) d (objects p))
                         (S (next_ref p)) out).
Proof.
  split; [reflexivity|]. split; [cbn; lia|].
  intros r Hr. cbn. apply store_other. lia.
Qed.

Section Follows.

Variable ref : Ref.
Variable d : GameState.

Lemma follows_ext {A : Type} (c : proc A) (m m' : io Line A) :
  (forall out, m out = m' out) -> follows ref d c m -> follows ref d c m'.
Proof.
  intros E H p Hp. destruct (H p Hp) as (p' & H1 & H2 & H3).
  exists p'. rewrite <- E. auto.
Qed.

Lemma follows_ret {A : Type} (a : A) : follows ref d (proc_ret a) (io_ret a).
Proof. intros p _. exists p. repeat split; auto. Qed.

Lemma follows_pure {A : Type} (r : result A) : follows ref d (pure r) (lift r).
Proof. intros p _. exists p. repeat split; auto. Qed.

Lemma follows_say (line : Line) : follows ref d (say line) (print line).
Proof.
  intros p _. eexists. split; [reflexivity|]. split; [reflexivity|].
  repeat split; auto.
Qed.

Lemma follows_bind {A B : Type} (c : proc A) (kc : A -> proc B)
      (m : io Line A) (km : A -> io Line B) :
  follows ref d c m ->
  (forall a, follows ref d (kc a) (km a)) ->
  follows ref d (c ≫= kc) (m ≫= km).
Proof.
  intros Hc Hk p Hp. destruct (Hc p Hp) as (p1 & E1 & O1 & P1).
  unfold mbind, proc_mbind, proc_bind, io_mbind, io_bind. rewrite E1.
  destruct (m (stdout p)) as [[a|e] out1] eqn:Em; cbn [fst snd] in *.
  - destruct (Hk a p1 (holds_preserved _ _ _ _ Hp P1)) as (p2 & E2 & O2 & P2).
    exists p2. rewrite E2, O1. split; [reflexivity|]. split; [rewrite O2, O1; reflexivity|].
    eapply preserves_trans; eauto.
  - exists p1. auto.
Qed.

(** A step that returns [a] whatever the process, prints nothing and
    preserves the process. *)
Lemma follows_step {A B : Type} (c : proc A) (a : A) (kc : A -> proc B) (m : io Line B) :
  (forall p, holds ref d p ->
             exists p', c p = (Ok a, p') /\ stdout p' = stdout p /\ preserves p p') ->
  follows ref d (kc a) m ->
  follows ref d (c ≫= kc) m.
Proof.
  intros Hc Hk p Hp. destruct (Hc p Hp) as (p1 & E1 & O1 & P1).
  unfold mbind, proc_mbind, proc_bind. rewrite E1.
  destruct (Hk p1 (holds_preserved _ _ _ _ Hp P1)) as (p2 & E2 & O2 & P2).
  exists p2. rewrite E2, O2, O1. split; [reflexivity|]. split; [reflexivity|].
  eapply preserves_trans; eauto.
Qed.

Lemma follows_load {B : Type} (kc : GameState -> proc B) (m : io Line B) :
  follows ref d (kc d) m -> follows ref d (load ref ≫= kc) m.
Proof.
  apply follows_step. intros p (_ & _ & O). exists p. unfold load. rewrite O.
  split; [reflexivity|]. split; [reflexivity | apply preserves_refl].
Qed.

Lemma follows_global {B : Type} (name : Globals -> Z) (kc : Z -> proc B) (m : io Line B) :
  follows ref d (kc (name module_globals)) m -> follows ref d (read_global name ≫= kc) m.
Proof.
  apply follows_step. intros p (G & _ & _). exists p. unfold read_global. rewrite G.
  split; [reflexivity|]. split; [reflexivity | apply preserves_refl].
Qed.

Lemma lift_bind {A B : Type} (r : result A) (k : A -> result B) (out : list Line) :
  lift (r ≫= k) out = (lift r ≫= fun a => lift (k a)) out.
Proof. destruct r; reflexivity. Qed.

Lemma follows_pure_bind {A B : Type} (c : proc A) (kc : A -> proc B)
      (r : result A) (kr : A -> result B) :
  follows ref d c (lift r) ->
  (forall a, follows ref d (kc a) (lift (kr a))) ->
  follows ref d (c ≫= kc) (lift (r ≫= kr)).
Proof.
  intros Hc Hk. apply follows_ext with (m := lift r ≫= fun a => lift (kr a)).
  - intros out. symmetry. apply lift_bind.
  - apply follows_bind; assumption.
Qed.

Lemma follows_for_each {A S : Type} (bc : A -> S -> proc S) (b : A -> S -> result S)
      (l : list A) :
  (forall x s, follows ref d (bc x s) (lift (b x s))) ->
  forall s, follows ref d (proc_for_each bc l s) (lift (for_each b l s)).
Proof.
  intros H. induction l as [|x l IH]; intros s; cbn [proc_for_each for_each].
  - apply follows_ret.
  - apply (follows_pure_bind (bc x s) (proc_for_each bc l) (b x s) (for_each b l));
      [apply H | exact IH].
Qed.

Lemma follows_map {A B : Type} (fc : A -> proc B) (f : A -> result B) (l : list A) :
  (forall x, follows ref d (fc x) (lift (f x))) ->
  follows ref d (proc_map fc l) (lift (map_result f l)).
Proof.
  intros H. induction l as [|x l IH]; cbn [proc_map map_result].
  - apply follows_ret.
  - apply (follows_pure_bind (fc x) _ (f x) (fun y => ys ← map_result f l; Ok (y :: ys)));
      [apply H|].
    intros y.
    apply (follows_pure_bind (proc_map fc l) _ (map_result f l) (fun ys => Ok (y :: ys)));
      [exact IH|].
    intros ys. apply follows_ret.
Qed.

End Follows.

(** ** The functions of the module that receive the game state *)

Section Layers.

Variable ref : Ref.
Variable d : GameState.

Lemma flood_fill_follows {B : Type} (start_pos : Pos) (kc : Z -> proc B) (m : io Line B) :
  follows ref d (kc (_flood_fill_dynamic start_pos d)) m ->
  follows ref d (Process._flood_fill_dynamic start_pos ref ≫= kc) m.
Proof.
  intros H. apply (follows_step ref d _ (_flood_fill_dynamic start_pos d)); [|exact H].
  intros p (_ & _ & O). exists p. unfold Process._flood_fill_dynamic, load.
  unfold mbind, proc_mbind, proc_bind, proc_ret. rewrite O.
  split; [reflexivity|]. split; [reflexivity | apply preserves_refl].
Qed.

Lemma space_follows my_head my_length scores safe_mask :
  follows ref d
    (Process._evaluate_space_availability my_head my_length scores safe_mask ref)
    (lift (_evaluate_space_availability my_head my_length scores safe_mask d)).
Proof.
  unfold Process._evaluate_space_availability, _evaluate_space_availability, on_safe_moves.
  apply follows_for_each. intros m s.
  destruct (negb (get m safe_mask)); [apply follows_ret|].
  cbv zeta. apply flood_fill_follows.
  apply follows_pure_bind; [apply follows_pure|]. intros v. apply follows_ret.
Qed.

Lemma threshold_follows :
  follows ref d (Process._calculate_dynamic_aggressive_threshold ref)
          (lift (_calculate_dynamic_aggressive_threshold d)).
Proof.
  unfold Process._calculate_dynamic_aggressive_threshold.
  apply follows_load. apply follows_pure.
Qed.

(** The hunt copies the game state, replaces ['you'] in the copy and
    floods there: the copy is a new object, the dict behind [ref] stays. *)
Lemma chase_space_follows {B : Type} (opponent_head : Pos) (kc : Z -> proc B)
      (m : io Line B) :
  follows ref d (kc (_flood_fill_dynamic opponent_head (with_head_at opponent_head d))) m ->
  follows ref d
    (temp_game_state ← dict_copy ref;
     g ← load ref;
     _ ← set_you temp_game_state
                 (mkSnake (snake_id (you g))
                          (opponent_head :: but_last (snake_body (you g)))
                          (snake_health (you g)));
     Process._flood_fill_dynamic opponent_head temp_game_state ≫= kc)
    m.
Proof.
  intros Hk p Hp. pose proof Hp as (G & N & O).
  unfold Process._flood_fill_dynamic.
  unfold mbind, proc_mbind, proc_bind, dict_copy, dict_new, load, set_you, proc_ret.
  cbn [globals objects next_ref stdout fst snd].
  rewrite !store_same, store_other by lia. rewrite O. cbn [turn board].
  fold (with_head_at opponent_head d).
  match goal with
  | |- exists p', kc _ ?p1 = _ /\ _ => set (q := p1)
  end.
  assert (Hq : preserves p q).
  { split; [reflexivity|]. split; [cbn; lia|].
    intros r Hr. cbn. rewrite !store_other by lia. reflexivity. }
  destruct (Hk q (holds_preserved ref d p q Hp Hq)) as (p2 & E2 & O2 & P2).
  exists p2. split; [exact E2|]. split; [exact O2|].
  eapply preserves_trans; eauto.
Qed.

Lemma follows_done {A : Type} (a : A) : follows ref d (proc_ret a) (lift (Ok a)).
Proof. apply (follows_ret ref d a). Qed.

Lemma hunt_step_follows my_head my_length my_health opponents opponent best :
  follows ref d
    (Process.hunt_step my_head my_length my_health opponents ref opponent best)
    (lift (hunt_step my_head my_length my_health opponents d opponent best)).
Proof.
  unfold Process.hunt_step, hunt_step. cbv zeta.
  apply follows_pure_bind; [apply follows_pure|]. intros opponent_head.
  destruct (my_length <=? len (snake_body opponent)); [apply follows_done|].
  destruct (my_health - 5 <=? _manhattan_distance my_head opponent_head);
    [apply follows_done|].
  apply follows_pure_bind; [apply follows_pure|]. intros third_party_threat.
  apply chase_space_follows.
  apply follows_pure_bind; [apply follows_pure|]. intros s1.
  apply follows_pure_bind; [apply follows_pure|]. intros s2.
  apply follows_pure_bind; [apply follows_pure|]. intros score.
  apply follows_global. cbn [module_globals global_HUNT_REWARD_THRESHOLD].
  repeat match goal with
         | |- context [if ?c then _ else _] => destruct c
         end; apply follows_done.
Qed.

Lemma emergency_follows my_head my_length my_health food opponents scores safe_mask :
  follows ref d
    (Process._evaluate_emergency_strategy_enhanced my_head my_length my_health food
       opponents scores safe_mask ref)
    (_evaluate_emergency_strategy_enhanced my_head my_length my_health food
       opponents scores safe_mask d).
Proof.
  unfold Process._evaluate_emergency_strategy_enhanced,
    _evaluate_emergency_strategy_enhanced.
  apply follows_bind; [apply follows_pure|]. intros best_food_option.
  apply follows_bind; [apply follows_for_each; intros; apply hunt_step_follows|].
  intros best_hunt_option.
  destruct best_hunt_option as [best_hunt|], best_food_option as [best_food|].
  - apply follows_bind; [apply follows_pure|]. intros doubled.
    destruct (_ && _).
    + apply follows_bind; [apply follows_pure|]. intros scores'.
      apply follows_bind; [apply follows_say|]. intros _. apply follows_ret.
    + apply follows_bind; [apply follows_pure|]. intros scores'.
      apply follows_bind; [apply follows_say|]. intros _. apply follows_ret.
  - apply follows_bind; [apply follows_pure|]. intros scores'.
    apply follows_bind; [apply follows_say|]. intros _. apply follows_ret.
  - apply follows_bind; [apply follows_pure|]. intros scores'.
    apply follows_bind; [apply follows_say|]. intros _. apply follows_ret.
  - apply follows_ret.
Qed.

(** The space estimate builds its state in a new dict. *)
Lemma estimate_follows {B : Type} (food_pos : Pos) (kc : Z -> proc B) (m : io Line B) :
  follows ref d (kc (_estimate_space_after_reaching food_pos d)) m ->
  follows ref d (Process._estimate_space_after_reaching food_pos ref ≫= kc) m.
Proof.
  intros Hk p Hp. pose proof Hp as (G & N & O).
  unfold Process._estimate_space_after_reaching, Process._flood_fill_dynamic.
  unfold mbind, proc_mbind, proc_bind, dict_new, load, proc_ret.
  cbn [globals objects next_ref stdout fst snd].
  rewrite store_same, O.
  fold (with_head_at food_pos d). fold (_estimate_space_after_reaching food_pos d).
  match goal with
  | |- exists p', kc _ ?p1 = _ /\ _ => set (q := p1)
  end.
  assert (Hq : preserves p q) by apply preserves_fresh.
  destruct (Hk q (holds_preserved ref d p q Hp Hq)) as (p2 & E2 & O2 & P2).
  exists p2. split; [exact E2|]. split; [exact O2|].
  eapply preserves_trans; eauto.
Qed.

Lemma food_smart_follows my_head food scores safe_mask is_critical need_food :
  follows ref d
    (Process._evaluate_food_seeking_smart my_head food scores safe_mask is_critical
       need_food ref)
    (lift (_evaluate_food_seeking_smart my_head food scores safe_mask is_critical
             need_food d)).
Proof.
  unfold Process._evaluate_food_seeking_smart, _evaluate_food_seeking_smart.
  apply follows_load. cbv zeta.
  apply follows_pure_bind; [|intros food_evaluations; apply follows_pure].
  apply follows_map. intros f.
  apply follows_pure_bind; [apply follows_pure|]. intros distance_score.
  apply estimate_follows. apply follows_pure.
Qed.

Lemma evaluate_layers_follows :
  follows ref d (Process.evaluate_layers ref) (evaluate_layers d).
Proof.
  unfold Process.evaluate_layers, evaluate_layers.
  apply follows_load. cbv zeta.
  apply follows_bind; [apply follows_pure|]. intros my_head.
  apply follows_bind; [apply follows_pure|]. intros [safe_mask scores1].
  apply follows_bind; [apply space_follows|]. intros scores2.
  apply follows_bind; [apply threshold_follows|]. intros threshold.
  apply follows_global. apply follows_global.
  cbn [module_globals global_LOW_HEALTH_THRESHOLD global_CRITICAL_HEALTH_THRESHOLD].
  apply follows_bind.
  { destruct (_ && negb (bool_decide (opponents_of d = []))); [apply emergency_follows|].
    destruct (_ && _); [apply food_smart_follows | apply follows_ret]. }
  intros scores3.
  apply follows_bind.
  { destruct (_ && _); [apply follows_pure | apply follows_ret]. }
  intros scores4.
  apply follows_bind.
  { destruct (negb _); [apply follows_pure | apply follows_ret]. }
  intros scores5.
  apply follows_bind; [apply follows_pure|]. intros scores6.
  apply follows_ret.
Qed.

Lemma move_follows : follows ref d (Process.move ref) (move d).
Proof.
  unfold Process.move, move.
  apply follows_bind; [apply evaluate_layers_follows|]. intros scored. cbv zeta.
  apply follows_bind; [apply follows_pure|]. intros next_move.
  apply follows_load.
  apply follows_bind; [apply follows_say|]. intros _. apply follows_ret.
Qed.

End Layers.

(** C5: [move] is a deterministic function of the snapshot and keeps no
    state between turns. Called in a process that has the module's
    globals, on a reference to the snapshot, it returns what the function
    [move] of the snapshot returns and prints that function's lines after
    what was printed before; it leaves the module globals and every dict
    of the process as they were (the dicts it builds are new objects); so
    a second call returns the same result, and so does a call in any other
    process, at any other reference, that holds the same snapshot. *)
Theorem move_keeps_no_state (p : Process) (game_state : Ref) :
  globals p = module_globals ->
  (game_state < next_ref p)%nat ->
  let snapshot := objects p game_state in
  exists p',
    Process.move game_state p = (fst (move snapshot []), p')
    /\ stdout p' = stdout p ++ snd (move snapshot [])
    /\ globals p' = globals p
    /\ (forall r, (r < next_ref p)%nat -> objects p' r = objects p r)
    /\ fst (Process.move game_state p') = fst (Process.move game_state p)
    /\ forall q ref,
        globals q = module_globals ->
        (ref < next_ref q)%nat ->
        objects q ref = snapshot ->
        fst (Process.move ref q) = fst (Process.move game_state p).
Proof.
  intros G N snapshot.
  destruct (move_appends snapshot) as (result & lines & Hmove).
  assert (Hany : forall q ref, holds ref snapshot q ->
                               exists q', Process.move ref q = (result, q')
                                          /\ stdout q' = stdout q ++ lines
                                          /\ preserves q q').
  { intros q ref Hq. destruct (move_follows ref snapshot q Hq) as (q' & E & O & P).
    rewrite Hmove in E, O. exists q'. auto. }
  assert (Hp : holds game_state snapshot p) by (repeat split; auto).
  destruct (Hany p game_state Hp) as (p' & E & O & P).
  pose proof (Hmove []) as H0. cbn [app] in H0.
  exists p'. rewrite H0, E. cbn [fst snd].
  split; [reflexivity|]. split; [exact O|].
  destruct P as (G' & N' & O').
  split; [exact G'|]. split; [exact O'|]. split.
  - destruct (Hany p' game_state) as (p2 & E2 & _).
    { apply (holds_preserved game_state snapshot p p' Hp). repeat split; auto. }
    rewrite E2. reflexivity.
  - intros q ref Gq Nq Oq.
    destruct (Hany q ref) as (q' & Eq & _); [repeat split; auto|].
    rewrite Eq. reflexivity.
Qed.

(** In [fresh_process] the call on [hunter_state], a critical turn whose
    hunt copies the game state, returns the move of [hunter_state], leaves
    the snapshot as it was beside one new dict, and a second call returns
    the same move. *)
Lemma move_keeps_no_state_witness :
  exists p',
    Process.move 0%nat fresh_process = (fst (move hunter_state []), p')
    /\ next_ref p' = 2%nat
    /\ objects p' 0%nat = hunter_state
    /\ globals p' = module_globals
    /\ fst (Process.move 0%nat p') = fst (Process.move 0%nat fresh_process).
Proof.
  destruct (move_keeps_no_state fresh_process 0%nat eq_refl (le_n 1))
    as (p' & E & _ & G & O & Hagain & _).
  exists p'. split; [exact E|]. split.
  - assert (N : next_ref (snd (Process.move 0%nat fresh_process)) = 2%nat)
      by (vm_compute; reflexivity).
    rewrite E in N. exact N.
  - split; [apply (O 0%nat (le_n 1))|]. split; [exact G | exact Hagain].
Defined.
